(** * GhostType: audio enhancement, WAV loading, ASR input, browser host

    A shallow embedding of [EnhancementEngine] (python/enhancement_engine.py)
    and the properties its specification states about it, followed by the
    code around it: the WAV loader (python/audio_io.py), the choice of the
    recogniser's input (python/inference_pipeline.py) and the framing and
    payload handling of the browser host (scripts/chromium_native_host.py).

    Number model.  A NumPy float32 sample and a Python float are both read as
    a real number: arithmetic is exact, [math.exp], [math.log10], [**] and
    [np.sqrt] are the real functions, and rounding error, infinities and NaN
    are outside the model.  The one place where the binary32 format itself
    decides the behaviour, the float -> PCM16 conversion, is modelled a second
    time on IEEE binary32 values (module [F32]).

    Effects.  The engine is pure except for (a) Python exceptions and (b) the
    calls it makes on the optional WebRTC audio processing module.  Both are
    explicit: a computation of type [Eff A] threads the log of backend calls
    and ends in [Ok] or [Raise].

    Environment.  The file system, the [wave] module, the JSON codec,
    [str.strip], [str.lower], [urlparse] and the search for ffmpeg are not
    modelled: the functions that use them take them as section variables,
    and every theorem about those functions holds for any behaviour of
    them. *)

From Stdlib Require Import String Ascii Strings.Byte DecimalString.
From Stdlib Require Import Reals Lra Lia ZArith Bool List Floats.SpecFloat.
Import ListNotations.

Local Open Scope string_scope.
Local Open Scope list_scope.
Local Open Scope R_scope.

(* ================================================================== *)
(** * Python and NumPy primitives *)
(* ================================================================== *)

Module Py.

(** ** Exceptions and the error monad *)

(** An instance of a subclass of [Exception]: its class name and [str(exc)]. *)
Inductive PyExc : Type := Exc (cls : string) (msg : string).

Definition str_of_exc (e : PyExc) : string :=
  match e with Exc _ msg => msg end.

Inductive result (A : Type) : Type :=
| Ok (a : A)
| Raise (e : PyExc).
Arguments Ok {A} a.
Arguments Raise {A} e.

(** ** Comparisons on floats, as booleans *)

Definition Rltb (x y : R) : bool := if Rlt_dec x y then true else false.
Definition Rleb (x y : R) : bool := if Rle_dec x y then true else false.

(** ** Scalar helpers *)

(** [max(a, b)] and [min(a, b)] of two floats are [Rmax] and [Rmin]. *)

(** [a / b] on Python floats raises on a zero divisor. *)
Definition py_div (a b : R) : result R :=
  if Req_dec_T b 0
  then Raise (Exc "ZeroDivisionError" "float division by zero")
  else Ok (a / b).

(** [math.log10]. *)
Definition log10 (x : R) : R := ln x / ln 10.

(** Round to the nearest integer, ties to the even one: Python's [round(x)]
    and NumPy's [np.round] / [np.rint]. *)
Definition round_half_even (x : R) : Z :=
  let f := Int_part x in
  let d := x - IZR f in
  if Rlt_dec d (1 / 2) then f
  else if Rlt_dec (1 / 2) d then (f + 1)%Z
  else if Z.even f then f else (f + 1)%Z.


(** [round(x, ndigits)] on a float. *)
Definition py_round (x : R) (ndigits : nat) : R :=
  IZR (round_half_even (x * 10 ^ ndigits)) / 10 ^ ndigits.

(** ** Arrays: a one-dimensional [np.ndarray] is a list *)

Definition np_sum (a : list R) : R := fold_right Rplus 0 a.

Definition np_mean (a : list R) : R := np_sum a / INR (length a).

Definition np_abs (a : list R) : list R := map Rabs a.

Definition np_square (a : list R) : list R := map (fun x => x * x) a.

Definition np_clip (a : list R) (lo hi : R) : list R :=
  map (fun x => Rmin (Rmax x lo) hi) a.

(** [np.max] / [np.min] of a non-empty array; on an empty one NumPy raises. *)
Definition np_max (a : list R) : result R :=
  match a with
  | [] => Raise (Exc "ValueError"
            "zero-size array to reduction operation maximum which has no identity")
  | x :: t => Ok (fold_left Rmax t x)
  end.

Definition np_min (a : list R) : result R :=
  match a with
  | [] => Raise (Exc "ValueError"
            "zero-size array to reduction operation minimum which has no identity")
  | x :: t => Ok (fold_left Rmin t x)
  end.

(** [np.sort], as an insertion sort. *)
Fixpoint insert_sorted (x : R) (l : list R) : list R :=
  match l with
  | [] => [x]
  | y :: t => if Rle_dec x y then x :: l else y :: insert_sorted x t
  end.

Definition np_sort (a : list R) : list R := fold_right insert_sorted [] a.

(** [np.percentile(a, q)] for an integer [q] in 0..100 (linear interpolation
    between the two closest ranks). *)
Definition np_percentile (a : list R) (q : Z) : R :=
  let s := np_sort a in
  let n := Z.of_nat (length a) in
  let pos := (q * (n - 1))%Z in
  let lo := (pos / 100)%Z in
  let hi := Z.min (lo + 1) (n - 1) in
  let frac := IZR (pos mod 100) / 100 in
  let a_lo := nth (Z.to_nat lo) s 0 in
  let a_hi := nth (Z.to_nat hi) s 0 in
  a_lo + (a_hi - a_lo) * frac.

(** [a[mask]] for a boolean mask. *)
Fixpoint np_select {A : Type} (a : list A) (mask : list bool) : list A :=
  match a, mask with
  | x :: a', b :: m' => if b then x :: np_select a' m' else np_select a' m'
  | _, _ => []
  end.

(** [np.pad(a, (0, n))]: zeros appended. *)
Definition np_pad_right (a : list R) (n : nat) : list R := a ++ repeat 0 n.

(** [np.pad(a, (n, n), mode="edge")]. *)
Definition np_pad_edge (a : list R) (n : nat) : list R :=
  repeat (hd 0 a) n ++ a ++ repeat (last a 0) n.

(** [np.arange(lo, hi)] over the integers, as floats. *)
Definition np_arange (lo hi : Z) : list R :=
  map (fun k => IZR (lo + Z.of_nat k)) (seq 0 (Z.to_nat (hi - lo))).

Fixpoint dot (a b : list R) : R :=
  match a, b with
  | x :: a', y :: b' => x * y + dot a' b'
  | _, _ => 0
  end.

(** [np.convolve(a, v, mode="valid")] for [len(a) >= len(v)]:
    [out[j] = sum_k v[k] * a[j + len(v) - 1 - k]]. *)
Definition np_convolve_valid (a v : list R) : list R :=
  map (fun j => dot (firstn (length v) (skipn j a)) (rev v))
      (seq 0 (length a + 1 - length v)).

(** The frames [a[start : min(start + n, len(a))]] for
    [start in range(0, len(a), n)]. *)
Fixpoint frames_fuel {A : Type} (fuel n : nat) (a : list A) : list (list A) :=
  match fuel with
  | O => []
  | S fuel' =>
      match a with
      | [] => []
      | _ => firstn n a :: frames_fuel fuel' n (skipn n a)
      end
  end.

Definition frames {A : Type} (n : nat) (a : list A) : list (list A) :=
  frames_fuel (length a) n a.

(** ** Dictionaries: insertion-ordered, as in Python *)

Inductive PyVal : Type :=
| VBool (b : bool)
| VInt (z : Z)
| VFloat (r : R)
| VStr (s : string).

Definition dict := list (string * PyVal).

Fixpoint dict_get (d : dict) (k : string) : option PyVal :=
  match d with
  | [] => None
  | (k', v) :: d' => if String.eqb k' k then Some v else dict_get d' k
  end.

(** [d[k] = v]: an existing key keeps its place. *)
Fixpoint dict_set (d : dict) (k : string) (v : PyVal) : dict :=
  match d with
  | [] => [(k, v)]
  | (k', v') :: d' =>
      if String.eqb k' k then (k', v) :: d' else (k', v') :: dict_set d' k v
  end.

(** [d.update(other)]. *)
Definition dict_update (d other : dict) : dict :=
  fold_left (fun acc kv => dict_set acc (fst kv) (snd kv)) other d.

End Py.
Export Py.

(* ================================================================== *)
(** * Effects: exceptions and calls on the WebRTC module *)
(* ================================================================== *)

Module Effects.

(** What [apm.process_stream] hands back: [bytes], or a [str] (a sequence of
    code points) with older bindings. *)
Inductive Payload : Type :=
| PBytes (b : list byte)
| PStr (s : list N).

(** The optional [webrtc_audio_processing.AudioProcessingModule] class: a
    stateful object, every method of which may raise. *)
Record APM (St : Type) : Type := {
  apm_new : Z -> bool -> Z -> bool -> result St;
  set_stream_format : St -> Z -> Z -> Z -> Z -> result St;
  set_ns_level : St -> Z -> result St;
  set_agc_target : St -> Z -> result St;
  set_agc_level : St -> Z -> result St;
  process_stream : St -> list byte -> result (Payload * St)
}.
Arguments apm_new {St}.
Arguments set_stream_format {St}.
Arguments set_ns_level {St}.
Arguments set_agc_target {St}.
Arguments set_agc_level {St}.
Arguments process_stream {St}.

(** The optional [pyloudnorm] module, used as
    [pyln.Meter(rate).integrated_loudness(data)]; building the meter does not
    raise, measuring may. *)
Record Pyln : Type := {
  integrated_loudness : Z -> list R -> result R
}.

(** The calls the engine makes on the module, in order, each with the
    exception it ended in, if any. *)
Inductive ApmCall : Type :=
| CallNew (aec_type : Z) (enable_ns : bool) (agc_type : Z) (enable_vad : bool)
| CallSetStreamFormat (rate_in ch_in rate_out ch_out : Z)
| CallSetNsLevel (level : Z)
| CallSetAgcTarget (target : Z)
| CallSetAgcLevel (level : Z)
| CallProcessStream (payload : list byte).

Definition ApmEvent : Type := ApmCall * option PyExc.
Definition Log : Type := list ApmEvent.

Definition Eff (A : Type) : Type := Log -> result A * Log.

Definition ret {A} (a : A) : Eff A := fun log => (Ok a, log).

Definition bind {A B} (m : Eff A) (k : A -> Eff B) : Eff B :=
  fun log =>
    match m log with
    | (Ok a, log') => k a log'
    | (Raise e, log') => (Raise e, log')
    end.

(** A step that may raise but does not touch the backend. *)
Definition lift {A} (r : result A) : Eff A := fun log => (r, log).

(** A call on the backend: logged with its outcome. *)
Definition call {A} (c : ApmCall) (r : result A) : Eff A :=
  fun log =>
    (r, log ++ [(c, match r with Ok _ => None | Raise e => Some e end)]).

(** [try: body  except Exception as exc: handler(exc)]. *)
Definition try_except {A} (body : Eff A) (handler : PyExc -> Eff A) : Eff A :=
  fun log =>
    match body log with
    | (Raise e, log') => handler e log'
    | (Ok a, log') => (Ok a, log')
    end.

(** Run a computation from an empty log. *)
Definition run {A} (m : Eff A) : result A * Log := m [].

End Effects.
Export Effects.

Declare Scope eff_scope.
Delimit Scope eff_scope with eff.
Notation "x <- m ;; k" := (bind m (fun x => k))
  (at level 61, m at next level, right associativity) : eff_scope.
Notation "' p <- m ;; k" := (bind m (fun x => match x with p => k end))
  (at level 61, p pattern, m at next level, right associativity) : eff_scope.

(* ================================================================== *)
(** * PCM16 framing (idealised samples) *)
(* ================================================================== *)

Module Pcm.

Definition byte_of_Z (z : Z) : byte :=
  match Byte.of_N (Z.to_N (z mod 256)) with
  | Some b => b
  | None => x00
  end.

Definition Z_of_byte (b : byte) : Z := Z.of_N (Byte.to_N b).

(** [.astype(np.int16)] of an integral float: the value, wrapped to 16 bits. *)
Definition astype_int16 (z : Z) : Z := ((z + 32768) mod 65536 - 32768)%Z.

(** [arr.tobytes()] of an int16 array: two bytes per sample, low byte first. *)
Definition int16_tobytes (a : list Z) : list byte :=
  flat_map (fun z => let u := (z mod 65536)%Z in
                     [byte_of_Z u; byte_of_Z (u / 256)]) a.

(** [np.frombuffer(b, dtype=np.int16)]. *)
Fixpoint np_frombuffer_int16 (b : list byte) : result (list Z) :=
  match b with
  | [] => Ok []
  | [_] => Raise (Exc "ValueError" "buffer size must be a multiple of element size")
  | lo :: hi :: rest =>
      match np_frombuffer_int16 rest with
      | Ok a =>
          let u := (Z_of_byte lo + 256 * Z_of_byte hi)%Z in
          Ok ((if (u <? 32768)%Z then u else u - 65536)%Z :: a)
      | Raise e => Raise e
      end
  end.

(** [ints.astype(np.float32) / 32768.0]: every int16 value is a float32, and
    so is its quotient by a power of two. *)
Definition pcm16_to_float (ints : list Z) : list R :=
  map (fun k => IZR k / 32768) ints.

(** [s.encode("latin1")]. *)
Definition encode_latin1 (s : list N) : result (list byte) :=
  if forallb (fun c => (c <? 256)%N) s
  then Ok (map (fun c => byte_of_Z (Z.of_N c)) s)
  else Raise (Exc "UnicodeEncodeError"
                "'latin-1' codec can't encode character: ordinal not in range(256)").

End Pcm.
Export Pcm.

(* ================================================================== *)
(** * Configuration and result records *)
(* ================================================================== *)

Record LimiterConfig : Type := {
  enabled : bool;
  threshold : R;
  attack_ms : R;
  release_ms : R
}.

Record TargetsConfig : Type := {
  lufs_target : R;
  max_gain_db : R
}.

Record VADConfig : Type := {
  engine : string;
  aggressiveness : Z;
  preroll_ms : Z;
  hangover_ms : Z
}.

Record EnhancementV2Config : Type := {
  mode : string;
  ns_engine : string;
  noise_suppression_level : string;
  loudness_strategy : string;
  dynamics : string;
  limiter : LimiterConfig;
  targets : TargetsConfig;
  vad : VADConfig;
  hpf_cutoff_hz : R
}.

Record EnhancementV2Result : Type := {
  signal : list R;
  stats : dict
}.

(** The dataclass defaults. *)
Definition default_limiter : LimiterConfig :=
  {| enabled := true; threshold := 0.98; attack_ms := 5; release_ms := 50 |}.

Definition default_targets : TargetsConfig :=
  {| lufs_target := -18; max_gain_db := 18 |}.

Definition default_vad : VADConfig :=
  {| engine := "webrtcvad"; aggressiveness := 1; preroll_ms := 100;
     hangover_ms := 350 |}.

Definition default_config : EnhancementV2Config :=
  {| mode := "fast_dsp"; ns_engine := "webrtc";
     noise_suppression_level := "moderate"; loudness_strategy := "dynaudnorm";
     dynamics := "upward_comp"; limiter := default_limiter;
     targets := default_targets; vad := default_vad; hpf_cutoff_hz := 80 |}.

Definition _clamp (value lower upper : R) : R := Rmax lower (Rmin upper value).

(* ================================================================== *)
(** * EnhancementEngine *)
(* ================================================================== *)

Section Engine.

Local Open Scope eff_scope.

(** The optional imports at the top of the module: [None] / [false] when the
    import failed. *)
Context {St : Type}.
Variable WebRTCAudioProcessingModule : option (APM St).
Variables rnnoise deepfilternet speexdsp : bool.
Variable pyln : option Pyln.

(** [self.config]. *)
Variable config : EnhancementV2Config.

(** ** Signal metrics *)

Definition _estimate_rms_dbfs (signal : list R) : R :=
  match signal with
  | [] => -120
  | _ =>
      let rms := sqrt (np_mean (np_square signal)) in
      20 * log10 (Rmax rms 1e-7)
  end.

Definition _estimate_peak_dbfs (signal : list R) : R :=
  match np_abs signal with
  | [] => -120
  | x :: t =>
      let peak := fold_left Rmax t x in
      20 * log10 (Rmax peak 1e-7)
  end.

Definition _estimate_noise_floor_db (signal : list R) : R :=
  match signal with
  | [] => -120
  | _ =>
      let abs_signal := np_abs signal in
      let p20 := np_percentile abs_signal 20 in
      20 * log10 (Rmax p20 1e-7)
  end.

(** ** PCM16 conversion and curve smoothing *)

Definition _float_to_pcm16 (signal : list R) : list Z :=
  let clipped := np_clip signal (-1) 1 in
  map (fun x => astype_int16 (round_half_even (x * 32767))) clipped.

Definition _smooth_curve (values : list R) (window : Z) : list R :=
  if (length values <=? 1)%nat then values
  else
    let length := Z.max 3 (Z.lor window 1) in
    let sigma := Rmax 1 (IZR length / 6) in
    let half := (length / 2)%Z in
    let xs := np_arange (- half) (half + 1) in
    let kernel := map (fun x => exp (- (x ^ 2) / (2 * sigma * sigma))) xs in
    let kernel := map (fun k => k / np_sum kernel) kernel in
    let padded := np_pad_edge values (Z.to_nat half) in
    np_convolve_valid padded kernel.

Definition _map_ns_level : Z :=
  let level := noise_suppression_level config in
  if (level =? "low")%string then 0%Z
  else if (level =? "moderate")%string then 1%Z
  else if (level =? "high")%string then 2%Z
  else if (level =? "veryhigh")%string then 3%Z
  else 1%Z.

Definition _map_agc_params : Z * Z :=
  if (mode config =? "high_quality")%string then (18, 68)%Z else (20, 58)%Z.

(** ** DC removal and high-pass filter *)

Definition _apply_dc_removal (signal : list R) : list R * dict :=
  let dc := np_mean signal in
  let centered := map (fun x => x - dc) signal in
  (centered, [("dc_offset_removed", VFloat (py_round dc 6))]).

(** [output[i] = alpha * (output[i-1] + signal[i] - signal[i-1])] for
    [i >= 1]. *)
Fixpoint hpf_loop (alpha prev_out prev_in : R) (rest : list R) : list R :=
  match rest with
  | [] => []
  | x :: rest' =>
      let y := alpha * (prev_out + x - prev_in) in
      y :: hpf_loop alpha y x rest'
  end.

Definition _apply_high_pass_filter (signal : list R) (cutoff_hz : R)
    (sample_rate : Z) : result (list R * dict) :=
  if (length signal <? 2)%nat || Rleb cutoff_hz 0
  then Ok (signal, [("hpf_enabled", VBool false)])
  else
    match py_div 1 (IZR sample_rate) with
    | Raise e => Raise e
    | Ok dt =>
        let rc := 1 / (2 * PI * cutoff_hz) in
        match py_div rc (rc + dt) with
        | Raise e => Raise e
        | Ok alpha =>
            let output :=
              match signal with
              | [] => []
              | x0 :: rest => x0 :: hpf_loop alpha x0 x0 rest
              end in
            Ok (output,
                [("hpf_enabled", VBool true);
                 ("hpf_cutoff_hz", VFloat (py_round cutoff_hz 2));
                 ("hpf_alpha", VFloat (py_round alpha 6))])
        end
    end.

(** ** Noise suppression *)

(** One step of the fallback chain:
    [if requested == name: if module is None: requested = "webrtc" else: return pass-through]. *)
Definition plugin_fallback (name tag : string) (available : bool)
    (requested : string) : string + string :=
  if (requested =? name)%string
  then if available then inr tag else inl "webrtc"
  else inl requested.

(** The first [try] block: build and configure the module. *)
Definition apm_init (apm : APM St) (sample_rate ns_level agc_target agc_level : Z)
    : Eff St :=
  st <- call (CallNew 0 true 1 false) (apm_new apm 0%Z true 1%Z false) ;;
  st <- call (CallSetStreamFormat sample_rate 1 sample_rate 1)
             (set_stream_format apm st sample_rate 1%Z sample_rate 1%Z) ;;
  st <- call (CallSetNsLevel ns_level) (set_ns_level apm st ns_level) ;;
  st <- call (CallSetAgcTarget agc_target) (set_agc_target apm st agc_target) ;;
  call (CallSetAgcLevel agc_level) (set_agc_level apm st agc_level).

(** The body of the per-frame [try] block: one frame through the module. *)
Definition ns_frame (apm : APM St) (st : St) (frame_size : nat) (frame : list R)
    : Eff (list R * St) :=
  let payload := int16_tobytes (_float_to_pcm16 frame) in
  '(out_payload, st') <-
     call (CallProcessStream payload) (process_stream apm st payload) ;;
  out_bytes <- match out_payload with
               | PStr s => lift (encode_latin1 s)
               | PBytes b => ret b
               end ;;
  ints <- lift (np_frombuffer_int16 out_bytes) ;;
  let out_frame := pcm16_to_float ints in
  let out_frame :=
    if (length out_frame <? frame_size)%nat
    then np_pad_right out_frame (frame_size - length out_frame)
    else out_frame in
  ret (out_frame, st').

(** The frame loop.  The handler of the per-frame [try] returns from the
    function, so an exception in any frame ends the loop: it is raised here
    and caught once, around the loop, in [_apply_noise_suppression]. *)
Fixpoint ns_loop (apm : APM St) (st : St) (frame_size : nat)
    (frames : list (list R)) (processed : list R) (frames_processed : Z)
    : Eff (list R * Z) :=
  match frames with
  | [] => ret (processed, frames_processed)
  | chunk :: rest =>
      let frame :=
        if (length chunk <? frame_size)%nat
        then np_pad_right chunk (frame_size - length chunk)
        else chunk in
      '(out_frame, st') <- ns_frame apm st frame_size frame ;;
      ns_loop apm st' frame_size rest
              (processed ++ firstn (length chunk) out_frame)
              (frames_processed + 1)%Z
  end.

Definition _apply_noise_suppression (signal : list R) (sample_rate : Z)
    : Eff (list R * dict) :=
  let requested := ns_engine config in
  if (requested =? "off")%string then ret (signal, [("ns_backend", VStr "off")])
  else
  match plugin_fallback "rnnoise" "rnnoise_passthrough" rnnoise requested with
  | inr tag => ret (signal, [("ns_backend", VStr tag)])
  | inl requested =>
  match plugin_fallback "deepfilternet" "deepfilternet_passthrough"
                        deepfilternet requested with
  | inr tag => ret (signal, [("ns_backend", VStr tag)])
  | inl requested =>
  match plugin_fallback "speex" "speex_passthrough" speexdsp requested with
  | inr tag => ret (signal, [("ns_backend", VStr tag)])
  | inl requested =>
  if negb (requested =? "webrtc")%string
  then ret (signal, [("ns_backend", VStr "off")])
  else
  match WebRTCAudioProcessingModule with
  | None => ret (signal, [("ns_backend", VStr "unavailable")])
  | Some apm =>
      let frame_size := Z.max 1 (round_half_even (IZR sample_rate * 0.01)) in
      if (Z.of_nat (length signal) <? frame_size)%Z
      then ret (signal, [("ns_backend", VStr "webrtc_apm");
                         ("ns_frames_processed", VInt 0)])
      else
        let ns_level := _map_ns_level in
        let '(agc_target, agc_level) := _map_agc_params in
        started <-
          try_except
            (st <- apm_init apm sample_rate ns_level agc_target agc_level ;;
             ret (inl st))
            (fun exc =>
               ret (inr (signal,
                         [("ns_backend", VStr "error");
                          ("ns_error",
                           VStr ("init_failed: " ++ str_of_exc exc)%string)]))) ;;
        match started with
        | inr early => ret early
        | inl st =>
            try_except
              ('(processed, frames_processed) <-
                 ns_loop apm st (Z.to_nat frame_size)
                         (frames (Z.to_nat frame_size) signal) [] 0%Z ;;
               ret (processed,
                    [("ns_backend", VStr "webrtc_apm");
                     ("ns_frames_processed", VInt frames_processed);
                     ("ns_level", VInt ns_level);
                     ("agc_target", VInt agc_target);
                     ("agc_level", VInt agc_level)]))
              (fun exc =>
                 ret (signal,
                      [("ns_backend", VStr "error");
                       ("ns_error",
                        VStr ("process_failed: " ++ str_of_exc exc)%string)]))
        end
  end
  end end end.

(** ** Loudness normalisation *)

Definition _apply_rms_target (signal : list R) : list R * dict :=
  let target_db :=
    if (mode config =? "fast_dsp")%string then -24
    else if (mode config =? "high_quality")%string then -22
    else if (mode config =? "custom")%string then -24
    else -24 in
  let measured := _estimate_rms_dbfs signal in
  let gain_db := _clamp (target_db - measured) 0 (max_gain_db (targets config)) in
  let gain_linear := Rpower 10 (gain_db / 20) in
  let out := map (fun x => x * gain_linear) signal in
  (out,
   [("loudness_backend", VStr "rms_target");
    ("applied_gain_db", VFloat (py_round gain_db 2));
    ("target_rms_dbfs", VFloat (py_round target_db 2))]).

Definition _apply_lufs_normalization (signal : list R) (sample_rate : Z)
    (speech_mask : option (list bool)) : list R * dict :=
  match pyln with
  | None =>
      let '(fallback, fallback_stats) := _apply_rms_target signal in
      (fallback, dict_set fallback_stats "lufs_backend" (VStr "fallback_rms"))
  | Some meter =>
      let measure :=
        match speech_mask with
        | Some m =>
            if (length m =? length signal)%nat && existsb (fun b => b) m
            then np_select signal m else signal
        | None => signal
        end in
      if (Z.of_nat (length measure) <? Z.max 256 (sample_rate / 10))%Z
      then
        let '(fallback, fallback_stats) := _apply_rms_target signal in
        (fallback,
         dict_set fallback_stats "lufs_backend" (VStr "fallback_rms_short_input"))
      else
        match integrated_loudness meter sample_rate measure with
        | Raise _ =>
            let '(fallback, fallback_stats) := _apply_rms_target signal in
            (fallback,
             dict_set fallback_stats "lufs_backend" (VStr "fallback_rms_error"))
        | Ok measured_lufs =>
            let target := lufs_target (targets config) in
            let gain_db :=
              _clamp (target - measured_lufs) (-12) (max_gain_db (targets config)) in
            let gain_linear := Rpower 10 (gain_db / 20) in
            let out := map (fun x => x * gain_linear) signal in
            (out,
             [("lufs_backend", VStr "pyloudnorm");
              ("speech_lufs", VFloat (py_round measured_lufs 2));
              ("target_lufs", VFloat (py_round target 2));
              ("applied_gain_db", VFloat (py_round gain_db 2))])
        end
  end.

(** [out[~speech_mask] = signal[~speech_mask]]. *)
Fixpoint restore_non_speech (out signal : list R) (speech_mask : list bool)
    : list R :=
  match out, signal, speech_mask with
  | o :: out', s :: signal', m :: mask' =>
      (if m then o else s) :: restore_non_speech out' signal' mask'
  | _, _, _ => out
  end.

(** The gain the first loop of [_apply_dynaudnorm_like] asks for one frame. *)
Definition dyn_frame_gain (gate_db max_gain_linear peak_target : R)
    (frame : list R) : R :=
  let rms_db := _estimate_rms_dbfs frame in
  let peak := match np_abs frame with
              | [] => 0
              | x :: t => fold_left Rmax t x
              end in
  if Rltb rms_db gate_db then 1
  else _clamp (peak_target / Rmax peak 1e-5) 1 max_gain_linear.

Definition _apply_dynaudnorm_like (signal : list R) (sample_rate : Z)
    (speech_mask : option (list bool)) : list R * dict :=
  let '(frame_len_ms, smooth_window) :=
    if (mode config =? "high_quality")%string
    then (500, 31)%Z else (250, 13)%Z in
  let frame_len :=
    Z.max 1 (round_half_even (IZR sample_rate * (IZR frame_len_ms / 1000))) in
  let max_gain := Rmin (max_gain_db (targets config)) 10 in
  let max_gain_linear := Rpower 10 (max_gain / 20) in
  let peak_target := 0.95 in
  let noise_db := _estimate_noise_floor_db signal in
  let gate_db := noise_db + 8 in
  let chunks := frames (Z.to_nat frame_len) signal in
  let frame_gains :=
    map (dyn_frame_gain gate_db max_gain_linear peak_target) chunks in
  match frame_gains with
  | [] =>
      (signal,
       [("loudness_backend", VStr "dynaudnorm_like");
        ("applied_gain_db", VFloat 0);
        ("noise_gate_db", VFloat (py_round gate_db 2))])
  | _ =>
      let smoothed := _smooth_curve frame_gains smooth_window in
      let out :=
        concat (map (fun fg => map (fun x => x * snd fg) (fst fg))
                    (combine chunks smoothed)) in
      let out :=
        match speech_mask with
        | Some m =>
            if (length m =? length out)%nat
            then restore_non_speech out signal m else out
        | None => out
        end in
      let applied_gain_db := 20 * log10 (Rmax (np_mean smoothed) 1e-7) in
      (out,
       [("loudness_backend", VStr "dynaudnorm_like");
        ("applied_gain_db", VFloat (py_round applied_gain_db 2));
        ("noise_gate_db", VFloat (py_round gate_db 2));
        ("dyn_peak_target", VFloat peak_target);
        ("dyn_max_gain_db", VFloat max_gain);
        ("dyn_frame_len_ms", VInt frame_len_ms);
        ("dyn_gauss_window", VInt smooth_window)])
  end.

Definition _apply_loudness_stage (signal : list R) (sample_rate : Z)
    (speech_mask : option (list bool)) : list R * dict :=
  let strategy := loudness_strategy config in
  if (strategy =? "lufs")%string
  then _apply_lufs_normalization signal sample_rate speech_mask
  else if (strategy =? "dynaudnorm")%string
  then _apply_dynaudnorm_like signal sample_rate speech_mask
  else _apply_rms_target signal.

(** ** Dynamics: upward compressor and limiter *)

(** The sample loop of the compressor: for each sample, the pair
    [(out[i], gain_trace[i])]. *)
Fixpoint compressor_loop (attack release threshold ratio max_gain env : R)
    (signal : list R) : list (R * R) :=
  match signal with
  | [] => []
  | sample :: rest =>
      let level := Rabs sample in
      let coef := if Rltb env level then attack else release in
      let env := coef * env + (1 - coef) * level in
      let gain :=
        if Rltb env threshold
        then Rpower (threshold / Rmax env 1e-5) (1 - 1 / ratio)
        else 1 in
      let gain := _clamp gain 1 max_gain in
      (sample * gain, gain)
        :: compressor_loop attack release threshold ratio max_gain env rest
  end.

(** The loop of [_apply_upward_compressor] with the constants of the
    function. *)
Definition upward_compressor_run (signal : list R) : list (R * R) :=
  let threshold := 0.125 in
  let ratio := 2 in
  let attack_ms := 20 in
  let release_ms := 250 in
  let sample_rate := 16000 in
  let attack := exp (- 1 / Rmax 1 ((attack_ms / 1000) * sample_rate)) in
  let release := exp (- 1 / Rmax 1 ((release_ms / 1000) * sample_rate)) in
  let max_gain := Rpower 10 (Rmin (max_gain_db (targets config)) 18 / 20) in
  compressor_loop attack release threshold ratio max_gain 0 signal.

Definition _apply_upward_compressor (signal : list R) : result (list R * dict) :=
  let run := upward_compressor_run signal in
  let out := map fst run in
  let gain_trace := map snd run in
  let avg_gain := np_mean gain_trace in
  match np_max gain_trace with
  | Raise e => Raise e
  | Ok peak_gain =>
      Ok (out,
          [("upward_comp_avg_gain_db",
            VFloat (py_round (20 * log10 (Rmax avg_gain 1e-7)) 2));
           ("upward_comp_peak_gain_db",
            VFloat (py_round (20 * log10 (Rmax peak_gain 1e-7)) 2));
           ("upward_comp_threshold", VFloat 0.125);
           ("upward_comp_ratio", VFloat 2)])
  end.

(** The sample loop of the limiter: for each sample, [(out[i], gains[i])],
    before the final clip. *)
Fixpoint limiter_loop (attack release threshold gain : R) (signal : list R)
    : list (R * R) :=
  match signal with
  | [] => []
  | sample :: rest =>
      let abs_sample := Rabs sample in
      let target_gain :=
        if Rleb abs_sample threshold then 1
        else threshold / Rmax abs_sample 1e-6 in
      let coef := if Rltb target_gain gain then attack else release in
      let gain := coef * gain + (1 - coef) * target_gain in
      (sample * gain, gain) :: limiter_loop attack release threshold gain rest
  end.

(** The threshold and the smoothing coefficients the limiter works with. *)
Definition limiter_threshold (threshold_override : option R) : R :=
  _clamp (match threshold_override with
          | Some t => t
          | None => threshold (limiter config)
          end) 0.6 0.999.

Definition limiter_attack : R :=
  let attack_ms := Rmax 0.1 (attack_ms (limiter config)) in
  exp (- 1 / Rmax 1 ((attack_ms / 1000) * 16000)).

Definition limiter_release : R :=
  let release_ms := Rmax 1 (release_ms (limiter config)) in
  exp (- 1 / Rmax 1 ((release_ms / 1000) * 16000)).

Definition _apply_limiter (signal : list R) (force_enable : bool)
    (threshold_override : option R) : result (list R * dict) :=
  let limiter_cfg := limiter config in
  let enabled := force_enable || enabled limiter_cfg in
  if negb enabled
  then Ok (signal, [("limiter_enabled", VBool false);
                    ("limiter_reduction_db", VFloat 0)])
  else
    let threshold := limiter_threshold threshold_override in
    let attack_ms := Rmax 0.1 (attack_ms limiter_cfg) in
    let release_ms := Rmax 1 (release_ms limiter_cfg) in
    let run := limiter_loop limiter_attack limiter_release threshold 1 signal in
    let gains := map snd run in
    let out := np_clip (map fst run) (-1) 1 in
    match np_min gains with
    | Raise e => Raise e
    | Ok min_gain =>
        let reduction_db := - 20 * log10 (Rmax min_gain 1e-7) in
        Ok (out,
            [("limiter_enabled", VBool true);
             ("limiter_threshold", VFloat (py_round threshold 4));
             ("limiter_reduction_db", VFloat (py_round reduction_db 2));
             ("limiter_attack_ms", VFloat (py_round attack_ms 2));
             ("limiter_release_ms", VFloat (py_round release_ms 2))])
    end.

Definition _apply_dynamics_stage (signal : list R) : result (list R * dict) :=
  if (dynamics config =? "off")%string
  then Ok (signal, [("dynamics_backend", VStr "off")])
  else
    match _apply_upward_compressor signal with
    | Raise e => Raise e
    | Ok (compressed, comp_stats) =>
        if (dynamics config =? "upward_comp")%string
        then Ok (compressed,
                 dict_set comp_stats "dynamics_backend" (VStr "upward_comp"))
        else
          match _apply_limiter compressed true
                  (Some (Rmin (threshold (limiter config)) 0.99)) with
          | Raise e => Raise e
          | Ok (limited, limiter_stats) =>
              let merged := comp_stats in
              let merged :=
                dict_update merged
                  (map (fun kv => (("dyn_" ++ fst kv)%string, snd kv))
                       limiter_stats) in
              let merged := dict_set merged "dynamics_backend" (VStr "comp_limiter") in
              Ok (limited, merged)
          end
    end.

(** ** The pipeline *)

Definition process (signal : list R) (sample_rate : Z)
    (speech_mask : option (list bool)) : Eff EnhancementV2Result :=
  let stats := [("v2_mode", VStr (mode config));
                ("ns_engine_requested", VStr (ns_engine config));
                ("loudness_strategy_requested", VStr (loudness_strategy config));
                ("dynamics_requested", VStr (dynamics config))] in
  if (length signal =? 0)%nat
  then
    let stats := dict_set stats "v2_empty_input" (VBool true) in
    ret {| signal := signal; stats := stats |}
  else
    let work := np_clip signal (-1) 1 in
    let '(work, dc_stats) := _apply_dc_removal work in
    let stats := dict_update stats dc_stats in
    '(work, hpf_stats) <-
       lift (_apply_high_pass_filter work (hpf_cutoff_hz config) sample_rate) ;;
    let stats := dict_update stats hpf_stats in
    '(work, ns_stats) <- _apply_noise_suppression work sample_rate ;;
    let stats := dict_update stats ns_stats in
    let noise_estimate :=
      match speech_mask with
      | Some m =>
          if (length m =? length work)%nat && existsb negb m
          then _estimate_rms_dbfs (np_select work (map negb m))
          else _estimate_noise_floor_db work
      | None => _estimate_noise_floor_db work
      end in
    let stats := dict_set stats "noise_estimate_db" (VFloat (py_round noise_estimate 2)) in
    let '(work, loudness_stats) := _apply_loudness_stage work sample_rate speech_mask in
    let stats := dict_update stats loudness_stats in
    '(work, dynamics_stats) <- lift (_apply_dynamics_stage work) ;;
    let stats := dict_update stats dynamics_stats in
    '(work, limiter_stats) <- lift (_apply_limiter work false None) ;;
    let stats := dict_update stats limiter_stats in
    let stats := dict_set stats "output_rms_dbfs"
                          (VFloat (py_round (_estimate_rms_dbfs work) 2)) in
    let stats := dict_set stats "output_peak_dbfs"
                          (VFloat (py_round (_estimate_peak_dbfs work) 2)) in
    let clipping :=
      np_mean (map (fun x => if Rleb 0.999 (Rabs x) then 1 else 0) work) in
    let stats := dict_set stats "clipping_sample_ratio"
                          (VFloat (py_round clipping 6)) in
    ret {| signal := work; stats := stats |}.

End Engine.

(* ================================================================== *)
(** * PCM16 conversion on IEEE binary32 samples *)
(* ================================================================== *)

(**     [clipped * 32767.0] is a float32 product, rounded to nearest-even by the
    hardware before [np.round] sees it; whether a sample lands on a tie
    [n + 0.5] depends on that rounding.  The conversion is therefore modelled
    here on binary32 values ([spec_float] at precision 24), with the
    standard library's [SFmul]. *)

Module F32.

Definition prec : Z := 24.
Definition emax : Z := 128.

(** An integer of magnitude below [2 ** 24], as a float32. *)
Definition of_Z (k : Z) : spec_float := binary_normalize prec emax k 0 false.

Definition one : spec_float := S754_finite false 8388608 (-23).
Definition minus_one : spec_float := S754_finite true 8388608 (-23).

(** [np.clip(x, -1.0, 1.0)] on one sample; NaN stays NaN. *)
Definition np_clip1 (x : spec_float) : spec_float :=
  match x with
  | S754_nan => S754_nan
  | _ =>
      let y := if SFltb x minus_one then minus_one else x in
      if SFltb one y then one else y
  end.

(** The integer nearest to [m * 2 ** e], a tie [q + 1/2] going up when
    [tie_up q]. *)
Definition round_dyadic (tie_up : Z -> bool) (m : positive) (e : Z) : Z :=
  match e with
  | Z0 => Zpos m
  | Zpos p => (Zpos m * 2 ^ Zpos p)%Z
  | Zneg p =>
      let d := (2 ^ Zpos p)%Z in
      let q := (Zpos m / d)%Z in
      let r := (Zpos m mod d)%Z in
      match (2 * r ?= d)%Z with
      | Lt => q
      | Gt => (q + 1)%Z
      | Eq => if tie_up q then (q + 1)%Z else q
      end
  end.

(** [np.round(x)] followed by [.astype(np.int16)]: round to nearest, ties to
    even.  Infinities and NaN have no integer value ([None]). *)
Definition np_round_int (x : spec_float) : option Z :=
  match x with
  | S754_zero _ => Some 0%Z
  | S754_finite s m e =>
      let n := round_dyadic Z.odd m e in
      Some (astype_int16 (if s then - n else n))
  | _ => None
  end.


(** [_float_to_pcm16] on one float32 sample. *)
Definition _float_to_pcm16 (x : spec_float) : option Z :=
  let clipped := np_clip1 x in
  np_round_int (SFmul prec emax clipped (of_Z 32767)).


(** [np.int16(k).astype(np.float32) / 32768.0]. *)
Definition pcm16_to_float (k : Z) : spec_float :=
  SFdiv prec emax (of_Z k) (of_Z 32768).

(** The real number a finite float32 stands for. *)
Definition to_R (x : spec_float) : R :=
  match x with
  | S754_finite s m e => IZR (if s then Zneg m else Zpos m) * powerRZ 2 e
  | _ => 0
  end.


Fixpoint z_range (lo : Z) (n : nat) : list Z :=
  match n with
  | O => []
  | S n' => lo :: z_range (lo + 1) n'
  end.

(** Every int16 value. *)
Definition int16_values : list Z := z_range (-32768) (Z.to_nat 65536).

(** Two float32 samples: [0x1.40028p-14], about 7.63e-5, and its negation. *)
Definition tie_sample : spec_float := S754_finite false 10486080 (-37).
Definition tie_sample_neg : spec_float := S754_finite true 10486080 (-37).


End F32.

(* ================================================================== *)
(** * WAV loading (python/audio_io.py) *)
(* ================================================================== *)

(** [str(n)] of a Python int, as in an f-string. *)
Definition str_of_int (n : Z) : string := NilZero.string_of_int (Z.to_int n).

Module audio_io.

Record WavMetadata : Type := {
  channels : Z;
  sample_width : Z;
  sample_rate : Z;
  frame_count : Z
}.

(** An open [wave.Wave_read] object: the header fields, and [readframes],
    which can raise on a damaged file. *)
Record Wave_read : Type := {
  getnchannels : Z;
  getsampwidth : Z;
  getframerate : Z;
  getnframes : Z;
  readframes : Z -> result (list byte)
}.

Section Files.

(** The file system and the [wave] module, as the loader sees them:
    [str(Path(path).expanduser().resolve())], [Path.exists], and
    [wave.open(path, "rb")], which raises on a file that is not a WAV
    file. *)
Variable resolve : string -> result string.
Variable exists_ : string -> bool.
Variable wave_open : string -> result Wave_read.

Definition _read_wav_bytes (path : string) (read_frames : bool)
    : result (WavMetadata * list byte) :=
  match resolve path with
  | Raise e => Raise e
  | Ok wav_path =>
      if negb (exists_ wav_path)
      then Raise (Exc "FileNotFoundError"
                      ("Audio file not found: " ++ wav_path))
      else
        match wave_open wav_path with
        | Raise e => Raise e
        | Ok wf =>
            let channels := getnchannels wf in
            let sample_width := getsampwidth wf in
            let sample_rate := getframerate wf in
            let frame_count := getnframes wf in
            match (if read_frames then readframes wf frame_count
                   else Ok []) with
            | Raise e => Raise e
            | Ok raw =>
                Ok ({| channels := channels; sample_width := sample_width;
                       sample_rate := sample_rate;
                       frame_count := frame_count |},
                    raw)
            end
        end
  end.

Definition load_wav_pcm16_mono (path : string) : result (list R) :=
  match _read_wav_bytes path true with
  | Raise e => Raise e
  | Ok (metadata, raw) =>
      if negb (channels metadata =? 1)%Z
      then Raise (Exc "WavFormatError"
                      ("Unsupported WAV channel count: "
                       ++ str_of_int (channels metadata)
                       ++ ". Expected mono (1)."))
      else if negb (sample_width metadata =? 2)%Z
      then Raise (Exc "WavFormatError"
                      ("Unsupported WAV sample width: "
                       ++ str_of_int (sample_width metadata)
                       ++ ". Expected 16-bit PCM (2 bytes)."))
      else if negb (sample_rate metadata =? 16000)%Z
      then Raise (Exc "WavFormatError"
                      ("Unsupported WAV sample rate: "
                       ++ str_of_int (sample_rate metadata)
                       ++ ". Expected 16000 Hz."))
      else
        match np_frombuffer_int16 raw with
        | Raise e => Raise e
        | Ok ints =>
            let waveform := pcm16_to_float ints in
            Ok (np_clip waveform (-1) 1)
        end
  end.

Definition read_wav_metadata (path : string) : result WavMetadata :=
  match _read_wav_bytes path false with
  | Raise e => Raise e
  | Ok (metadata, _) => Ok metadata
  end.

End Files.

(** A file system with one file, [/tmp/a.wav], opened by [wave.open] as the
    given object. *)
Definition one_file_resolve (path : string) : result string := Ok path.

Definition one_file_exists (path : string) : bool :=
  (path =? "/tmp/a.wav")%string.

Definition one_file_open (wf : Wave_read) (path : string) : result Wave_read :=
  Ok wf.

(** Two frames of 16 kHz mono PCM16, and the same data declared stereo at
    8 kHz. *)
Definition mono16k : Wave_read :=
  {| getnchannels := 1; getsampwidth := 2; getframerate := 16000;
     getnframes := 2;
     readframes := fun _ => Ok [x00; x40; x00; x80] |}.

Definition stereo8k : Wave_read :=
  {| getnchannels := 2; getsampwidth := 2; getframerate := 8000;
     getnframes := 1;
     readframes := fun _ => Ok [x00; x40; x00; x80] |}.

End audio_io.

(* ================================================================== *)
(** * Native messaging host (scripts/chromium_native_host.py) *)
(* ================================================================== *)

Module chromium_native_host.

(** A decoded JSON value; a JSON object is a Python [dict]. *)
#[warnings="-register-all"]
Inductive Json : Type :=
| JNull
| JBool (b : bool)
| JInt (n : Z)
| JFloat (x : R)
| JString (s : string)
| JArray (items : list Json)
| JObject (fields : list (string * Json)).

(** [message.get(key)]. *)
Fixpoint get (fields : list (string * Json)) (key : string) : option Json :=
  match fields with
  | [] => None
  | (k, v) :: rest => if (k =? key)%string then Some v else get rest key
  end.

(** [sub in s]. *)
Fixpoint contains (sub s : string) : bool :=
  String.prefix sub s
  || match s with
     | EmptyString => false
     | String _ rest => contains sub rest
     end.

(** [struct.pack("<I", n)]: four bytes, least significant first. *)
Definition struct_pack_I (n : Z) : result (list byte) :=
  if (0 <=? n)%Z && (n <? 4294967296)%Z
  then Ok [byte_of_Z n; byte_of_Z (n / 256); byte_of_Z (n / 65536);
           byte_of_Z (n / 16777216)]
  else Raise (Exc "struct.error" "argument out of range").

(** [struct.unpack("<I", b)[0]] on a buffer of four bytes. *)
Definition struct_unpack_I (b : list byte) : Z :=
  match b with
  | [b0; b1; b2; b3] =>
      (Z_of_byte b0 + 256 * Z_of_byte b1 + 65536 * Z_of_byte b2
       + 16777216 * Z_of_byte b3)%Z
  | _ => 0%Z
  end.

(** [stream.read(n)] on a stream whose remaining bytes are [stdin]: up to
    [n] bytes, fewer only at the end of the stream; and what is left. *)
Definition read (n : Z) (stdin : list byte) : list byte * list byte :=
  (firstn (Z.to_nat n) stdin, skipn (Z.to_nat n) stdin).

Definition DEFAULT_BUNDLE_BY_BROWSER : list (string * string) :=
  [("chrome", "com.google.Chrome");
   ("edge", "com.microsoft.edgemac");
   ("arc", "company.thebrowser.Browser");
   ("safari", "com.apple.Safari")].

(** [d.get(key, "")] on a [dict] of strings. *)
Fixpoint get_str (d : list (string * string)) (key : string) : string :=
  match d with
  | [] => ""
  | (k, v) :: rest => if (k =? key)%string then v else get_str rest key
  end.

Section Host.

(** The library functions the host relies on: [json.loads(b.decode("utf-8"))]
    and [json.dumps(m, ensure_ascii=False).encode("utf-8")], [str.strip],
    [str.lower], and [urllib.parse.urlparse(s).hostname], which raises
    [ValueError] on a malformed address. *)
Variable json_loads : list byte -> result Json.
Variable json_dumps : Json -> result (list byte).
Variable strip : string -> string.
Variable lower : string -> string.
Variable hostname : string -> result (option string).

(** [_read_message], with the bytes left on standard input. *)
Definition _read_message (stdin : list byte)
    : option (list (string * Json)) * list byte :=
  let '(raw_length, stdin) := read 4 stdin in
  match raw_length with
  | [] => (None, stdin)
  | _ =>
      if negb (length raw_length =? 4)%nat then (None, stdin)
      else
        let msg_length := struct_unpack_I raw_length in
        let '(raw_payload, stdin) := read msg_length stdin in
        if negb (Z.of_nat (length raw_payload) =? msg_length)%Z
        then (None, stdin)
        else
          match json_loads raw_payload with
          | Raise _ => (None, stdin)
          | Ok (JObject payload) => (Some payload, stdin)
          | Ok _ => (None, stdin)
          end
  end.

(** [_send_message]: what standard output holds afterwards. *)
Definition _send_message (message : Json) (stdout : list byte)
    : result (list byte) :=
  match json_dumps message with
  | Raise e => Raise e
  | Ok data =>
      match struct_pack_I (Z.of_nat (length data)) with
      | Raise e => Raise e
      | Ok header => Ok (stdout ++ header ++ data)
      end
  end.

Definition host_of (h : option string) : string :=
  lower (strip (match h with Some s => s | None => "" end)).

Definition _extract_domain (value : string) : result (option string) :=
  let candidate := strip value in
  if (candidate =? "")%string then Ok None
  else
    match hostname candidate with
    | Raise e => Raise e
    | Ok parsed =>
        let host := host_of parsed in
        if negb (host =? "")%string then Ok (Some host)
        else if negb (contains "://" candidate)
        then
          match hostname ("https://" ++ candidate) with
          | Raise e => Raise e
          | Ok parsed =>
              let host := host_of parsed in
              if negb (host =? "")%string then Ok (Some host) else Ok None
          end
        else Ok None
    end.

(** [if domain is None and isinstance(message.get(key), str):
        domain = _extract_domain(message[key])]. *)
Definition domain_from (message : list (string * Json)) (key : string)
    (domain : option string) : result (option string) :=
  match domain with
  | Some _ => Ok domain
  | None =>
      match get message key with
      | Some (JString s) => _extract_domain s
      | _ => Ok None
      end
  end.

(** One round of the loop over [("bundleId", "bundle_id")]: the stripped
    value if the key holds a string that is not blank. *)
Definition bundle_from (message : list (string * Json)) (key : string)
    : option string :=
  match get message key with
  | Some (JString value) =>
      if negb (strip value =? "")%string then Some (strip value) else None
  | _ => None
  end.

Definition _normalize_payload (message : list (string * Json))
    : result (option (string * string)) :=
  match domain_from message "domain" None with
  | Raise e => Raise e
  | Ok domain =>
  match domain_from message "active_domain" domain with
  | Raise e => Raise e
  | Ok domain =>
  match domain_from message "url" domain with
  | Raise e => Raise e
  | Ok domain =>
  match domain_from message "active_url" domain with
  | Raise e => Raise e
  | Ok None => Ok None
  | Ok (Some domain) =>
      let bundle_id :=
        match bundle_from message "bundleId" with
        | Some b => b
        | None =>
            match bundle_from message "bundle_id" with
            | Some b => b
            | None => ""
            end
        end in
      let bundle_id :=
        if (bundle_id =? "")%string
        then
          match get message "browser" with
          | Some (JString browser) =>
              get_str DEFAULT_BUNDLE_BY_BROWSER (lower (strip browser))
          | _ => bundle_id
          end
        else bundle_id in
      let bundle_id :=
        if (bundle_id =? "")%string
        then get_str DEFAULT_BUNDLE_BY_BROWSER "chrome"
        else bundle_id in
      Ok (Some (bundle_id, domain))
  end end end end.

End Host.

(** A frame on the wire: the length of the payload in four bytes, then the
    payload. *)
Definition frame (data : list byte) : list byte :=
  match struct_pack_I (Z.of_nat (length data)) with
  | Ok header => header ++ data
  | Raise _ => []
  end.

(** Library stand-ins for the examples: a codec that knows one message, the
    identity for [strip] and [lower], and a parser that finds a host only
    after a scheme. *)
Definition sample_payload : list byte := [x7b; x7d].

Definition sample_loads (b : list byte) : result Json :=
  match b with
  | [x7b; x7d] => Ok (JObject [])
  | _ => Raise (Exc "JSONDecodeError" "Expecting value")
  end.

Definition sample_dumps (m : Json) : result (list byte) := Ok sample_payload.

Definition sample_hostname (s : string) : result (option string) :=
  if String.prefix "https://" s
  then Ok (Some (substring 8 (String.length s - 8) s))
  else Ok None.

End chromium_native_host.

(* ================================================================== *)
(** * Choosing the ASR input (python/inference_pipeline.py) *)
(* ================================================================== *)

Module inference_pipeline.

(** What is handed to [transcribe]: the path of the audio file, or the
    decoded waveform. *)
Inductive TranscribeInput : Type :=
| InputPath (audio_path : string)
| InputWaveform (waveform : list R).

(** [except WavFormatError]: the class has no subclass. *)
Definition is_WavFormatError (e : PyExc) : bool :=
  match e with Exc cls _ => (cls =? "WavFormatError")%string end.

(** [if ffmpeg_path:] on a value that is [None] or a string. *)
Definition truthy (s : option string) : bool :=
  match s with
  | Some s => negb (s =? "")%string
  | None => false
  end.

Section Prepare.

(** The file system and [wave] module of [audio_io]; the value
    [_resolve_ffmpeg_path()] returns; [Path(p).suffix.lower()]; and the
    answer of [_transcribe_supports_ndarray(transcribe_func)]. *)
Variable resolve : string -> result string.
Variable exists_ : string -> bool.
Variable wave_open : string -> result audio_io.Wave_read.
Variable _resolve_ffmpeg_path : option string.
Variable suffix_lower : string -> string.
Variable _transcribe_supports_ndarray : bool.

Definition _prepare_transcribe_input (audio_path : string)
    : result (TranscribeInput * bool) :=
  let ffmpeg_path := _resolve_ffmpeg_path in
  let is_wav := (suffix_lower audio_path =? ".wav")%string in
  if is_wav
  then
    match audio_io.load_wav_pcm16_mono resolve exists_ wave_open audio_path with
    | Raise exc =>
        if is_WavFormatError exc
        then
          if truthy ffmpeg_path then Ok (InputPath audio_path, true)
          else Raise (Exc "RuntimeError"
                 ("WAV format is not 16kHz mono PCM16 and ffmpeg is unavailable. "
                  ++ "Please re-record as WAV or install ffmpeg."))
        else Raise exc
    | Ok waveform =>
        if _transcribe_supports_ndarray then Ok (InputWaveform waveform, false)
        else if truthy ffmpeg_path then Ok (InputPath audio_path, true)
        else Raise (Exc "RuntimeError"
               ("Current mlx-whisper does not accept ndarray input "
                ++ "and ffmpeg is unavailable."))
    end
  else
    if truthy ffmpeg_path then Ok (InputPath audio_path, true)
    else Raise (Exc "RuntimeError"
           ("Non-WAV input requires ffmpeg. "
            ++ "Please install ffmpeg or provide 16kHz mono PCM16 WAV.")).

End Prepare.

End inference_pipeline.

(* ================================================================== *)
(** * Vocabulary of the properties *)
(* ================================================================== *)

(** A sample within full scale. *)
Definition in_unit_range (x : R) : Prop := -1 <= x <= 1.

(** The report for an empty input: the four request entries written before
    the size check, then the flag. *)
Definition empty_input_stats (config : EnhancementV2Config) : dict :=
  [("v2_mode", VStr (mode config));
   ("ns_engine_requested", VStr (ns_engine config));
   ("loudness_strategy_requested", VStr (loudness_strategy config));
   ("dynamics_requested", VStr (dynamics config));
   ("v2_empty_input", VBool true)].

(** The requested engine ends at the WebRTC path: asked for directly, or by
    fallback from a plugin that is not installed. *)
Definition webrtc_selected (rn df sp : bool) (requested : string) : Prop :=
  requested = "webrtc"
  \/ (requested = "rnnoise" /\ rn = false)
  \/ (requested = "deepfilternet" /\ df = false)
  \/ (requested = "speex" /\ sp = false).

(** [frame_size = max(1, int(round(sample_rate * 0.01)))]. *)
Definition ns_frame_size (sample_rate : Z) : Z :=
  Z.max 1 (round_half_even (IZR sample_rate * 0.01)).

(** A computation extends the log, and an exception recorded in the part it
    adds is the exception it ends in, raised by a call of kind [P]. *)
Definition records_failures {A : Type} (P : ApmCall -> Prop) (m : Eff A) : Prop :=
  forall log0 r log,
    m log0 = (r, log) ->
    exists evs,
      log = log0 ++ evs
      /\ forall c e, In (c, Some e) evs -> r = Raise e /\ P c.

(** The calls of the first [try] block, and those of the frame loop. *)
Definition is_init_call (c : ApmCall) : Prop :=
  match c with CallProcessStream _ => False | _ => True end.

Definition is_frame_call (c : ApmCall) : Prop :=
  match c with CallProcessStream _ => True | _ => False end.

(** The prefix of the [ns_error] text, by the [try] block the failing call
    sits in. *)
Definition failure_prefix (c : ApmCall) : string :=
  match c with
  | CallProcessStream _ => "process_failed: "
  | _ => "init_failed: "
  end.

(** The report of a failed stage. *)
Definition ns_error_stats (c : ApmCall) (e : PyExc) : dict :=
  [("ns_backend", VStr "error");
   ("ns_error", VStr (failure_prefix c ++ str_of_exc e)%string)].

(** The kernel of [_smooth_curve], before and after normalisation, and half
    its length. *)
Definition smooth_half (window : Z) : Z := (Z.max 3 (Z.lor window 1) / 2)%Z.

Definition smooth_kernel_raw (window : Z) : list R :=
  let length := Z.max 3 (Z.lor window 1) in
  let sigma := Rmax 1 (IZR length / 6) in
  let half := (length / 2)%Z in
  map (fun x => exp (- (x ^ 2) / (2 * sigma * sigma)))
      (np_arange (- half) (half + 1)).

Definition smooth_kernel (window : Z) : list R :=
  map (fun k => k / np_sum (smooth_kernel_raw window)) (smooth_kernel_raw window).

(** The gain the limiter steers towards at one sample. *)
Definition limiter_target (thr x : R) : R :=
  if Rleb (Rabs x) thr then 1 else thr / Rmax (Rabs x) 1e-6.

(** [np.max(np.abs(signal))], 0 for an empty array. *)
Definition peak_of (x : list R) : R :=
  match np_abs x with
  | [] => 0
  | a :: t => fold_left Rmax t a
  end.



(** The bytes submitted for one slice of the signal: the slice, zero-padded
    to the frame size, as PCM16. *)
Definition ns_payload (frame_size : nat) (chunk : list R) : list byte :=
  int16_tobytes
    (_float_to_pcm16 (chunk ++ repeat 0 (frame_size - length chunk))).

(** A sample after a trip through PCM16: clipped, scaled by 32767, rounded,
    and divided by 32768. *)
Definition pcm16_quantise (x : R) : R :=
  IZR (round_half_even (Rmin (Rmax x (-1)) 1 * 32767)) / 32768.


(** The engine names [_apply_noise_suppression] knows. *)
Definition ns_engine_names : list string :=
  ["off"; "rnnoise"; "deepfilternet"; "speex"; "webrtc"].

(** What decoding an int16 value and encoding it again gives, in float32:
    the value itself up to magnitude 16368, one step towards zero above
    16416, and in between whichever of the two is even. *)
Definition reencoded (k : Z) : Z :=
  let a := Z.abs k in
  if (a <=? 16368)%Z then k
  else if (a <=? 16416)%Z then (if Z.even k then k else k - Z.sgn k)%Z
  else (k - Z.sgn k)%Z.

(** The samples the loudness meter is given: the speech samples when a mask
    of the length of the signal marks any, the whole signal otherwise. *)
Definition lufs_measure (signal : list R) (speech_mask : option (list bool))
    : list R :=
  match speech_mask with
  | Some m =>
      if (length m =? length signal)%nat && existsb (fun b => b) m
      then np_select signal m else signal
  | None => signal
  end.

(** The result of the RMS strategy, tagged with the reason the LUFS strategy
    gave up. *)
Definition lufs_fallback (config : EnhancementV2Config) (signal : list R)
    (tag : string) : list R * dict :=
  (fst (_apply_rms_target config signal),
   snd (_apply_rms_target config signal) ++ [("lufs_backend", VStr tag)]).


(* ================================================================== *)
(** * Sample configurations and backends *)
(* ================================================================== *)

(** Noise suppression off, loudness by RMS target with no gain allowed,
    dynamics off, high-pass off, limiter off. *)
Definition unlimited_config : EnhancementV2Config :=
  {| mode := "fast_dsp"; ns_engine := "off";
     noise_suppression_level := "moderate"; loudness_strategy := "rms";
     dynamics := "off";
     limiter := {| enabled := false; threshold := 0.98; attack_ms := 5;
                   release_ms := 50 |};
     targets := {| lufs_target := -18; max_gain_db := 0 |};
     vad := default_vad; hpf_cutoff_hz := 0 |}.

(** The default configuration with the limiter at threshold 0.6 and attack
    0.1 ms (both within the ranges the limiter clamps to). *)
Definition hard_limiter_config : EnhancementV2Config :=
  {| mode := "fast_dsp"; ns_engine := "webrtc";
     noise_suppression_level := "moderate"; loudness_strategy := "dynaudnorm";
     dynamics := "upward_comp";
     limiter := {| enabled := true; threshold := 0.6; attack_ms := 0.1;
                   release_ms := 50 |};
     targets := default_targets; vad := default_vad; hpf_cutoff_hz := 80 |}.

(** A module that echoes every frame and raises once [budget] frames have
    gone through; its state is the number of frames it still accepts. *)
Definition flaky_apm (budget : nat) : APM nat :=
  {| apm_new := fun _ _ _ _ => Ok budget;
     set_stream_format := fun st _ _ _ _ => Ok st;
     set_ns_level := fun st _ => Ok st;
     set_agc_target := fun st _ => Ok st;
     set_agc_level := fun st _ => Ok st;
     process_stream := fun st payload =>
       match st with
       | O => Raise (Exc "RuntimeError" "stream closed")
       | S st' => Ok (PBytes payload, st')
       end |}.

(** A module that cannot be configured. *)
Definition unconfigurable_apm : APM unit :=
  {| apm_new := fun _ _ _ _ => Ok tt;
     set_stream_format := fun _ _ _ _ _ =>
       Raise (Exc "ValueError" "unsupported sample rate");
     set_ns_level := fun st _ => Ok st;
     set_agc_target := fun st _ => Ok st;
     set_agc_level := fun st _ => Ok st;
     process_stream := fun st payload => Ok (PBytes payload, st) |}.


(** A module whose [process_stream] returns one byte too many. *)
Definition garbling_apm : APM unit :=
  {| apm_new := fun _ _ _ _ => Ok tt;
     set_stream_format := fun st _ _ _ _ => Ok st;
     set_ns_level := fun st _ => Ok st;
     set_agc_target := fun st _ => Ok st;
     set_agc_level := fun st _ => Ok st;
     process_stream := fun st payload => Ok (PBytes (x00 :: payload), st) |}.



(* ================================================================== *)
(** * Basic facts about the primitives *)
(* ================================================================== *)

Section PrimitiveFacts.

Lemma Rltb_true x y : Rltb x y = true <-> x < y.
Proof. unfold Rltb; destruct (Rlt_dec x y); split; intros; try lra; discriminate. Qed.

Lemma Rltb_false x y : Rltb x y = false <-> y <= x.
Proof. unfold Rltb; destruct (Rlt_dec x y); split; intros; try lra; discriminate. Qed.

Lemma Rleb_true x y : Rleb x y = true <-> x <= y.
Proof. unfold Rleb; destruct (Rle_dec x y); split; intros; try lra; discriminate. Qed.

Lemma Rleb_false x y : Rleb x y = false <-> y < x.
Proof. unfold Rleb; destruct (Rle_dec x y); split; intros; try lra; discriminate. Qed.

Lemma round_half_even_IZR (z : Z) : round_half_even (IZR z) = z.
Proof.
  unfold round_half_even.
  assert (H : Int_part (IZR z) = z).
  { symmetry; apply Int_part_spec; lra. }
  rewrite H.
  destruct (Rlt_dec (IZR z - IZR z) (1 / 2)) as [_ | Hn]; [reflexivity | lra].
Qed.

Lemma Rabs_le_bounds (a b : R) : Rabs a <= b -> - b <= a <= b.
Proof. unfold Rabs; destruct (Rcase_abs a); lra. Qed.

Lemma Int_part_bounds (x : R) : IZR (Int_part x) <= x < IZR (Int_part x) + 1.
Proof. destruct (base_Int_part x); lra. Qed.

(** The rounded value is a nearest integer. *)
Lemma round_half_even_near (x : R) :
  Rabs (IZR (round_half_even x) - x) <= 1 / 2.
Proof.
  unfold round_half_even.
  pose proof (Int_part_bounds x) as [Hlo Hhi].
  destruct (Rlt_dec (x - IZR (Int_part x)) (1 / 2)).
  - apply Rabs_le; lra.
  - destruct (Rlt_dec (1 / 2) (x - IZR (Int_part x))).
    + rewrite plus_IZR; apply Rabs_le; lra.
    + destruct (Z.even (Int_part x)).
      * apply Rabs_le; lra.
      * rewrite plus_IZR; apply Rabs_le; lra.
Qed.

(** On a tie the rounded value is even. *)
Lemma round_half_even_tie (x : R) :
  Rabs (IZR (round_half_even x) - x) = 1 / 2 ->
  Z.even (round_half_even x) = true.
Proof.
  unfold round_half_even.
  pose proof (Int_part_bounds x) as [Hlo Hhi].
  destruct (Rlt_dec (x - IZR (Int_part x)) (1 / 2)) as [Hl | Hl].
  - intros H. rewrite Rabs_left1 in H by lra. lra.
  - destruct (Rlt_dec (1 / 2) (x - IZR (Int_part x))) as [Hg | Hg].
    + rewrite plus_IZR. intros H. rewrite Rabs_right in H by lra. lra.
    + intros _. destruct (Z.even (Int_part x)) eqn:E; [exact E |].
      rewrite Z.even_add, E. reflexivity.
Qed.

Lemma round_half_even_monotone (x y : R) :
  x <= y -> (round_half_even x <= round_half_even y)%Z.
Proof.
  intros Hxy.
  destruct (Z_le_gt_dec (round_half_even x) (round_half_even y)) as [H | H];
    [exact H | exfalso].
  pose proof (round_half_even_near x) as Hx.
  pose proof (round_half_even_near y) as Hy.
  apply Rabs_le_bounds in Hx. apply Rabs_le_bounds in Hy.
  assert (H1 : (round_half_even y + 1 <= round_half_even x)%Z) by lia.
  apply IZR_le in H1. rewrite plus_IZR in H1.
  assert (Hxe : x = y) by lra.
  subst y. lia.
Qed.

(** Nearest with ties to even determines the integer. *)
Lemma round_half_even_unique (n : Z) (x : R) :
  Rabs (IZR n - x) <= 1 / 2 ->
  (Rabs (IZR n - x) = 1 / 2 -> Z.even n = true) ->
  n = round_half_even x.
Proof.
  intros Hnear Htie.
  pose proof (round_half_even_near x) as Hnear'.
  pose proof (round_half_even_tie x) as Htie'.
  set (r := round_half_even x) in *.
  pose proof (Rabs_le_bounds _ _ Hnear) as B.
  pose proof (Rabs_le_bounds _ _ Hnear') as B'.
  destruct (Z.lt_trichotomy n r) as [Hlt | [Heq | Hgt]]; [| exact Heq |];
    exfalso.
  - assert (H1 : (n + 1 <= r)%Z) by lia.
    apply IZR_le in H1. rewrite plus_IZR in H1.
    assert (Hn : IZR n - x = - (1 / 2)) by lra.
    assert (Hr : IZR r - x = 1 / 2) by lra.
    assert (En : Z.even n = true)
      by (apply Htie; rewrite Hn, Rabs_Ropp; apply Rabs_right; lra).
    assert (Er : Z.even r = true)
      by (apply Htie'; rewrite Hr; apply Rabs_right; lra).
    assert (Hrn : r = (n + 1)%Z).
    { apply eq_IZR. rewrite plus_IZR. lra. }
    rewrite Hrn, Z.even_add, En in Er. discriminate.
  - assert (H1 : (r + 1 <= n)%Z) by lia.
    apply IZR_le in H1. rewrite plus_IZR in H1.
    assert (Hn : IZR n - x = 1 / 2) by lra.
    assert (Hr : IZR r - x = - (1 / 2)) by lra.
    assert (En : Z.even n = true)
      by (apply Htie; rewrite Hn; apply Rabs_right; lra).
    assert (Er : Z.even r = true)
      by (apply Htie'; rewrite Hr, Rabs_Ropp; apply Rabs_right; lra).
    assert (Hrn : n = (r + 1)%Z).
    { apply eq_IZR. rewrite plus_IZR. lra. }
    rewrite Hrn, Z.even_add, Er in En. discriminate.
Qed.

Lemma round_half_even_opp (x : R) :
  round_half_even (- x) = (- round_half_even x)%Z.
Proof.
  symmetry. apply round_half_even_unique.
  - rewrite opp_IZR.
    replace (- IZR (round_half_even x) - - x)
      with (- (IZR (round_half_even x) - x)) by lra.
    rewrite Rabs_Ropp. apply round_half_even_near.
  - rewrite opp_IZR.
    replace (- IZR (round_half_even x) - - x)
      with (- (IZR (round_half_even x) - x)) by lra.
    rewrite Rabs_Ropp, Z.even_opp. apply round_half_even_tie.
Qed.

Lemma clamp_lower (v lo hi : R) : lo <= _clamp v lo hi.
Proof. unfold _clamp. apply Rmax_l. Qed.

Lemma clamp_upper (v lo hi : R) : lo <= hi -> _clamp v lo hi <= hi.
Proof.
  intros H. unfold _clamp. apply Rmax_lub; [exact H | apply Rmin_l].
Qed.

Lemma np_clip_in_range (a : list R) :
  Forall (fun x => -1 <= x <= 1) (np_clip a (-1) 1).
Proof.
  unfold np_clip. apply Forall_forall. intros y Hy.
  apply in_map_iff in Hy. destruct Hy as [x [<- _]].
  unfold Rmin, Rmax.
  destruct (Rle_dec x (-1)); destruct (Rle_dec _ 1); lra.
Qed.

Lemma np_clip_id (a : list R) :
  Forall (fun x => -1 <= x <= 1) a -> np_clip a (-1) 1 = a.
Proof.
  unfold np_clip. induction 1 as [| x a Hx _ IH]; [reflexivity |].
  cbn. rewrite IH. f_equal.
  unfold Rmin, Rmax.
  destruct (Rle_dec x (-1)); destruct (Rle_dec _ 1); lra.
Qed.

Lemma np_clip_length (a : list R) lo hi : length (np_clip a lo hi) = length a.
Proof. apply length_map. Qed.

End PrimitiveFacts.

(* ================================================================== *)
(** * Clip safety of the limiter and of the pipeline *)
(* ================================================================== *)

Section ClipSafety.

Lemma limiter_loop_length (attack release thr gain : R) (signal : list R) :
  length (limiter_loop attack release thr gain signal) = length signal.
Proof.
  revert gain. induction signal as [| x signal IH]; intros gain; cbn;
    [reflexivity | now rewrite IH].
Qed.

(** An enabled limiter returns the clipped loop output; it raises only on an
    empty array ([np.min] of no gains). *)
Lemma apply_limiter_enabled (config : EnhancementV2Config) (signal : list R)
    (force : bool) (override : option R) :
  force || enabled (limiter config) = true ->
  match _apply_limiter config signal force override with
  | Ok (out, _) =>
      out = np_clip (map fst (limiter_loop (limiter_attack config)
                                (limiter_release config)
                                (limiter_threshold config override) 1 signal))
                    (-1) 1
  | Raise _ => signal = []
  end.
Proof.
  intros Hen. unfold _apply_limiter. rewrite Hen. cbn [negb].
  destruct signal as [| x signal]; cbn; reflexivity.
Qed.

Lemma apply_limiter_disabled (config : EnhancementV2Config) (signal : list R) :
  enabled (limiter config) = false ->
  _apply_limiter config signal false None =
  Ok (signal, [("limiter_enabled", VBool false);
               ("limiter_reduction_db", VFloat 0)]).
Proof. intros Hen. unfold _apply_limiter. rewrite Hen. reflexivity. Qed.



End ClipSafety.

(** ** The limiter switched off

    With [limiter.enabled = False] the last stage hands its input through,
    and nothing before it keeps samples within range: DC removal alone moves
    the clamped input [1, 1, 1, -1] to [0.5, 0.5, 0.5, -1.5]. *)

Section LimiterDisabled.






End LimiterDisabled.

(* ================================================================== *)
(** * The empty-input short cut of [process] *)
(* ================================================================== *)

Section EmptyInput.

(** C3 (as amended).  On an empty waveform [process] returns the empty
    waveform and a report made of the four request entries ([v2_mode],
    [ns_engine_requested], [loudness_strategy_requested],
    [dynamics_requested]) followed by the one entry [v2_empty_input = True];
    no stage has run: the report has no stage key and the backend log is
    empty. *)
Theorem process_empty_input :
  forall {St : Type} (apm : option (APM St)) (rn df sp : bool)
         (pyln : option Pyln) (config : EnhancementV2Config)
         (sample_rate : Z) (mask : option (list bool)),
    run (process apm rn df sp pyln config [] sample_rate mask) =
    (Ok {| signal := []; stats := empty_input_stats config |}, []).
Proof. intros. reflexivity. Qed.

(** C3, as stated, fails: the report of an empty input has five entries, not
    the single [v2_empty_input] one. *)
Lemma process_empty_input_report_has_five_entries :
  exists res,
    run (process (St := unit) None false false false None default_config []
           16000 None) = (Ok res, [])
    /\ signal res = []
    /\ length (stats res) = 5%nat
    /\ dict_get (stats res) "v2_mode" = Some (VStr "fast_dsp")
    /\ stats res <> [("v2_empty_input", VBool true)].
Proof.
  eexists. split; [reflexivity |].
  repeat split; discriminate.
Qed.

End EmptyInput.

(* ================================================================== *)
(** * Noise suppression: short input, and backend failures *)
(* ================================================================== *)

Section NoiseSuppression.

Lemma ns_frame_size_16000 : ns_frame_size 16000 = 160%Z.
Proof.
  unfold ns_frame_size.
  replace (IZR 16000 * 0.01) with (IZR 160) by lra.
  now rewrite round_half_even_IZR.
Qed.

Lemma ns_frame_size_100 : ns_frame_size 100 = 1%Z.
Proof.
  unfold ns_frame_size.
  replace (IZR 100 * 0.01) with (IZR 1) by lra.
  now rewrite round_half_even_IZR.
Qed.

Ltac resolve_engine H :=
  unfold _apply_noise_suppression; rewrite H;
  cbn [String.eqb Ascii.eqb Bool.eqb plugin_fallback negb].

(** Once the engine resolves to WebRTC and the module is there, the stage is
    the frame-size check followed by the two [try] blocks. *)
Lemma ns_webrtc_path {St : Type} (apm : APM St) (rn df sp : bool)
    (config : EnhancementV2Config) (signal : list R) (sample_rate : Z) :
  webrtc_selected rn df sp (ns_engine config) ->
  _apply_noise_suppression (Some apm) rn df sp config signal sample_rate =
  _apply_noise_suppression (Some apm) false false false
    {| mode := mode config; ns_engine := "webrtc";
       noise_suppression_level := noise_suppression_level config;
       loudness_strategy := loudness_strategy config;
       dynamics := dynamics config; limiter := limiter config;
       targets := targets config; vad := vad config;
       hpf_cutoff_hz := hpf_cutoff_hz config |} signal sample_rate.
Proof.
  intros [H | [[H Hb] | [[H Hb] | [H Hb]]]]; try subst;
    resolve_engine H; simpl ns_engine;
    cbn [String.eqb Ascii.eqb Bool.eqb plugin_fallback negb];
    reflexivity.
Qed.

(** C10.  A signal shorter than one 10 ms frame, with the WebRTC module
    available and selected, comes back unchanged with [ns_backend =
    "webrtc_apm"] and [ns_frames_processed = 0]; the log of backend calls is
    empty: the module is not even constructed, and no frame, padded or not,
    is submitted. *)
Theorem ns_sub_frame_pass_through :
  forall {St : Type} (apm : APM St) (rn df sp : bool)
         (config : EnhancementV2Config) (signal : list R) (sample_rate : Z),
    webrtc_selected rn df sp (ns_engine config) ->
    signal <> [] ->
    (Z.of_nat (length signal) < ns_frame_size sample_rate)%Z ->
    run (_apply_noise_suppression (Some apm) rn df sp config signal sample_rate)
    = (Ok (signal, [("ns_backend", VStr "webrtc_apm");
                    ("ns_frames_processed", VInt 0)]), []).
Proof.
  intros St apm rn df sp config signal sample_rate Hsel _ Hshort.
  rewrite (ns_webrtc_path apm rn df sp config signal sample_rate Hsel).
  unfold run, _apply_noise_suppression. simpl ns_engine.
  cbn [String.eqb Ascii.eqb Bool.eqb plugin_fallback negb].
  fold (ns_frame_size sample_rate).
  apply Z.ltb_lt in Hshort. rewrite Hshort. reflexivity.
Qed.

(** The theorem at a 3-sample signal at 16 kHz (frame size 160). *)
Lemma ns_sub_frame_pass_through_example :
  run (_apply_noise_suppression (Some (flaky_apm 0)) false false false
         default_config [1 / 10; - 1 / 5; 3 / 10] 16000)
  = (Ok ([1 / 10; - 1 / 5; 3 / 10],
         [("ns_backend", VStr "webrtc_apm"); ("ns_frames_processed", VInt 0)]),
     []).
Proof.
  apply (ns_sub_frame_pass_through (flaky_apm 0) false false false
           default_config [1 / 10; - 1 / 5; 3 / 10] 16000).
  - left. reflexivity.
  - discriminate.
  - rewrite ns_frame_size_16000. cbn. lia.
Defined.

(** ** Backend exceptions *)

Lemma records_ret {A : Type} (P : ApmCall -> Prop) (a : A) :
  records_failures P (ret a).
Proof.
  intros log0 r log H. unfold ret in H. injection H as <- <-.
  exists []. split; [now rewrite app_nil_r | intros c e []].
Qed.

Lemma records_lift {A : Type} (P : ApmCall -> Prop) (x : result A) :
  records_failures P (lift x).
Proof.
  intros log0 r log H. unfold lift in H. injection H as <- <-.
  exists []. split; [now rewrite app_nil_r | intros c e []].
Qed.

Lemma records_call {A : Type} (P : ApmCall -> Prop) (c : ApmCall)
    (x : result A) :
  P c -> records_failures P (call c x).
Proof.
  intros HP log0 r log H. unfold call in H. injection H as <- <-.
  eexists. split; [reflexivity |].
  intros c' e [Hin | []]. injection Hin as <- He.
  destruct x; [discriminate | injection He as <-]. now split.
Qed.

Lemma records_bind {A B : Type} (P : ApmCall -> Prop) (m : Eff A)
    (k : A -> Eff B) :
  records_failures P m -> (forall a, records_failures P (k a)) ->
  records_failures P (bind m k).
Proof.
  intros Hm Hk log0 r log H. unfold bind in H.
  destruct (m log0) as [[a | e] log1] eqn:Em.
  - destruct (Hm _ _ _ Em) as [evs1 [-> Hno]].
    destruct (Hk a _ _ _ H) as [evs2 [-> Hev]].
    exists (evs1 ++ evs2). split; [now rewrite app_assoc |].
    intros c e Hin. apply in_app_or in Hin. destruct Hin as [Hin | Hin].
    + destruct (Hno c e Hin) as [Habs _]. discriminate.
    + now apply Hev.
  - injection H as <- <-.
    destruct (Hm _ _ _ Em) as [evs [-> Hev]].
    exists evs. split; [reflexivity |].
    intros c e0 Hin. destruct (Hev c e0 Hin) as [Heq HP].
    injection Heq as ->. now split.
Qed.

Lemma apm_init_records {St : Type} (apm : APM St) (sr nl tgt lvl : Z) :
  records_failures is_init_call (apm_init apm sr nl tgt lvl).
Proof.
  unfold apm_init.
  repeat (apply records_bind; [apply records_call; exact I | intros ?]).
  apply records_call; exact I.
Qed.

Lemma ns_frame_records {St : Type} (apm : APM St) (st : St) (frame_size : nat)
    (frame : list R) :
  records_failures is_frame_call (ns_frame apm st frame_size frame).
Proof.
  unfold ns_frame.
  apply records_bind; [apply records_call; exact I | intros [out_payload st']].
  apply records_bind.
  { destruct out_payload; [apply records_ret | apply records_lift]. }
  intros out_bytes.
  apply records_bind; [apply records_lift | intros ints].
  apply records_ret.
Qed.

Lemma ns_loop_records {St : Type} (apm : APM St) (frame_size : nat)
    (chunks : list (list R)) :
  forall (st : St) (processed : list R) (n : Z),
    records_failures is_frame_call
      (ns_loop apm st frame_size chunks processed n).
Proof.
  induction chunks as [| chunk rest IH]; intros st processed n; cbn [ns_loop].
  - apply records_ret.
  - apply records_bind; [apply ns_frame_records | intros [out_frame st']].
    apply IH.
Qed.

(** The stage itself never raises: every exit is a [return]. *)
Lemma ns_never_raises {St : Type} (apm : option (APM St)) (rn df sp : bool)
    (config : EnhancementV2Config) (signal : list R) (sample_rate : Z)
    (log0 : Log) :
  exists out stats log,
    _apply_noise_suppression apm rn df sp config signal sample_rate log0
    = (Ok (out, stats), log).
Proof.
  unfold _apply_noise_suppression.
  destruct (ns_engine config =? "off")%string; [unfold ret; eauto |].
  destruct (plugin_fallback _ _ rn _) as [req1 | tag]; [| unfold ret; eauto].
  destruct (plugin_fallback _ _ df _) as [req2 | tag]; [| unfold ret; eauto].
  destruct (plugin_fallback _ _ sp _) as [req3 | tag]; [| unfold ret; eauto].
  destruct (negb (req3 =? "webrtc")%string); [unfold ret; eauto |].
  destruct apm as [apm |]; [| unfold ret; eauto].
  destruct (_ <? _)%Z; [unfold ret; eauto |].
  destruct _map_agc_params as [agc_target agc_level].
  unfold bind at 1. unfold try_except at 1. unfold bind at 1.
  destruct (apm_init _ _ _ _ _ _) as [[st | e] log1].
  - unfold ret at 1. unfold try_except. unfold bind at 1.
    destruct (ns_loop _ _ _ _ _ _ _) as [[[processed n] | e] log2];
      unfold ret; eauto.
  - unfold ret; eauto.
Qed.

(** C2.  If any call on the WebRTC module raised, while the module was built
    and configured or while a frame was processed, the stage returns (it
    does not raise) the original input signal, with none of the frames
    already processed, and the report [ns_backend = "error"], [ns_error =
    "init_failed: <exc>"] or ["process_failed: <exc>"]. *)
Theorem ns_backend_failure_is_pass_through :
  forall {St : Type} (apm : option (APM St)) (rn df sp : bool)
         (config : EnhancementV2Config) (signal : list R) (sample_rate : Z)
         (r : result (list R * dict)) (log : Log) (c : ApmCall) (e : PyExc),
    run (_apply_noise_suppression apm rn df sp config signal sample_rate)
      = (r, log) ->
    In (c, Some e) log ->
    r = Ok (signal, ns_error_stats c e).
Proof.
  intros St apm rn df sp config signal sample_rate r log c e.
  unfold run, _apply_noise_suppression.
  destruct (ns_engine config =? "off")%string;
    [unfold ret; intros H; injection H as <- <-; intros [] |].
  destruct (plugin_fallback _ _ rn _) as [req1 | tag];
    [| unfold ret; intros H; injection H as <- <-; intros []].
  destruct (plugin_fallback _ _ df _) as [req2 | tag];
    [| unfold ret; intros H; injection H as <- <-; intros []].
  destruct (plugin_fallback _ _ sp _) as [req3 | tag];
    [| unfold ret; intros H; injection H as <- <-; intros []].
  destruct (negb (req3 =? "webrtc")%string);
    [unfold ret; intros H; injection H as <- <-; intros [] |].
  destruct apm as [apm |];
    [| unfold ret; intros H; injection H as <- <-; intros []].
  destruct (_ <? _)%Z;
    [unfold ret; intros H; injection H as <- <-; intros [] |].
  destruct _map_agc_params as [agc_target agc_level].
  unfold bind at 1. unfold try_except at 1. unfold bind at 1.
  destruct (apm_init _ _ _ _ _ _) as [[st | e1] log1] eqn:Einit.
  - destruct (apm_init_records _ _ _ _ _ _ _ _ Einit) as [evs1 [-> Hinit]].
    cbn [app] in *.
    unfold ret at 1. unfold try_except. unfold bind at 1.
    destruct (ns_loop _ _ _ _ _ _ _) as [[[processed n] | e2] log2] eqn:Eloop;
      destruct (ns_loop_records _ _ _ _ _ _ _ _ _ Eloop) as [evs2 [-> Hloop]];
      unfold ret; intros H; injection H as <- <-; intros Hin;
      apply in_app_or in Hin; destruct Hin as [Hin | Hin];
      try (destruct (Hinit c e Hin) as [Habs _]; discriminate);
      destruct (Hloop c e Hin) as [Heq Hc]; try discriminate.
    injection Heq as <-. destruct c; try contradiction. reflexivity.
  - destruct (apm_init_records _ _ _ _ _ _ _ _ Einit) as [evs1 [-> Hinit]].
    cbn [app] in *.
    unfold ret. intros H; injection H as <- <-. intros Hin.
    destruct (Hinit c e Hin) as [Heq Hc]. injection Heq as <-.
    destruct c; try contradiction; reflexivity.
Qed.

(** A run at frame size 1 (100 Hz): the module accepts the first frame and
    raises on the second. *)
Lemma flaky_run :
  run (_apply_noise_suppression (Some (flaky_apm 1)) false false false
         default_config [1 / 2; 1 / 4] 100)
  = (Ok ([1 / 2; 1 / 4],
         [("ns_backend", VStr "error");
          ("ns_error", VStr "process_failed: stream closed")]),
     [(CallNew 0 true 1 false, None);
      (CallSetStreamFormat 100 1 100 1, None);
      (CallSetNsLevel 1, None);
      (CallSetAgcTarget 20, None);
      (CallSetAgcLevel 58, None);
      (CallProcessStream (int16_tobytes (_float_to_pcm16 [1 / 2])), None);
      (CallProcessStream (int16_tobytes (_float_to_pcm16 [1 / 4])),
       Some (Exc "RuntimeError" "stream closed"))]).
Proof.
  unfold run, _apply_noise_suppression.
  cbn [ns_engine default_config String.eqb Ascii.eqb Bool.eqb plugin_fallback
       negb].
  fold (ns_frame_size 100). rewrite ns_frame_size_100.
  reflexivity.
Qed.

(** A run in which configuring the module fails. *)
Lemma unconfigurable_run :
  run (_apply_noise_suppression (Some unconfigurable_apm) false false false
         default_config [1 / 2; 1 / 4] 100)
  = (Ok ([1 / 2; 1 / 4],
         [("ns_backend", VStr "error");
          ("ns_error", VStr "init_failed: unsupported sample rate")]),
     [(CallNew 0 true 1 false, None);
      (CallSetStreamFormat 100 1 100 1,
       Some (Exc "ValueError" "unsupported sample rate"))]).
Proof.
  unfold run, _apply_noise_suppression.
  cbn [ns_engine default_config String.eqb Ascii.eqb Bool.eqb plugin_fallback
       negb].
  fold (ns_frame_size 100). rewrite ns_frame_size_100.
  reflexivity.
Qed.

(** The theorem at the run of [flaky_run]: the first frame, already
    processed, is not in the result. *)
Lemma ns_backend_failure_example :
  fst (run (_apply_noise_suppression (Some (flaky_apm 1)) false false false
              default_config [1 / 2; 1 / 4] 100))
  = Ok ([1 / 2; 1 / 4],
        ns_error_stats
          (CallProcessStream (int16_tobytes (_float_to_pcm16 [1 / 4])))
          (Exc "RuntimeError" "stream closed")).
Proof.
  apply (ns_backend_failure_is_pass_through (Some (flaky_apm 1)) false false
           false default_config [1 / 2; 1 / 4] 100 _
           (snd (run (_apply_noise_suppression (Some (flaky_apm 1)) false false
                        false default_config [1 / 2; 1 / 4] 100)))).
  - apply surjective_pairing.
  - rewrite flaky_run. cbn [snd]. do 6 right. left. reflexivity.
Defined.

End NoiseSuppression.

(* ================================================================== *)
(** * The curve smoother *)
(* ================================================================== *)

Section CurveSmoother.

Lemma smooth_curve_unfold (values : list R) (window : Z) :
  _smooth_curve values window =
  if (length values <=? 1)%nat then values
  else np_convolve_valid (np_pad_edge values (Z.to_nat (smooth_half window)))
                         (smooth_kernel window).
Proof. reflexivity. Qed.

Lemma smooth_half_pos (window : Z) : (1 <= smooth_half window)%Z.
Proof.
  unfold smooth_half.
  apply Z.div_le_lower_bound; lia.
Qed.

Lemma np_arange_length (lo hi : Z) : length (np_arange lo hi) = Z.to_nat (hi - lo).
Proof. unfold np_arange. now rewrite length_map, length_seq. Qed.

Lemma smooth_kernel_raw_length (window : Z) :
  length (smooth_kernel_raw window) = (2 * Z.to_nat (smooth_half window) + 1)%nat.
Proof.
  unfold smooth_kernel_raw. rewrite length_map, np_arange_length.
  fold (smooth_half window). pose proof (smooth_half_pos window). lia.
Qed.

Lemma smooth_kernel_length (window : Z) :
  length (smooth_kernel window) = (2 * Z.to_nat (smooth_half window) + 1)%nat.
Proof.
  unfold smooth_kernel. rewrite length_map. apply smooth_kernel_raw_length.
Qed.

Lemma np_pad_edge_length (a : list R) (n : nat) :
  length (np_pad_edge a n) = (n + length a + n)%nat.
Proof.
  unfold np_pad_edge. rewrite !length_app, !repeat_length. lia.
Qed.

Lemma np_convolve_valid_length (a v : list R) :
  length (np_convolve_valid a v) = (length a + 1 - length v)%nat.
Proof. unfold np_convolve_valid. now rewrite length_map, length_seq. Qed.

Lemma smooth_curve_length (values : list R) (window : Z) :
  length (_smooth_curve values window) = length values.
Proof.
  rewrite smooth_curve_unfold.
  destruct (length values <=? 1)%nat; [reflexivity |].
  rewrite np_convolve_valid_length, np_pad_edge_length, smooth_kernel_length.
  lia.
Qed.

(** *** The kernel sums to one *)







(** *** Convolution of a constant *)








End CurveSmoother.

(* ================================================================== *)
(** * The dynaudnorm-like strategy and the speech mask *)
(* ================================================================== *)

Section SpeechMask.

Lemma frames_fuel_concat {A : Type} (n : nat) :
  (0 < n)%nat ->
  forall (fuel : nat) (a : list A),
    (length a <= fuel)%nat -> concat (frames_fuel fuel n a) = a.
Proof.
  intros Hn. induction fuel as [| fuel IH]; intros a Hlen.
  - destruct a; [reflexivity | cbn in Hlen; lia].
  - destruct a as [| x a]; [reflexivity |].
    cbn [frames_fuel concat].
    rewrite IH.
    + apply firstn_skipn.
    + rewrite length_skipn. cbn [length] in *. lia.
Qed.

Lemma frames_concat {A : Type} (n : nat) (a : list A) :
  (0 < n)%nat -> concat (frames n a) = a.
Proof. intros Hn. apply frames_fuel_concat; [exact Hn | lia]. Qed.

Lemma scaled_frames_length (chunks : list (list R)) :
  forall (gains : list R),
    length gains = length chunks ->
    length (concat (map (fun fg : list R * R => map (fun x => x * snd fg) (fst fg))
                        (combine chunks gains)))
    = length (concat chunks).
Proof.
  induction chunks as [| chunk chunks IH]; intros gains Hlen; [reflexivity |].
  destruct gains as [| g gains]; [discriminate |].
  cbn [combine map concat fst snd]. rewrite !length_app, length_map.
  f_equal. apply IH. cbn in Hlen. lia.
Qed.

Lemma restore_non_speech_same (signal : list R) (mask : list bool) :
  restore_non_speech signal signal mask = signal.
Proof.
  revert mask. induction signal as [| s signal IH]; intros mask;
    [reflexivity |].
  destruct mask as [| m mask]; [reflexivity |].
  cbn. rewrite IH. now destruct m.
Qed.

Lemma restore_non_speech_nth (out signal : list R) (mask : list bool) :
  length out = length signal -> length mask = length signal ->
  forall i, nth i mask true = false ->
            nth i (restore_non_speech out signal mask) 0 = nth i signal 0.
Proof.
  revert signal mask. induction out as [| o out IH]; intros signal mask Ho Hm i Hi.
  - destruct signal; [| discriminate]. destruct mask; [| discriminate].
    destruct i; discriminate.
  - destruct signal as [| s signal]; [discriminate |].
    destruct mask as [| m mask]; [discriminate |].
    cbn [restore_non_speech]. destruct i as [| i]; cbn [nth] in *.
    + now rewrite Hi.
    + apply IH; [now injection Ho | now injection Hm | exact Hi].
Qed.

(** The signal before the mask is applied has the length of the input. *)
Lemma dynaudnorm_shape (config : EnhancementV2Config) (signal : list R)
    (sample_rate : Z) (speech_mask : option (list bool)) :
  exists pre,
    length pre = length signal
    /\ fst (_apply_dynaudnorm_like config signal sample_rate speech_mask) =
       match speech_mask with
       | Some m =>
           if (length m =? length pre)%nat
           then restore_non_speech pre signal m else pre
       | None => pre
       end.
Proof.
  unfold _apply_dynaudnorm_like.
  destruct (mode config =? "high_quality")%string.
  all: cbv beta iota zeta.
  all: match goal with
       | |- context [frames (Z.to_nat ?fl) _] =>
           set (frame_len := fl);
           assert (Hfl : (0 < Z.to_nat frame_len)%nat) by (subst frame_len; lia)
       end.
  all: match goal with
       | |- context [map ?g (frames _ _)] =>
           set (gain_of := g)
       end.
  all: destruct (map gain_of (frames (Z.to_nat frame_len) signal))
         as [| g0 gains] eqn:Egains.
  all: try (exists signal; split; [reflexivity |]; cbn [fst];
            destruct speech_mask as [m |]; [| reflexivity];
            rewrite restore_non_speech_same; now destruct (_ =? _)%nat).
  all: eexists; split; [| cbn [fst]; reflexivity].
  all: rewrite scaled_frames_length
         by (rewrite smooth_curve_length, <- Egains; apply length_map).
  all: now rewrite frames_concat.
Qed.

(** C6.  With a speech mask of the length of the signal, every sample the
    mask marks as non-speech comes out of the dynaudnorm-like strategy equal
    to the input sample. *)
Theorem dynaudnorm_keeps_non_speech :
  forall (config : EnhancementV2Config) (signal : list R) (sample_rate : Z)
         (speech_mask : list bool) (i : nat),
    length speech_mask = length signal ->
    nth i speech_mask true = false ->
    nth i (fst (_apply_dynaudnorm_like config signal sample_rate
                  (Some speech_mask))) 0
    = nth i signal 0.
Proof.
  intros config signal sample_rate speech_mask i Hlen Hi.
  destruct (dynaudnorm_shape config signal sample_rate (Some speech_mask))
    as [pre [Hpre ->]].
  rewrite Hpre, Hlen, Nat.eqb_refl.
  now apply restore_non_speech_nth.
Qed.

(** The theorem at a two-sample signal whose second sample is non-speech. *)
Lemma dynaudnorm_keeps_non_speech_example :
  nth 1 (fst (_apply_dynaudnorm_like default_config [1 / 2; 1 / 4] 16000
                (Some [true; false]))) 0
  = 1 / 4.
Proof.
  apply (dynaudnorm_keeps_non_speech default_config [1 / 2; 1 / 4] 16000
           [true; false] 1); reflexivity.
Defined.

End SpeechMask.

(* ================================================================== *)
(** * The upward compressor *)
(* ================================================================== *)

Section UpwardCompressor.

Lemma Rpower_10_ge_1 (y : R) : 0 <= y -> 1 <= Rpower 10 y.
Proof.
  intros Hy. rewrite <- (Rpower_O 10) by lra.
  apply Rle_Rpower; lra.
Qed.

Lemma compressor_loop_length (attack release thr ratio max_gain : R)
    (signal : list R) :
  forall env,
    length (compressor_loop attack release thr ratio max_gain env signal)
    = length signal.
Proof.
  induction signal as [| x signal IH]; intros env; cbn;
    [reflexivity | now rewrite IH].
Qed.




End UpwardCompressor.

(* ================================================================== *)
(** * The RMS-target loudness strategy *)
(* ================================================================== *)

Section RmsTarget.

Lemma ln_10_pos : 0 < ln 10.
Proof. rewrite <- ln_1. apply ln_increasing; lra. Qed.

Lemma log10_Rpower (y : R) : log10 (Rpower 10 y) = y.
Proof.
  unfold log10. rewrite ln_Rpower.
  pose proof ln_10_pos. field. lra.
Qed.

(** [sqrt(1/1000) = 10 ** -1.5]. *)
Lemma sqrt_thousandth : sqrt (1 / 1000) = Rpower 10 (- 3 / 2).
Proof.
  rewrite <- Rpower_sqrt by lra.
  unfold Rpower. f_equal.
  replace (1 / 1000) with (/ (10 ^ 3)) by lra.
  rewrite ln_Rinv by lra. rewrite ln_pow by lra. cbn [INR]. lra.
Qed.

(** A signal whose RMS level is exactly -30 dBFS: mean square 1/1000. *)
Lemma rms_of_minus_30_dbfs : _estimate_rms_dbfs [1 / 50; 1 / 25] = -30.
Proof.
  unfold _estimate_rms_dbfs, np_mean, np_square, np_sum.
  cbn [map fold_right length INR].
  replace ((1 / 50 * (1 / 50) + (1 / 25 * (1 / 25) + 0)) / (1 + 1))
    with (1 / 1000) by lra.
  rewrite sqrt_thousandth.
  assert (Hlow : 1e-7 <= Rpower 10 (- 3 / 2)).
  { replace 1e-7 with (Rpower 10 (- 7)).
    - apply Rle_Rpower; lra.
    - unfold Rpower. replace (- 7 * ln 10) with (- (INR 7 * ln 10))
        by (cbn [INR]; lra).
      rewrite <- ln_pow by lra. rewrite exp_Ropp, exp_ln by lra. lra. }
  rewrite Rmax_left by exact Hlow.
  rewrite log10_Rpower. lra.
Qed.

Lemma string_eqb_eq (a b : string) : (a =? b)%string = true -> a = b.
Proof. apply String.eqb_eq. Qed.

(** C5.  On a non-empty signal the RMS strategy multiplies every sample by
    [10 ** (g / 20)], where [g = clamp(target - measured RMS, 0, max_gain_db)]
    and the target is -22 dBFS in mode [high_quality] and -24 dBFS in every
    other mode ([fast_dsp], [custom], unknown ones); [g] is never negative,
    so the linear gain is never below 1, and [g] is what the report carries.
    With mode [fast_dsp], [max_gain_db = 18] and a measured RMS of exactly
    -30 dBFS, [g] is 6. *)
Theorem rms_target_gain :
  forall (config : EnhancementV2Config) (signal : list R),
    signal <> [] ->
    let target :=
      if (mode config =? "high_quality")%string then -22 else -24 in
    let g := _clamp (target - _estimate_rms_dbfs signal) 0
                    (max_gain_db (targets config)) in
    fst (_apply_rms_target config signal)
      = map (fun x => x * Rpower 10 (g / 20)) signal
    /\ dict_get (snd (_apply_rms_target config signal)) "applied_gain_db"
       = Some (VFloat (py_round g 2))
    /\ 0 <= g
    /\ 1 <= Rpower 10 (g / 20)
    /\ (mode config = "fast_dsp" ->
        max_gain_db (targets config) = 18 ->
        _estimate_rms_dbfs signal = -30 ->
        g = 6).
Proof.
  intros config signal _ target g.
  assert (Hg : 0 <= g) by apply clamp_lower.
  assert (Htarget :
            (if (mode config =? "fast_dsp")%string then -24
             else if (mode config =? "high_quality")%string then -22
             else if (mode config =? "custom")%string then -24
             else -24) = target).
  { subst target.
    destruct (mode config =? "fast_dsp")%string eqn:Efast.
    - apply string_eqb_eq in Efast. now rewrite Efast.
    - destruct (mode config =? "high_quality")%string; [reflexivity |].
      now destruct (mode config =? "custom")%string. }
  unfold _apply_rms_target. rewrite Htarget. fold g. cbn [fst snd].
  repeat split.
  - exact Hg.
  - apply Rpower_10_ge_1. lra.
  - intros Hmode Hmax Hrms. subst g target.
    rewrite Hmode, Hmax, Hrms. cbn [String.eqb Ascii.eqb Bool.eqb].
    unfold _clamp, Rmax, Rmin.
    destruct (Rle_dec 18 (-24 - -30)); destruct (Rle_dec 0 _); lra.
Qed.

(** The theorem at a signal of RMS level -30 dBFS, mode [fast_dsp],
    ceiling 18 dB: every sample is scaled by [10 ** (6 / 20)]. *)
Lemma rms_target_gain_example :
  fst (_apply_rms_target default_config [1 / 50; 1 / 25])
  = map (fun x => x * Rpower 10 (6 / 20)) [1 / 50; 1 / 25].
Proof.
  destruct (rms_target_gain default_config [1 / 50; 1 / 25])
    as [Hout [_ [_ [_ Hsix]]]]; [discriminate |].
  rewrite Hout, Hsix;
    [reflexivity | reflexivity | reflexivity | apply rms_of_minus_30_dbfs].
Defined.

End RmsTarget.

(* ================================================================== *)
(** * Limiting an already limited signal *)
(* ================================================================== *)

Section LimiterIdempotence.

Lemma estimate_peak_dbfs_nonempty (x : list R) :
  x <> [] -> _estimate_peak_dbfs x = 20 * log10 (Rmax (peak_of x) 1e-7).
Proof.
  intros Hne. unfold _estimate_peak_dbfs, peak_of.
  destruct x as [| x0 x]; [congruence | reflexivity].
Qed.

Lemma fold_left_Rmax_ge (t : list R) :
  forall a, a <= fold_left Rmax t a
            /\ forall y, In y t -> y <= fold_left Rmax t a.
Proof.
  induction t as [| b t IH]; intros a; cbn [fold_left].
  - split; [lra | intros y []].
  - destruct (IH (Rmax a b)) as [H1 H2]. split.
    + pose proof (Rmax_l a b). lra.
    + intros y [<- | Hy]; [pose proof (Rmax_r a b); lra | now apply H2].
Qed.

Lemma fold_left_Rmax_in (t : list R) :
  forall a, In (fold_left Rmax t a) (a :: t).
Proof.
  induction t as [| b t IH]; intros a; cbn [fold_left]; [now left |].
  destruct (IH (Rmax a b)) as [H | H].
  - rewrite <- H. unfold Rmax. destruct (Rle_dec a b); [right; now left | now left].
  - right. now right.
Qed.

Lemma peak_of_upper (x : list R) (v : R) : In v x -> Rabs v <= peak_of x.
Proof.
  intros Hin. unfold peak_of.
  assert (Ha : In (Rabs v) (np_abs x)) by (unfold np_abs; now apply in_map).
  destruct (np_abs x) as [| a t]; [contradiction |].
  destruct (fold_left_Rmax_ge t a) as [H1 H2].
  destruct Ha as [<- | Ha]; [exact H1 | now apply H2].
Qed.

Lemma peak_of_attained (x : list R) :
  x <> [] -> exists v, In v x /\ peak_of x = Rabs v.
Proof.
  intros Hne. unfold peak_of.
  destruct (np_abs x) as [| a t] eqn:E.
  - destruct x; [congruence | discriminate].
  - pose proof (fold_left_Rmax_in t a) as Hin. rewrite <- E in Hin.
    unfold np_abs in Hin. apply in_map_iff in Hin.
    destruct Hin as [v [Hv Hin]]. exists v. now split.
Qed.

Lemma peak_of_nonneg (x : list R) : 0 <= peak_of x.
Proof.
  destruct x as [| x0 x]; [unfold peak_of; cbn; lra |].
  pose proof (peak_of_upper (x0 :: x) x0 (or_introl eq_refl)).
  pose proof (Rabs_pos x0). lra.
Qed.

(** *** The smoothing coefficients lie strictly between 0 and 1 *)

Lemma exp_neg_inv_range (z : R) : 0 < exp (- 1 / Rmax 1 z) < 1.
Proof.
  split; [apply exp_pos |].
  rewrite <- exp_0 at 2. apply exp_increasing.
  pose proof (Rmax_l 1 z).
  apply Rmult_lt_reg_r with (Rmax 1 z); [lra |].
  unfold Rdiv. rewrite Rmult_assoc, Rinv_l by lra. lra.
Qed.

Lemma limiter_attack_range (config : EnhancementV2Config) :
  0 < limiter_attack config < 1.
Proof. apply exp_neg_inv_range. Qed.

Lemma limiter_release_range (config : EnhancementV2Config) :
  0 < limiter_release config < 1.
Proof. apply exp_neg_inv_range. Qed.

Lemma limiter_threshold_range (config : EnhancementV2Config)
    (override : option R) :
  0.6 <= limiter_threshold config override <= 0.999.
Proof.
  unfold limiter_threshold. split; [apply clamp_lower | apply clamp_upper; lra].
Qed.

(** *** The gain stays between the smallest target and 1 *)

Lemma limiter_loop_gains (a r thr L : R) :
  0 <= a <= 1 -> 0 <= r <= 1 ->
  forall (x : list R) (g : R),
    L <= g <= 1 ->
    Forall (fun v => L <= limiter_target thr v <= 1) x ->
    Forall2 (fun v og => fst og = v * snd og /\ L <= snd og <= 1)
            x (limiter_loop a r thr g x).
Proof.
  intros Ha Hr x. induction x as [| v x IH]; intros g Hg Ht;
    cbn [limiter_loop]; [constructor |].
  inversion Ht as [| ? ? Hv Hx]; subst.
  fold (limiter_target thr v).
  set (t := limiter_target thr v) in *.
  assert (Hg' : L <= (if Rltb t g then a else r) * g
                     + (1 - (if Rltb t g then a else r)) * t <= 1).
  { destruct (Rltb t g); split; nra. }
  constructor.
  - cbn [fst snd]. split; [reflexivity | exact Hg'].
  - apply IH; [exact Hg' | exact Hx].
Qed.

(** For samples of magnitude at most [p <= 1], every target is at least
    [thr / max(p, thr)]. *)
Lemma limiter_target_range (thr p v : R) :
  0.6 <= thr <= 0.999 -> Rabs v <= p ->
  thr / Rmax p thr <= limiter_target thr v <= 1.
Proof.
  intros Hthr Hv. unfold limiter_target.
  assert (Hm : thr <= Rmax p thr) by apply Rmax_r.
  assert (Hp : p <= Rmax p thr) by apply Rmax_l.
  destruct (Rleb (Rabs v) thr) eqn:E.
  - split; [| lra].
    apply Rmult_le_reg_r with (Rmax p thr); [lra |].
    unfold Rdiv. rewrite Rmult_assoc, Rinv_l by lra. lra.
  - apply Rleb_false in E.
    rewrite (Rmax_left (Rabs v) 1e-6) by lra.
    split.
    + unfold Rdiv. apply Rmult_le_compat_l; [lra |].
      apply Rinv_le_contravar; lra.
    + apply Rmult_le_reg_r with (Rabs v); [lra |].
      unfold Rdiv. rewrite Rmult_assoc, Rinv_l by lra. lra.
Qed.

(** *** Peaks of the input and of the output of a pass *)

Lemma Forall2_in_l {A B : Type} (P : A -> B -> Prop) (x : list A) (y : list B) :
  Forall2 P x y -> forall v, In v x -> exists w, In w y /\ P v w.
Proof.
  induction 1 as [| a b x y Hab _ IH]; intros v Hv; [contradiction |].
  destruct Hv as [<- | Hv].
  - exists b. split; [now left | exact Hab].
  - destruct (IH v Hv) as [w [Hw HP]]. exists w. split; [now right | exact HP].
Qed.

Lemma Forall2_in_r {A B : Type} (P : A -> B -> Prop) (x : list A) (y : list B) :
  Forall2 P x y -> forall w, In w y -> exists v, In v x /\ P v w.
Proof.
  induction 1 as [| a b x y Hab _ IH]; intros w Hw; [contradiction |].
  destruct Hw as [<- | Hw].
  - exists a. split; [now left | exact Hab].
  - destruct (IH w Hw) as [v [Hv HP]]. exists v. split; [now right | exact HP].
Qed.

Lemma scaled_outputs (L : R) (x : list R) (run : list (R * R)) :
  0 <= L ->
  Forall2 (fun v og => fst og = v * snd og /\ L <= snd og <= 1) x run ->
  Forall2 (fun v w => L * Rabs v <= Rabs w <= Rabs v) x (map fst run).
Proof.
  intros HL H.
  induction H as [| v og x' run' [Hout Hgain] _ IH]; cbn [map]; constructor.
  - rewrite Hout, Rabs_mult, (Rabs_right (snd og)) by lra.
    pose proof (Rabs_pos v). split; nra.
  - exact IH.
Qed.

(** One pass over a signal: each output sample is the input sample scaled
    by a factor between [thr / max(peak, thr)] and 1. *)
Lemma limiter_pass_scaling (a r thr : R) (x : list R) :
  0 <= a <= 1 -> 0 <= r <= 1 -> 0.6 <= thr <= 0.999 ->
  Forall2 (fun v w => thr / Rmax (peak_of x) thr * Rabs v <= Rabs w <= Rabs v)
          x (map fst (limiter_loop a r thr 1 x)).
Proof.
  intros Ha Hr Hthr.
  set (L := thr / Rmax (peak_of x) thr).
  assert (Hm : thr <= Rmax (peak_of x) thr) by apply Rmax_r.
  assert (HL : 0 < L <= 1).
  { subst L. split.
    - apply Rdiv_lt_0_compat; lra.
    - apply Rmult_le_reg_r with (Rmax (peak_of x) thr); [lra |].
      unfold Rdiv. rewrite Rmult_assoc, Rinv_l by lra. lra. }
  assert (Ht : Forall (fun v => L <= limiter_target thr v <= 1) x).
  { apply Forall_forall. intros v Hv.
    apply limiter_target_range; [exact Hthr | now apply peak_of_upper]. }
  apply scaled_outputs; [lra |].
  apply limiter_loop_gains; [exact Ha | exact Hr | lra | exact Ht].
Qed.

Lemma limiter_pass_peak (a r thr : R) (x : list R) :
  0 <= a <= 1 -> 0 <= r <= 1 -> 0.6 <= thr <= 0.999 ->
  x <> [] -> Forall in_unit_range x ->
  let y := map fst (limiter_loop a r thr 1 x) in
  Forall in_unit_range y
  /\ thr * peak_of x <= peak_of y <= peak_of x.
Proof.
  intros Ha Hr Hthr Hne Hx y.
  pose proof (limiter_pass_scaling a r thr x Ha Hr Hthr) as H2.
  fold y in H2.
  assert (Hp1 : peak_of x <= 1).
  { destruct (peak_of_attained x Hne) as [v [Hv ->]].
    rewrite Forall_forall in Hx. specialize (Hx v Hv).
    unfold in_unit_range in Hx. apply Rabs_le. lra. }
  pose proof (peak_of_nonneg x) as Hp0.
  assert (Hm : thr <= Rmax (peak_of x) thr) by apply Rmax_r.
  assert (Hm1 : Rmax (peak_of x) thr <= 1) by (apply Rmax_lub; lra).
  assert (HL : thr <= thr / Rmax (peak_of x) thr).
  { apply Rmult_le_reg_r with (Rmax (peak_of x) thr); [lra |].
    unfold Rdiv. rewrite Rmult_assoc, Rinv_l by lra. nra. }
  assert (Hyne : y <> []).
  { intros E. apply (f_equal (@length R)) in E. subst y.
    rewrite length_map, limiter_loop_length in E.
    destruct x; [congruence | discriminate]. }
  split; [| split].
  - apply Forall_forall. intros w Hw.
    destruct (Forall2_in_r _ _ _ H2 w Hw) as [v [Hv [_ Hle]]].
    rewrite Forall_forall in Hx. specialize (Hx v Hv).
    unfold in_unit_range in *. apply Rabs_le_bounds.
    assert (Rabs v <= 1) by (apply Rabs_le; lra). lra.
  - destruct (peak_of_attained x Hne) as [v [Hv Hpv]].
    destruct (Forall2_in_l _ _ _ H2 v Hv) as [w [Hw [Hge _]]].
    pose proof (peak_of_upper y w Hw). pose proof (Rabs_pos v).
    rewrite Hpv in *. nra.
  - destruct (peak_of_attained y Hyne) as [w [Hw ->]].
    destruct (Forall2_in_r _ _ _ H2 w Hw) as [v [Hv [_ Hle]]].
    pose proof (peak_of_upper x v Hv). lra.
Qed.

(** *** From peak ratios to decibels *)

Lemma ln_le (x y : R) : 0 < x -> x <= y -> ln x <= ln y.
Proof.
  intros Hx [Hlt | ->]; [left; now apply ln_increasing | right; reflexivity].
Qed.

Lemma log10_le (x y : R) : 0 < x -> x <= y -> log10 x <= log10 y.
Proof.
  intros Hx Hxy. unfold log10. pose proof ln_10_pos.
  apply Rmult_le_compat_r; [left; now apply Rinv_0_lt_compat | now apply ln_le].
Qed.

Lemma log10_mult (x y : R) : 0 < x -> 0 < y -> log10 (x * y) = log10 x + log10 y.
Proof.
  intros Hx Hy. unfold log10. rewrite ln_mult by assumption.
  pose proof ln_10_pos. field. lra.
Qed.

Lemma peak_db_change (thr p1 p2 : R) :
  0 < thr <= 1 -> 0 <= p1 -> thr * p1 <= p2 <= p1 ->
  20 * log10 thr
  <= 20 * log10 (Rmax p2 1e-7) - 20 * log10 (Rmax p1 1e-7)
  <= 0.
Proof.
  intros Hthr Hp1 Hp2.
  assert (H1 : 1e-7 <= Rmax p1 1e-7) by apply Rmax_r.
  assert (H2 : 1e-7 <= Rmax p2 1e-7) by apply Rmax_r.
  assert (Hup : Rmax p2 1e-7 <= Rmax p1 1e-7).
  { apply Rmax_lub; [pose proof (Rmax_l p1 1e-7); lra | exact H1]. }
  assert (Hlo : thr * Rmax p1 1e-7 <= Rmax p2 1e-7).
  { unfold Rmax at 1. destruct (Rle_dec p1 1e-7).
    - nra.
    - pose proof (Rmax_l p2 1e-7). lra. }
  assert (Hle : log10 (Rmax p2 1e-7) <= log10 (Rmax p1 1e-7))
    by (apply log10_le; lra).
  assert (Hge : log10 (thr * Rmax p1 1e-7) <= log10 (Rmax p2 1e-7))
    by (apply log10_le; [nra | exact Hlo]).
  rewrite log10_mult in Hge by lra. lra.
Qed.

(** A factor above [10 ** (-1/40)] is less than half a decibel. *)
Lemma half_db_factor (thr : R) :
  0 < thr -> 1 / 10 < thr ^ 40 -> - 0.5 < 20 * log10 thr.
Proof.
  intros Hthr Hpow.
  assert (H : ln (1 / 10) < ln (thr ^ 40)) by (apply ln_increasing; lra).
  rewrite ln_pow in H by exact Hthr.
  replace (1 / 10) with (/ 10) in H by lra.
  rewrite ln_Rinv in H by lra.
  rewrite INR_IZR_INZ in H. change (IZR (Z.of_nat 40)) with 40 in H.
  pose proof ln_10_pos as H10. unfold log10.
  apply Rmult_lt_reg_r with (ln 10); [exact H10 |].
  replace (20 * (ln thr / ln 10) * ln 10) with (20 * ln thr)
    by (field; lra).
  lra.
Qed.

(** *** The limiter applied twice *)

Lemma apply_limiter_ok (config : EnhancementV2Config) (x : list R)
    (force : bool) (override : option R) :
  force || enabled (limiter config) = true -> x <> [] ->
  exists st,
    _apply_limiter config x force override =
    Ok (np_clip (map fst (limiter_loop (limiter_attack config)
                            (limiter_release config)
                            (limiter_threshold config override) 1 x))
                (-1) 1, st).
Proof.
  intros Hen Hne. unfold _apply_limiter. rewrite Hen. cbn [negb].
  destruct x as [| v x]; [congruence |]. cbn. eexists. reflexivity.
Qed.

(** C8 (as amended).  With the limiter running twice under one
    configuration, the second pass never raises the peak level and lowers
    it by at most [20 * log10(1 / threshold)] dB, [threshold] being the
    clamped threshold of the limiter.  The change is therefore below 0.5 dB
    whenever [threshold ** 40 > 1/10], that is for thresholds above
    [10 ** (-1/40)], about 0.944, the default 0.98 among them. *)
Theorem relimit_peak_change :
  forall (config : EnhancementV2Config) (input : list R) (force : bool)
         (override : option R) (once twice : list R) (st1 st2 : dict),
    force || enabled (limiter config) = true ->
    _apply_limiter config input force override = Ok (once, st1) ->
    _apply_limiter config once force override = Ok (twice, st2) ->
    let thr := limiter_threshold config override in
    let change := _estimate_peak_dbfs twice - _estimate_peak_dbfs once in
    20 * log10 thr <= change <= 0
    /\ (1 / 10 < thr ^ 40 -> Rabs change < 0.5).
Proof.
  intros config input force override once twice st1 st2 Hen H1 H2 thr change.
  pose proof (limiter_threshold_range config override) as Hthr. fold thr in Hthr.
  pose proof (limiter_attack_range config) as Ha.
  pose proof (limiter_release_range config) as Hr.
  assert (Hin : input <> []).
  { intros ->. unfold _apply_limiter in H1. rewrite Hen in H1. discriminate. }
  destruct (apply_limiter_ok config input force override Hen Hin) as [s1 E1].
  rewrite E1 in H1. injection H1 as Honce _.
  assert (Hrange : Forall in_unit_range once)
    by (rewrite <- Honce; apply np_clip_in_range).
  assert (Hone : once <> []).
  { intros E. apply (f_equal (@length R)) in E.
    rewrite <- Honce, np_clip_length, length_map, limiter_loop_length in E.
    destruct input; [congruence | discriminate]. }
  destruct (apply_limiter_ok config once force override Hen Hone) as [s2 E2].
  rewrite E2 in H2. injection H2 as Htwice _.
  destruct (limiter_pass_peak (limiter_attack config) (limiter_release config)
              thr once ltac:(lra) ltac:(lra) Hthr Hone Hrange)
    as [Hy Hpeak].
  rewrite np_clip_id in Htwice by exact Hy.
  assert (Htne : twice <> []).
  { intros E. apply (f_equal (@length R)) in E.
    rewrite <- Htwice, length_map, limiter_loop_length in E.
    destruct once; [congruence | discriminate]. }
  unfold thr in Hpeak. rewrite Htwice in Hpeak. fold thr in Hpeak.
  assert (Hc : 20 * log10 thr <= change <= 0).
  { subst change. rewrite !estimate_peak_dbfs_nonempty by assumption.
    apply peak_db_change; [lra | apply peak_of_nonneg | exact Hpeak]. }
  split; [exact Hc |].
  intros Hpow. pose proof (half_db_factor thr ltac:(lra) Hpow).
  apply Rabs_def1; lra.
Qed.

(** The theorem at the default configuration (threshold 0.98). *)
Lemma relimit_peak_change_default :
  match _apply_limiter default_config [2] false None with
  | Ok (once, _) =>
      match _apply_limiter default_config once false None with
      | Ok (twice, _) =>
          Rabs (_estimate_peak_dbfs twice - _estimate_peak_dbfs once) < 0.5
      | Raise _ => False
      end
  | Raise _ => False
  end.
Proof.
  destruct (apply_limiter_ok default_config [2] false None eq_refl
              ltac:(discriminate)) as [s1 E1].
  rewrite E1.
  set (once := np_clip _ _ _) in *.
  assert (Hone : once <> []) by (subst once; discriminate).
  destruct (apply_limiter_ok default_config once false None eq_refl Hone)
    as [s2 E2].
  rewrite E2.
  apply (relimit_peak_change default_config [2] false None once _ s1 s2
           eq_refl E1 E2).
  replace (limiter_threshold default_config None) with 0.98; [lra |].
  unfold limiter_threshold, _clamp, Rmax, Rmin. cbn [threshold limiter default_config default_limiter].
  destruct (Rle_dec 0.999 0.98); destruct (Rle_dec 0.6 _); lra.
Defined.

(** *** A low threshold with a fast attack *)

Lemma hard_limiter_threshold : limiter_threshold hard_limiter_config None = 0.6.
Proof.
  unfold limiter_threshold, _clamp, Rmax, Rmin.
  cbn [threshold limiter hard_limiter_config].
  destruct (Rle_dec 0.999 0.6); destruct (Rle_dec 0.6 _); lra.
Qed.

Lemma hard_limiter_attack : limiter_attack hard_limiter_config = exp (- 0.625).
Proof.
  unfold limiter_attack. cbn [attack_ms limiter hard_limiter_config].
  f_equal. unfold Rmax.
  destruct (Rle_dec 0.1 0.1); destruct (Rle_dec 1 _); lra.
Qed.

Lemma exp_minus_0625_bounds : 0.375 <= exp (- 0.625) <= 8 / 13.
Proof.
  split.
  - pose proof (exp_ineq1_le (- 0.625)). lra.
  - pose proof (exp_ineq1_le 0.625) as H.
    replace (exp (- 0.625)) with (/ exp 0.625)
      by (rewrite <- exp_Ropp; f_equal; lra).
    apply Rmult_le_reg_r with (exp 0.625); [apply exp_pos |].
    rewrite Rinv_l by (pose proof (exp_pos 0.625); lra). lra.
Qed.

(** One sample above the threshold, from gain 1: the attack branch. *)
Lemma limiter_loop_single_attack (a r thr x : R) :
  0 < thr -> thr < Rabs x -> 1e-6 <= Rabs x ->
  map fst (limiter_loop a r thr 1 [x]) = [x * (a + (1 - a) * (thr / Rabs x))].
Proof.
  intros Hthr Hx Heps. cbn [limiter_loop map fst].
  assert (Hleb : Rleb (Rabs x) thr = false) by (apply Rleb_false; lra).
  rewrite Hleb, (Rmax_left (Rabs x) 1e-6) by lra.
  assert (Ht : thr / Rabs x < 1).
  { apply Rmult_lt_reg_r with (Rabs x); [lra |].
    unfold Rdiv. rewrite Rmult_assoc, Rinv_l by lra. lra. }
  apply Rltb_true in Ht. rewrite Ht. f_equal. lra.
Qed.

Lemma hard_first_pass :
  exists st, _apply_limiter hard_limiter_config [2] false None = Ok ([1], st).
Proof.
  destruct (apply_limiter_ok hard_limiter_config [2] false None eq_refl
              ltac:(discriminate)) as [st E].
  exists st. rewrite E. do 2 f_equal.
  rewrite hard_limiter_threshold, hard_limiter_attack.
  assert (H2 : Rabs 2 = 2) by (apply Rabs_right; lra).
  rewrite limiter_loop_single_attack by (rewrite ?H2; lra).
  rewrite H2. pose proof exp_minus_0625_bounds as Hb.
  cbn [np_clip map]. f_equal.
  rewrite Rmax_left by lra. apply Rmin_right. lra.
Qed.

Lemma hard_second_pass :
  exists st,
    _apply_limiter hard_limiter_config [1] false None
    = Ok ([0.6 + 0.4 * exp (- 0.625)], st).
Proof.
  destruct (apply_limiter_ok hard_limiter_config [1] false None eq_refl
              ltac:(discriminate)) as [st E].
  exists st. rewrite E. do 2 f_equal.
  rewrite hard_limiter_threshold, hard_limiter_attack.
  assert (H1 : Rabs 1 = 1) by (apply Rabs_right; lra).
  rewrite limiter_loop_single_attack by (rewrite ?H1; lra).
  rewrite H1. pose proof exp_minus_0625_bounds as Hb.
  cbn [np_clip map]. f_equal.
  rewrite Rmax_left by lra. rewrite Rmin_left by lra. lra.
Qed.

(** A factor below [10 ** (-1/40)] is more than half a decibel. *)
Lemma over_half_db_factor (v : R) :
  0 < v -> v ^ 40 < 1 / 10 -> 20 * log10 v < - 0.5.
Proof.
  intros Hv Hpow.
  assert (H : ln (v ^ 40) < ln (1 / 10))
    by (apply ln_increasing; [apply pow_lt; exact Hv | exact Hpow]).
  rewrite ln_pow in H by exact Hv.
  replace (1 / 10) with (/ 10) in H by lra.
  rewrite ln_Rinv in H by lra.
  rewrite INR_IZR_INZ in H. change (IZR (Z.of_nat 40)) with 40 in H.
  pose proof ln_10_pos as H10. unfold log10.
  apply Rmult_lt_reg_r with (ln 10); [exact H10 |].
  replace (20 * (ln v / ln 10) * ln 10) with (20 * ln v) by (field; lra).
  lra.
Qed.

(** C8, as stated, fails: at threshold 0.6 and attack 0.1 ms the one-sample
    signal [2] is limited to [1] (peak 0 dBFS), and limiting [1] again gives
    [0.6 + 0.4 * exp(-0.625)], about 0.81: a peak more than 0.5 dB lower. *)
Lemma relimit_changes_peak_at_low_threshold :
  exists (twice : list R) (st1 st2 : dict),
    _apply_limiter hard_limiter_config [2] false None = Ok ([1], st1)
    /\ _apply_limiter hard_limiter_config [1] false None = Ok (twice, st2)
    /\ _estimate_peak_dbfs [1] = 0
    /\ _estimate_peak_dbfs twice < - 0.5
    /\ ~ Rabs (_estimate_peak_dbfs twice - _estimate_peak_dbfs [1]) < 0.5.
Proof.
  destruct hard_first_pass as [st1 E1]. destruct hard_second_pass as [st2 E2].
  exists [0.6 + 0.4 * exp (- 0.625)], st1, st2.
  pose proof exp_minus_0625_bounds as Hb.
  assert (P1 : _estimate_peak_dbfs [1] = 0).
  { unfold _estimate_peak_dbfs. cbn [np_abs map fold_left].
    rewrite (Rabs_right 1) by lra. rewrite Rmax_left by lra.
    unfold log10. rewrite ln_1. lra. }
  assert (P2 : _estimate_peak_dbfs [0.6 + 0.4 * exp (- 0.625)] < - 0.5).
  { unfold _estimate_peak_dbfs. cbn [np_abs map fold_left].
    rewrite Rabs_right by lra. rewrite Rmax_left by lra.
    apply over_half_db_factor; [lra |].
    apply Rle_lt_trans with ((17 / 20) ^ 40); [apply pow_incr; lra | lra]. }
  repeat split; try assumption.
  rewrite P1. intros H. apply Rabs_def2 in H. lra.
Qed.

End LimiterIdempotence.

(* ================================================================== *)
(** * PCM16 conversion *)
(* ================================================================== *)

Section PcmConversion.

(** Their products with 32767.0 are exactly 2.5 and -2.5 in float32. *)
Lemma tie_sample_product :
  valid_binary F32.prec F32.emax F32.tie_sample = true
  /\ SFmul F32.prec F32.emax (F32.np_clip1 F32.tie_sample) (F32.of_Z 32767)
     = S754_finite false 10485760 (-22)
  /\ SFmul F32.prec F32.emax (F32.np_clip1 F32.tie_sample_neg) (F32.of_Z 32767)
     = S754_finite true 10485760 (-22).
Proof. repeat split; vm_compute; reflexivity. Qed.


(** *** Decoding is exact in binary32 *)

Lemma z_range_In (n : nat) :
  forall (lo k : Z),
    (lo <= k < lo + Z.of_nat n)%Z -> In k (F32.z_range lo n).
Proof.
  induction n as [| n IH]; intros lo k Hk; [lia |].
  cbn [F32.z_range].
  destruct (Z.eq_dec lo k) as [-> | Hne]; [now left | right].
  apply IH. lia.
Qed.


Lemma IZR_pow2 (n : Z) : (0 <= n)%Z -> IZR (2 ^ n) = powerRZ 2 n.
Proof.
  intros Hn. destruct n as [| p | p]; [reflexivity | | lia].
  change (2 ^ Z.pos p)%Z with (Z.pow_pos 2 p).
  apply Zpower_pos_powerRZ.
Qed.



(** *** [np.round] on binary32 rounds the value the float stands for *)

Lemma round_dyadic_even (m : positive) (e : Z) :
  F32.round_dyadic Z.odd m e = round_half_even (IZR (Z.pos m) * powerRZ 2 e).
Proof.
  destruct e as [| p | p]; cbn [F32.round_dyadic].
  - rewrite powerRZ_O, Rmult_1_r. now rewrite round_half_even_IZR.
  - rewrite <- IZR_pow2, <- mult_IZR by lia. now rewrite round_half_even_IZR.
  - set (d := (2 ^ Z.pos p)%Z).
    assert (Hd : (0 < d)%Z) by (subst d; apply Z.pow_pos_nonneg; lia).
    pose proof (Z.div_mod (Z.pos m) d ltac:(lia)) as Hdm.
    pose proof (Z.mod_pos_bound (Z.pos m) d Hd) as Hr.
    set (q := (Z.pos m / d)%Z) in *. set (r := (Z.pos m mod d)%Z) in *.
    assert (HD : 0 < IZR d) by (apply IZR_lt; exact Hd).
    assert (Hv : IZR (Z.pos m) * powerRZ 2 (Z.neg p) = IZR q + IZR r / IZR d).
    { replace (powerRZ 2 (Z.neg p)) with (/ IZR d)
        by (subst d; rewrite IZR_pow2 by lia; reflexivity).
      rewrite Hdm, plus_IZR, mult_IZR. field. lra. }
    rewrite Hv.
    assert (Hr0 : 0 <= IZR r) by (apply IZR_le; lia).
    destruct (2 * r ?= d)%Z eqn:Ecmp.
    + apply Z.compare_eq in Ecmp.
      assert (Hhalf : IZR r / IZR d = 1 / 2).
      { rewrite <- Ecmp, mult_IZR. field. intros E0. rewrite E0 in Hr0.
        rewrite <- Ecmp, mult_IZR, E0 in HD. lra. }
      rewrite Hhalf.
      destruct (Z.odd q) eqn:Eodd; apply round_half_even_unique.
      * rewrite plus_IZR. apply Rabs_le. lra.
      * intros _. now rewrite Z.even_add, <- Z.negb_odd, Eodd.
      * apply Rabs_le. lra.
      * intros _. now rewrite <- Z.negb_odd, Eodd.
    + apply Z.compare_lt_iff in Ecmp. apply IZR_lt in Ecmp.
      rewrite mult_IZR in Ecmp.
      assert (Ht : 0 <= IZR r / IZR d < 1 / 2).
      { split.
        - apply Rmult_le_pos; [exact Hr0 | left; now apply Rinv_0_lt_compat].
        - apply Rmult_lt_reg_r with (IZR d); [exact HD |].
          unfold Rdiv. rewrite Rmult_assoc, Rinv_l by lra. lra. }
      apply round_half_even_unique.
      * apply Rabs_le. lra.
      * intros H. rewrite Rabs_left1 in H by lra. lra.
    + apply Z.compare_gt_iff in Ecmp. apply IZR_lt in Ecmp.
      rewrite mult_IZR in Ecmp.
      assert (Hrd : IZR r < IZR d) by (apply IZR_lt; lia).
      assert (Ht : 1 / 2 < IZR r / IZR d < 1).
      { assert (Hc : IZR r / IZR d * IZR d = IZR r) by (field; lra).
        split; apply Rmult_lt_reg_r with (IZR d); try exact HD;
          rewrite Hc; lra. }
      apply round_half_even_unique.
      * rewrite plus_IZR. apply Rabs_le. lra.
      * intros H. rewrite plus_IZR, Rabs_right in H by lra. lra.
Qed.

(** [np.round(x).astype(np.int16)] on a float32 is the idealised rounding
    of the real number [x] stands for. *)
Lemma f32_np_round_int_value (x : spec_float) :
  F32.np_round_int x =
  match x with
  | S754_zero _ | S754_finite _ _ _ =>
      Some (astype_int16 (round_half_even (F32.to_R x)))
  | _ => None
  end.
Proof.
  destruct x as [s | s | | s m e]; cbn [F32.np_round_int F32.to_R];
    try reflexivity.
  - change 0 with (IZR 0). now rewrite round_half_even_IZR.
  - do 2 f_equal. rewrite round_dyadic_even. destruct s; [| reflexivity].
    change (Z.neg m) with (- Z.pos m)%Z.
    rewrite opp_IZR, Ropp_mult_distr_l_reverse.
    now rewrite round_half_even_opp.
Qed.

(** The float32 conversion is the idealised one applied to the float32
    product: the two differ only by the rounding of [clipped * 32767.0]. *)
Lemma f32_float_to_pcm16_value (x : spec_float) :
  F32._float_to_pcm16 x =
  F32.np_round_int (SFmul F32.prec F32.emax (F32.np_clip1 x) (F32.of_Z 32767)).
Proof. reflexivity. Qed.

Lemma astype_int16_id (z : Z) :
  (-32768 <= z <= 32767)%Z -> astype_int16 z = z.
Proof.
  intros Hz. unfold astype_int16. rewrite Z.mod_small by lia. lia.
Qed.

(** *** The byte image of an int16 array *)

Lemma Z_of_byte_of_Z (z : Z) : Z_of_byte (byte_of_Z z) = (z mod 256)%Z.
Proof.
  unfold Z_of_byte, byte_of_Z.
  pose proof (Z.mod_pos_bound z 256 ltac:(lia)) as Hb.
  destruct (Byte.of_N (Z.to_N (z mod 256))) as [b |] eqn:E.
  - apply Byte.to_of_N in E. rewrite E. lia.
  - apply Byte.of_N_None_iff in E. lia.
Qed.

(** Decoding the bytes of an int16 array gives the array back. *)
Lemma int16_bytes_roundtrip (a : list Z) :
  Forall (fun k => (-32768 <= k <= 32767)%Z) a ->
  np_frombuffer_int16 (int16_tobytes a) = Ok a.
Proof.
  induction 1 as [| k a Hk _ IH]; [reflexivity |].
  cbn [int16_tobytes flat_map app] in *. cbn [np_frombuffer_int16].
  unfold int16_tobytes in IH. rewrite IH.
  rewrite !Z_of_byte_of_Z. do 2 f_equal.
  pose proof (Z.mod_pos_bound k 65536 ltac:(lia)) as Hu.
  set (u := (k mod 65536)%Z) in *.
  assert (Hsum : (u mod 256 + 256 * ((u / 256) mod 256) = u)%Z).
  { rewrite (Z.mod_small (u / 256)).
    - pose proof (Z.div_mod u 256 ltac:(lia)). lia.
    - split; [apply Z.div_pos; lia | apply Z.div_lt_upper_bound; lia]. }
  rewrite Hsum.
  destruct (u <? 32768)%Z eqn:E.
  - apply Z.ltb_lt in E. subst u.
    destruct (Z_lt_ge_dec k 0) as [Hneg | Hpos].
    + rewrite <- (Z.mod_add k 1 65536) in E by lia.
      rewrite Z.mod_small in E by lia. lia.
    + rewrite Z.mod_small by lia. reflexivity.
  - apply Z.ltb_ge in E. subst u.
    destruct (Z_lt_ge_dec k 0) as [Hneg | Hpos].
    + rewrite <- (Z.mod_add k 1 65536) by lia.
      rewrite Z.mod_small by lia. lia.
    + rewrite Z.mod_small in E by lia. lia.
Qed.

Example int16_bytes_example :
  int16_tobytes [1; -2; 32767; -32768]%Z
  = [x01; x00; xfe; xff; xff; x7f; x00; x80]
  /\ np_frombuffer_int16 [x01; x00; xfe; xff; xff; x7f; x00; x80]
     = Ok [1; -2; 32767; -32768]%Z
  /\ np_frombuffer_int16 [x01; x00; xfe]
     = Raise (Exc "ValueError" "buffer size must be a multiple of element size").
Proof. repeat split; vm_compute; reflexivity. Qed.

Example frames_example :
  frames 2 [1; 2; 3; 4; 5]%Z = [[1; 2]; [3; 4]; [5]]%Z
  /\ frames 160 [1; 2; 3]%Z = [[1; 2; 3]]%Z
  /\ frames 1 (@nil Z) = [].
Proof. repeat split; reflexivity. Qed.








End PcmConversion.

(* ================================================================== *)
(** * The pipeline returns, one output sample per input sample *)
(* ================================================================== *)

Section PipelineTotality.

Lemma hpf_loop_length (alpha prev_out prev_in : R) (rest : list R) :
  length (hpf_loop alpha prev_out prev_in rest) = length rest.
Proof.
  revert prev_out prev_in.
  induction rest as [| x rest IH]; intros prev_out prev_in; cbn;
    [reflexivity | now rewrite IH].
Qed.

(** At a positive sample rate the filter does not divide by zero. *)
Lemma hpf_returns (x : list R) (cutoff_hz : R) (sample_rate : Z) :
  (0 < sample_rate)%Z ->
  exists out st,
    _apply_high_pass_filter x cutoff_hz sample_rate = Ok (out, st)
    /\ length out = length x.
Proof.
  intros Hsr. unfold _apply_high_pass_filter.
  destruct ((length x <? 2)%nat || Rleb cutoff_hz 0) eqn:E; [eauto |].
  apply orb_false_iff in E. destruct E as [_ Hc]. apply Rleb_false in Hc.
  assert (Hrate : 0 < IZR sample_rate) by (apply IZR_lt; exact Hsr).
  unfold py_div.
  destruct (Req_dec_T (IZR sample_rate) 0) as [E0 | _]; [lra |].
  assert (Hdt : 0 < 1 / IZR sample_rate) by (apply Rdiv_lt_0_compat; lra).
  assert (Hrc : 0 < 1 / (2 * PI * cutoff_hz)).
  { pose proof PI_RGT_0. apply Rdiv_lt_0_compat; [lra | nra]. }
  destruct (Req_dec_T (1 / (2 * PI * cutoff_hz) + 1 / IZR sample_rate) 0)
    as [E0 | _]; [lra |].
  do 2 eexists. split; [reflexivity |].
  destruct x as [| x0 x]; cbn; [reflexivity | now rewrite hpf_loop_length].
Qed.

Lemma frames_fuel_bound {A : Type} (n fuel : nat) :
  forall (a : list A) (c : list A),
    In c (frames_fuel fuel n a) -> (length c <= n)%nat.
Proof.
  induction fuel as [| fuel IH]; intros a c Hin; [contradiction |].
  destruct a as [| x a]; [contradiction |].
  cbn [frames_fuel] in Hin. destruct Hin as [<- | Hin].
  - apply firstn_le_length.
  - now apply IH in Hin.
Qed.

Lemma ns_frame_fills {St : Type} (apm : APM St) (st : St) (frame_size : nat)
    (frame : list R) (log0 : Log) (out_frame : list R) (st' : St) (log : Log) :
  ns_frame apm st frame_size frame log0 = (Ok (out_frame, st'), log) ->
  (frame_size <= length out_frame)%nat.
Proof.
  unfold ns_frame, bind, call.
  destruct (process_stream apm st _) as [[out_payload st1] | e]; [| discriminate].
  destruct (match out_payload with
            | PBytes b => ret b
            | PStr s => lift (encode_latin1 s)
            end _) as [[out_bytes | e] l2]; [| discriminate].
  unfold lift, ret.
  destruct (np_frombuffer_int16 out_bytes) as [ints | e]; [| discriminate].
  intros H. injection H as <- _ _.
  destruct (_ <? _)%nat eqn:E.
  - apply Nat.ltb_lt in E. unfold np_pad_right.
    rewrite length_app, repeat_length. lia.
  - apply Nat.ltb_ge in E. exact E.
Qed.

Lemma ns_loop_length {St : Type} (apm : APM St) (frame_size : nat)
    (chunks : list (list R)) :
  (forall c, In c chunks -> (length c <= frame_size)%nat) ->
  forall (st : St) (processed : list R) (n : Z) (log0 : Log)
         (out : list R) (n' : Z) (log : Log),
    ns_loop apm st frame_size chunks processed n log0 = (Ok (out, n'), log) ->
    length out = (length processed + length (concat chunks))%nat.
Proof.
  induction chunks as [| chunk rest IH];
    intros Hb st processed n log0 out n' log; cbn [ns_loop concat].
  - unfold ret. intros H. injection H as <- _ _. cbn. lia.
  - unfold bind at 1.
    destruct (ns_frame _ _ _ _ _) as [[[out_frame st'] | e] log1] eqn:Ef;
      [| discriminate].
    intros H. apply IH in H; [| intros c Hc; apply Hb; now right].
    apply ns_frame_fills in Ef.
    pose proof (Hb chunk (or_introl eq_refl)).
    rewrite H, !length_app, length_firstn. lia.
Qed.

Lemma ns_returns {St : Type} (apm : option (APM St)) (rn df sp : bool)
    (config : EnhancementV2Config) (x : list R) (sample_rate : Z)
    (log0 : Log) :
  exists out st log,
    _apply_noise_suppression apm rn df sp config x sample_rate log0
      = (Ok (out, st), log)
    /\ length out = length x.
Proof.
  unfold _apply_noise_suppression.
  destruct (ns_engine config =? "off")%string; [unfold ret; eauto 6 |].
  destruct (plugin_fallback _ _ rn _) as [req1 | tag]; [| unfold ret; eauto 6].
  destruct (plugin_fallback _ _ df _) as [req2 | tag]; [| unfold ret; eauto 6].
  destruct (plugin_fallback _ _ sp _) as [req3 | tag]; [| unfold ret; eauto 6].
  destruct (negb (req3 =? "webrtc")%string); [unfold ret; eauto 6 |].
  destruct apm as [apm |]; [| unfold ret; eauto 6].
  destruct (_ <? _)%Z; [unfold ret; eauto 6 |].
  destruct _map_agc_params as [agc_target agc_level].
  unfold bind at 1. unfold try_except at 1. unfold bind at 1.
  destruct (apm_init _ _ _ _ _ _) as [[st | e] log1]; [| unfold ret; eauto 6].
  unfold ret at 1. unfold try_except. unfold bind at 1.
  destruct (ns_loop _ _ _ _ _ _ _) as [[[processed n] | e] log2] eqn:Eloop;
    [| unfold ret; eauto 6].
  unfold ret. do 3 eexists. split; [reflexivity |].
  apply ns_loop_length in Eloop.
  - rewrite Eloop. cbn [length]. rewrite frames_concat; [reflexivity | lia].
  - intros c Hc. unfold frames in Hc. now apply frames_fuel_bound in Hc.
Qed.

Lemma restore_non_speech_length (out x : list R) (mask : list bool) :
  length (restore_non_speech out x mask) = length out.
Proof.
  revert x mask. induction out as [| o out IH]; intros x mask; [reflexivity |].
  destruct x as [| s x]; [reflexivity |].
  destruct mask as [| m mask]; [reflexivity |].
  cbn. now rewrite IH.
Qed.

Lemma rms_target_length (config : EnhancementV2Config) (x : list R) :
  length (fst (_apply_rms_target config x)) = length x.
Proof. unfold _apply_rms_target. cbn [fst]. apply length_map. Qed.

Lemma loudness_length (pyln : option Pyln) (config : EnhancementV2Config)
    (x : list R) (sample_rate : Z) (mask : option (list bool)) :
  length (fst (_apply_loudness_stage pyln config x sample_rate mask)) = length x.
Proof.
  unfold _apply_loudness_stage.
  destruct (loudness_strategy config =? "lufs")%string.
  - unfold _apply_lufs_normalization.
    pose proof (rms_target_length config x) as Hrms.
    destruct (_apply_rms_target config x) as [fallback fallback_stats].
    cbn [fst] in Hrms.
    destruct pyln as [meter |]; [| exact Hrms].
    destruct (_ <? _)%Z; [exact Hrms |].
    destruct (integrated_loudness _ _ _); [| exact Hrms].
    cbn [fst]. apply length_map.
  - destruct (loudness_strategy config =? "dynaudnorm")%string.
    + destruct (dynaudnorm_shape config x sample_rate mask) as [pre [Hpre ->]].
      destruct mask as [m |]; [| exact Hpre].
      destruct (_ =? _)%nat; [| exact Hpre].
      now rewrite restore_non_speech_length.
    + apply rms_target_length.
Qed.

Lemma compressor_ok (config : EnhancementV2Config) (x : list R) :
  x <> [] ->
  exists st,
    _apply_upward_compressor config x
    = Ok (map fst (upward_compressor_run config x), st).
Proof.
  intros Hne. unfold _apply_upward_compressor.
  destruct x as [| v x]; [congruence |].
  unfold upward_compressor_run. cbn [compressor_loop map np_max].
  eexists. reflexivity.
Qed.

Lemma dynamics_returns (config : EnhancementV2Config) (x : list R) :
  x <> [] ->
  exists out st,
    _apply_dynamics_stage config x = Ok (out, st) /\ length out = length x.
Proof.
  intros Hne. unfold _apply_dynamics_stage.
  destruct (dynamics config =? "off")%string; [eauto |].
  destruct (compressor_ok config x Hne) as [cst ->].
  assert (Hlen : length (map fst (upward_compressor_run config x)) = length x).
  { unfold upward_compressor_run. now rewrite length_map, compressor_loop_length. }
  destruct (dynamics config =? "upward_comp")%string; [eauto |].
  assert (Hne' : map fst (upward_compressor_run config x) <> []).
  { intros E. rewrite E in Hlen. destruct x; [congruence | discriminate]. }
  destruct (apply_limiter_ok config _ true
              (Some (Rmin (threshold (limiter config)) 0.99)) eq_refl Hne')
    as [lst ->].
  do 2 eexists. split; [reflexivity |].
  now rewrite np_clip_length, length_map, limiter_loop_length.
Qed.

Lemma limiter_returns (config : EnhancementV2Config) (x : list R) :
  x <> [] ->
  exists out st,
    _apply_limiter config x false None = Ok (out, st) /\ length out = length x.
Proof.
  intros Hne. destruct (enabled (limiter config)) eqn:Hen.
  - destruct (apply_limiter_ok config x false None Hen Hne) as [st ->].
    do 2 eexists. split; [reflexivity |].
    now rewrite np_clip_length, length_map, limiter_loop_length.
  - rewrite apply_limiter_disabled by exact Hen. eauto.
Qed.

Lemma nonempty_of_length {A B : Type} (a : list A) (b : list B) :
  length a = length b -> b <> [] -> a <> [].
Proof. intros H Hb ->. destruct b; [congruence | discriminate]. Qed.

(** On a non-empty input at a positive sample rate [process] returns, with
    as many samples as it was given, whatever the backends do. *)
Lemma process_returns :
  forall {St : Type} (apm : option (APM St)) (rn df sp : bool)
         (pyln : option Pyln) (config : EnhancementV2Config)
         (input : list R) (sample_rate : Z) (mask : option (list bool)),
    input <> [] -> (0 < sample_rate)%Z ->
    exists res log,
      run (process apm rn df sp pyln config input sample_rate mask)
        = (Ok res, log)
      /\ length (signal res) = length input.
Proof.
  intros St apm rn df sp pyln config input sample_rate mask Hne Hsr.
  unfold run, process.
  destruct input as [| x0 input]; [congruence |].
  cbn [length Nat.eqb].
  set (work0 := np_clip (x0 :: input) (-1) 1).
  assert (H0 : length work0 = length (x0 :: input)) by apply np_clip_length.
  unfold _apply_dc_removal.
  set (work1 := map _ work0).
  assert (H1 : length work1 = length (x0 :: input))
    by (subst work1; now rewrite length_map).
  destruct (hpf_returns work1 (hpf_cutoff_hz config) sample_rate Hsr)
    as [work2 [st2 [E2 H2]]].
  unfold bind at 1. unfold lift at 1. rewrite E2.
  destruct (ns_returns apm rn df sp config work2 sample_rate [])
    as [work3 [st3 [log3 [E3 H3]]]].
  unfold bind at 1. rewrite E3.
  pose proof (loudness_length pyln config work3 sample_rate mask) as H4.
  destruct (_apply_loudness_stage pyln config work3 sample_rate mask)
    as [work4 st4].
  cbn [fst] in H4.
  assert (Hne4 : work4 <> []).
  { apply (nonempty_of_length _ (x0 :: input)); [congruence | discriminate]. }
  destruct (dynamics_returns config work4 Hne4) as [work5 [st5 [E5 H5]]].
  unfold bind at 1. unfold lift at 1. rewrite E5.
  assert (Hne5 : work5 <> []).
  { apply (nonempty_of_length _ (x0 :: input)); [congruence | discriminate]. }
  destruct (limiter_returns config work5 Hne5) as [work6 [st6 [E6 H6]]].
  unfold bind at 1. unfold lift at 1. rewrite E6.
  unfold ret. do 2 eexists. split; [reflexivity |].
  cbn [signal length] in *. lia.
Qed.

(** [process_returns] at the default configuration with no plugin
    installed. *)
Lemma process_returns_example :
  exists res log,
    run (process (St := unit) None false false false None default_config
           [2; -3] 16000 None) = (Ok res, log)
    /\ length (signal res) = 2%nat.
Proof.
  apply (process_returns (St := unit) None false false false None
           default_config [2; -3] 16000 None); [discriminate | lia].
Defined.


(** *** Stages that hand their input through *)




(** X2.  With a cutoff at or below zero, or fewer than two samples, the
    high-pass filter returns its input and reports [hpf_enabled = False]. *)
Theorem hpf_pass_through :
  forall (x : list R) (cutoff_hz : R) (sample_rate : Z),
    (length x < 2)%nat \/ cutoff_hz <= 0 ->
    _apply_high_pass_filter x cutoff_hz sample_rate
    = Ok (x, [("hpf_enabled", VBool false)]).
Proof.
  intros x cutoff_hz sample_rate [H | H]; unfold _apply_high_pass_filter.
  - apply Nat.ltb_lt in H. now rewrite H.
  - apply Rleb_true in H. now rewrite H, orb_true_r.
Qed.

Lemma hpf_pass_through_example :
  _apply_high_pass_filter [1 / 2] 80 0 = Ok ([1 / 2], [("hpf_enabled", VBool false)]).
Proof.
  apply (hpf_pass_through [1 / 2] 80 0). left. cbn. lia.
Defined.

(** X3.  With the engine [off] the noise-suppression stage returns its
    input, reports [ns_backend = off] and calls no backend. *)
Theorem ns_off_pass_through :
  forall {St : Type} (apm : option (APM St)) (rn df sp : bool)
         (config : EnhancementV2Config) (x : list R) (sample_rate : Z),
    ns_engine config = "off" ->
    run (_apply_noise_suppression apm rn df sp config x sample_rate)
    = (Ok (x, [("ns_backend", VStr "off")]), []).
Proof.
  intros St apm rn df sp config x sample_rate H.
  unfold run, _apply_noise_suppression. rewrite H. reflexivity.
Qed.

Lemma ns_off_pass_through_example :
  run (_apply_noise_suppression (Some (flaky_apm 0)) true true true
         unlimited_config [1 / 2; 1 / 4] 16000)
  = (Ok ([1 / 2; 1 / 4], [("ns_backend", VStr "off")]), []).
Proof.
  apply (ns_off_pass_through (Some (flaky_apm 0)) true true true
           unlimited_config [1 / 2; 1 / 4] 16000).
  reflexivity.
Defined.

End PipelineTotality.

(* ================================================================== *)
(** * Level estimates *)
(* ================================================================== *)

Section LevelEstimates.

Lemma log10_1e7 : log10 1e-7 = -7.
Proof.
  replace 1e-7 with (Rpower 10 (-7)).
  - apply log10_Rpower.
  - replace (Rpower 10 (-7)) with (/ Rpower 10 (INR 7)).
    + rewrite Rpower_pow by lra. simpl. lra.
    + rewrite <- Rpower_Ropp. f_equal. simpl. lra.
Qed.

Lemma log10_floor (v : R) : -140 <= 20 * log10 (Rmax v 1e-7).
Proof.
  assert (H : log10 1e-7 <= log10 (Rmax v 1e-7)).
  { apply log10_le; [lra | apply Rmax_r]. }
  rewrite log10_1e7 in H. lra.
Qed.

Lemma log10_Rmax_le (u v : R) :
  u <= v -> 20 * log10 (Rmax u 1e-7) <= 20 * log10 (Rmax v 1e-7).
Proof.
  intros H.
  assert (log10 (Rmax u 1e-7) <= log10 (Rmax v 1e-7)).
  { apply log10_le.
    - apply Rlt_le_trans with 1e-7; [lra | apply Rmax_r].
    - apply Rle_max_compat_r. exact H. }
  lra.
Qed.

Lemma np_sum_le (a : list R) (M : R) :
  Forall (fun v => v <= M) a -> np_sum a <= INR (length a) * M.
Proof.
  induction 1 as [| v a Hv _ IH].
  - simpl. unfold np_sum. simpl. lra.
  - unfold np_sum in *. cbn [fold_right length]. rewrite S_INR. lra.
Qed.

Lemma np_sum_ge (a : list R) (m : R) :
  Forall (fun v => m <= v) a -> INR (length a) * m <= np_sum a.
Proof.
  induction 1 as [| v a Hv _ IH].
  - simpl. unfold np_sum. simpl. lra.
  - unfold np_sum in *. cbn [fold_right length]. rewrite S_INR. lra.
Qed.

Lemma np_mean_bounds (a : list R) (m M : R) :
  a <> [] -> Forall (fun v => m <= v <= M) a -> m <= np_mean a <= M.
Proof.
  intros Hne Hall.
  assert (Hn : 0 < INR (length a)).
  { apply lt_0_INR. destruct a; [contradiction | simpl; lia]. }
  assert (Hle : np_sum a <= INR (length a) * M).
  { apply np_sum_le. eapply Forall_impl; [| exact Hall]. simpl. intros; lra. }
  assert (Hge : INR (length a) * m <= np_sum a).
  { apply np_sum_ge. eapply Forall_impl; [| exact Hall]. simpl. intros; lra. }
  unfold np_mean. split.
  - apply Rmult_le_reg_r with (INR (length a)); [exact Hn |].
    unfold Rdiv. rewrite Rmult_assoc, Rinv_l by lra. lra.
  - apply Rmult_le_reg_r with (INR (length a)); [exact Hn |].
    unfold Rdiv. rewrite Rmult_assoc, Rinv_l by lra. lra.
Qed.

Lemma rms_le_peak (x : list R) :
  x <> [] -> sqrt (np_mean (np_square x)) <= peak_of x.
Proof.
  intros Hne.
  pose proof (peak_of_nonneg x) as Hp.
  assert (Hb : 0 <= np_mean (np_square x) <= peak_of x * peak_of x).
  { apply np_mean_bounds.
    - unfold np_square. destruct x; [contradiction | discriminate].
    - unfold np_square. apply Forall_forall. intros v Hv.
      apply in_map_iff in Hv. destruct Hv as [u [<- Hu]].
      pose proof (peak_of_upper x u Hu) as Hup.
      pose proof (Rabs_pos u).
      assert (u * u = Rabs u * Rabs u).
      { unfold Rabs. destruct (Rcase_abs u); lra. }
      split; [nra | nra]. }
  rewrite <- (sqrt_square (peak_of x)) by exact Hp.
  apply sqrt_le_1_alt. lra.
Qed.

Lemma insert_sorted_In (v x : R) (l : list R) :
  In v (insert_sorted x l) <-> v = x \/ In v l.
Proof.
  induction l as [| y t IH]; simpl.
  - intuition.
  - destruct (Rle_dec x y); simpl; [intuition | rewrite IH; intuition].
Qed.

Lemma np_sort_In (v : R) (a : list R) : In v (np_sort a) <-> In v a.
Proof.
  induction a as [| x a IH]; simpl; [tauto |].
  rewrite insert_sorted_In, IH. intuition.
Qed.

Lemma insert_sorted_length (x : R) (l : list R) :
  length (insert_sorted x l) = S (length l).
Proof.
  induction l as [| y t IH]; simpl; [reflexivity |].
  destruct (Rle_dec x y); simpl; [reflexivity | now rewrite IH].
Qed.

Lemma np_sort_length (a : list R) : length (np_sort a) = length a.
Proof.
  induction a as [| x a IH]; simpl; [reflexivity |].
  now rewrite insert_sorted_length, IH.
Qed.

(** A percentile lies between the smallest and the largest element. *)
Lemma np_percentile_bounds (a : list R) (q : Z) (m M : R) :
  a <> [] -> (0 <= q <= 100)%Z ->
  Forall (fun v => m <= v <= M) a ->
  m <= np_percentile a q <= M.
Proof.
  intros Hne Hq Hall. unfold np_percentile.
  set (n := Z.of_nat (length a)).
  assert (Hn : (1 <= n)%Z).
  { unfold n. destruct a; [contradiction | simpl length; lia]. }
  set (pos := (q * (n - 1))%Z).
  assert (Hpos : (0 <= pos <= 100 * (n - 1))%Z) by (unfold pos; nia).
  set (lo := (pos / 100)%Z).
  assert (Hlo : (0 <= lo <= n - 1)%Z).
  { unfold lo. split.
    - apply Z.div_pos; lia.
    - apply Z.div_le_upper_bound; lia. }
  set (hi := Z.min (lo + 1) (n - 1)).
  assert (Hhi : (0 <= hi <= n - 1)%Z) by (unfold hi; lia).
  assert (Hnth : forall i, (0 <= i <= n - 1)%Z ->
                           m <= nth (Z.to_nat i) (np_sort a) 0 <= M).
  { intros i Hi.
    assert (Hin : In (nth (Z.to_nat i) (np_sort a) 0) (np_sort a)).
    { apply nth_In. rewrite np_sort_length. unfold n in Hi. lia. }
    apply (proj1 (np_sort_In _ _)) in Hin.
    rewrite Forall_forall in Hall. exact (Hall _ Hin). }
  pose proof (Hnth lo Hlo) as Ha. pose proof (Hnth hi Hhi) as Hb.
  set (alo := nth (Z.to_nat lo) (np_sort a) 0) in *.
  set (ahi := nth (Z.to_nat hi) (np_sort a) 0) in *.
  assert (Hf : 0 <= IZR (pos mod 100) / 100 < 1).
  { pose proof (Z.mod_pos_bound pos 100 ltac:(lia)) as Hm.
    assert (0 <= IZR (pos mod 100)) by (apply IZR_le; lia).
    assert (IZR (pos mod 100) < 100) by (apply IZR_lt; lia).
    lra. }
  set (f := IZR (pos mod 100) / 100) in *.
  split; nra.
Qed.

Lemma np_abs_bounds (x : list R) :
  Forall (fun v => 0 <= v <= peak_of x) (np_abs x).
Proof.
  apply Forall_forall. intros v Hv. unfold np_abs in Hv.
  apply in_map_iff in Hv. destruct Hv as [u [<- Hu]].
  split; [apply Rabs_pos | apply peak_of_upper; exact Hu].
Qed.

Lemma peak_of_unit (x : list R) : Forall in_unit_range x -> peak_of x <= 1.
Proof.
  intros Hall. destruct x as [| a t].
  - unfold peak_of. simpl. lra.
  - destruct (peak_of_attained (a :: t)) as [v [Hv ->]]; [discriminate |].
    rewrite Forall_forall in Hall. specialize (Hall _ Hv).
    unfold in_unit_range in Hall. apply Rabs_le. lra.
Qed.

(** X4.  Level estimates.  For a non-empty signal the three estimates are
    ordered: the RMS level and the noise floor (20th percentile of the
    magnitudes) never exceed the peak level, none is below -140 dB (the
    floor [1e-7] inside the logarithm), and the peak level of a signal within
    full scale is at most 0 dBFS.  An empty signal reads -120 dB on all
    three. *)
Theorem level_estimates_ordered :
  forall (x : list R),
    (x <> [] ->
     -140 <= _estimate_rms_dbfs x <= _estimate_peak_dbfs x
     /\ -140 <= _estimate_noise_floor_db x <= _estimate_peak_dbfs x
     /\ (Forall in_unit_range x -> _estimate_peak_dbfs x <= 0))
    /\ (x = [] ->
        _estimate_rms_dbfs x = -120 /\ _estimate_peak_dbfs x = -120
        /\ _estimate_noise_floor_db x = -120).
Proof.
  intros x. split.
  - intros Hne. rewrite (estimate_peak_dbfs_nonempty x Hne).
    assert (Hrms : _estimate_rms_dbfs x
                   = 20 * log10 (Rmax (sqrt (np_mean (np_square x))) 1e-7)).
    { destruct x; [contradiction | reflexivity]. }
    assert (Hnf : _estimate_noise_floor_db x
                  = 20 * log10 (Rmax (np_percentile (np_abs x) 20) 1e-7)).
    { destruct x; [contradiction | reflexivity]. }
    rewrite Hrms, Hnf. repeat split.
    + apply log10_floor.
    + apply log10_Rmax_le, rms_le_peak, Hne.
    + apply log10_floor.
    + apply log10_Rmax_le.
      apply (np_percentile_bounds (np_abs x) 20 0 (peak_of x)).
      * unfold np_abs. destruct x; [contradiction | discriminate].
      * lia.
      * apply np_abs_bounds.
    + intros Hall. pose proof (peak_of_unit x Hall) as Hp.
      assert (H1 : log10 (Rmax (peak_of x) 1e-7) <= log10 1).
      { apply log10_le.
        - apply Rlt_le_trans with 1e-7; [lra | apply Rmax_r].
        - apply Rmax_lub; lra. }
      unfold log10 in H1 at 2. rewrite ln_1 in H1. lra.
  - intros ->. repeat split; reflexivity.
Qed.

End LevelEstimates.

(* ================================================================== *)
(** * [_clamp] and the high-pass filter *)
(* ================================================================== *)

Section ClampAndHighPass.

(** X5.  [_clamp].  With ordered bounds the result lies within them and a
    value already inside is returned unchanged; with inverted bounds
    ([upper < lower]) the lower bound wins, whatever the value. *)
Theorem clamp_bounds :
  forall (value lower upper : R),
    (lower <= upper ->
     lower <= _clamp value lower upper <= upper
     /\ (lower <= value <= upper -> _clamp value lower upper = value)
     /\ (value <= lower -> _clamp value lower upper = lower)
     /\ (upper <= value -> _clamp value lower upper = upper))
    /\ (upper < lower -> _clamp value lower upper = lower).
Proof.
  intros v lo hi. unfold _clamp. split.
  - intros Hle. repeat split.
    + apply Rmax_l.
    + apply Rmax_lub; [exact Hle | apply Rmin_l].
    + intros [H1 H2]. rewrite Rmin_right by exact H2. apply Rmax_right, H1.
    + intros H. rewrite Rmin_right by lra. apply Rmax_left, H.
    + intros H. rewrite Rmin_left by exact H. apply Rmax_right, Hle.
  - intros Hlt. apply Rmax_left.
    apply Rle_trans with hi; [apply Rmin_l | lra].
Qed.






Lemma hpf_zero_rate (x : list R) (cutoff_hz : R) :
  (2 <= length x)%nat -> 0 < cutoff_hz ->
  _apply_high_pass_filter x cutoff_hz 0
  = Raise (Exc "ZeroDivisionError" "float division by zero").
Proof.
  intros Hn Hc. unfold _apply_high_pass_filter.
  replace ((length x <? 2)%nat) with false by (symmetry; apply Nat.ltb_ge; lia).
  replace (Rleb cutoff_hz 0) with false by (symmetry; apply Rleb_false; lra).
  cbn [orb]. unfold py_div.
  destruct (Req_dec_T (IZR 0) 0) as [_ | E];
    [reflexivity | contradiction E; reflexivity].
Qed.

(** X7.  A zero sample rate.  With the high-pass filter active (cutoff above
    zero) and at least two samples, [dt = 1.0 / float(sample_rate)] divides by
    zero: the filter raises [ZeroDivisionError], and so does [process], which
    has no handler around the stage; no call reaches the WebRTC module. *)
Theorem process_zero_sample_rate_raises :
  forall {St : Type} (apm : option (APM St)) (rn df sp : bool)
         (pyln : option Pyln) (config : EnhancementV2Config)
         (input : list R) (mask : option (list bool)),
    (2 <= length input)%nat ->
    0 < hpf_cutoff_hz config ->
    exists msg,
      _apply_high_pass_filter input (hpf_cutoff_hz config) 0
        = Raise (Exc "ZeroDivisionError" msg)
      /\ run (process apm rn df sp pyln config input 0 mask)
         = (Raise (Exc "ZeroDivisionError" msg), []).
Proof.
  intros St apm rn df sp pyln config input mask Hn Hc.
  eexists. split.
  - apply hpf_zero_rate; assumption.
  - unfold run, process.
    replace ((length input =? 0)%nat) with false
      by (symmetry; apply Nat.eqb_neq; lia).
    unfold _apply_dc_removal. cbv zeta.
    unfold bind at 1. unfold lift at 1.
    rewrite hpf_zero_rate; [reflexivity | | exact Hc].
    rewrite length_map, np_clip_length. exact Hn.
Qed.

Lemma process_zero_sample_rate_example :
  exists msg,
    _apply_high_pass_filter [1 / 2; 1 / 4] (hpf_cutoff_hz default_config) 0
      = Raise (Exc "ZeroDivisionError" msg)
    /\ run (process (St := unit) None false false false None default_config
              [1 / 2; 1 / 4] 0 None)
       = (Raise (Exc "ZeroDivisionError" msg), []).
Proof.
  apply (process_zero_sample_rate_raises (St := unit));
    [simpl; lia | simpl; lra].
Defined.

End ClampAndHighPass.

(* ================================================================== *)
(** * Noise suppression: the paths through the stage *)
(* ================================================================== *)

Section NoiseSuppressionPaths.

Ltac ns_resolve H :=
  unfold run, _apply_noise_suppression; rewrite H;
  cbn [String.eqb Ascii.eqb Bool.eqb plugin_fallback negb].

(** X8.  Every exit of the noise-suppression stage that does not reach the
    WebRTC module hands the input back untouched and calls no backend: an
    installed rnnoise / deepfilternet / speex plugin is a pass-through tagged
    [<name>_passthrough], an engine name the stage does not know counts as
    [off], and a selected but missing WebRTC module gives [unavailable]. *)
Theorem ns_dispatch_pass_through :
  forall {St : Type} (apm : option (APM St)) (rn df sp : bool)
         (config : EnhancementV2Config) (x : list R) (sample_rate : Z),
    let r := run (_apply_noise_suppression apm rn df sp config x sample_rate) in
    (ns_engine config = "rnnoise" -> rn = true ->
     r = (Ok (x, [("ns_backend", VStr "rnnoise_passthrough")]), []))
    /\ (ns_engine config = "deepfilternet" -> df = true ->
        r = (Ok (x, [("ns_backend", VStr "deepfilternet_passthrough")]), []))
    /\ (ns_engine config = "speex" -> sp = true ->
        r = (Ok (x, [("ns_backend", VStr "speex_passthrough")]), []))
    /\ (~ In (ns_engine config) ns_engine_names ->
        r = (Ok (x, [("ns_backend", VStr "off")]), []))
    /\ (webrtc_selected rn df sp (ns_engine config) -> apm = None ->
        r = (Ok (x, [("ns_backend", VStr "unavailable")]), [])).
Proof.
  intros St apm rn df sp config x sample_rate r. subst r.
  split; [| split; [| split; [| split]]].
  - intros H ->. ns_resolve H. reflexivity.
  - intros H ->. ns_resolve H. reflexivity.
  - intros H ->. ns_resolve H. reflexivity.
  - intros Hnot. unfold ns_engine_names in Hnot. cbn [In] in Hnot.
    assert (Hneq : forall s, (s = ns_engine config -> False) ->
                             (ns_engine config =? s)%string = false).
    { intros s Hs. apply String.eqb_neq. intros E. apply Hs. now symmetry. }
    unfold run, _apply_noise_suppression, plugin_fallback.
    rewrite !Hneq by (intros E; apply Hnot; tauto).
    reflexivity.
  - intros Hsel ->.
    destruct Hsel as [H | [[H Hb] | [[H Hb] | [H Hb]]]]; try subst;
      ns_resolve H; reflexivity.
Qed.

(** ** The frame loop *)


Lemma Z_of_byte_range (b : byte) : (0 <= Z_of_byte b <= 255)%Z.
Proof.
  unfold Z_of_byte. pose proof (Byte.to_N_bounded b). lia.
Qed.

Lemma np_frombuffer_int16_step (lo hi : byte) (rest : list byte) :
  np_frombuffer_int16 (lo :: hi :: rest)
  = match np_frombuffer_int16 rest with
    | Ok a =>
        let u := (Z_of_byte lo + 256 * Z_of_byte hi)%Z in
        Ok ((if (u <? 32768)%Z then u else u - 65536)%Z :: a)
    | Raise e => Raise e
    end.
Proof. reflexivity. Qed.

Lemma int16_of_bytes_range (lo hi : byte) :
  let u := (Z_of_byte lo + 256 * Z_of_byte hi)%Z in
  (-32768 <= (if (u <? 32768)%Z then u else u - 65536) <= 32767)%Z.
Proof.
  pose proof (Z_of_byte_range lo). pose proof (Z_of_byte_range hi).
  intros u.
  destruct (u <? 32768)%Z eqn:Eu;
    [apply Z.ltb_lt in Eu | apply Z.ltb_ge in Eu]; lia.
Qed.

Lemma np_frombuffer_int16_range (n : nat) :
  forall (b : list byte) (ints : list Z),
    (length b <= n)%nat ->
    np_frombuffer_int16 b = Ok ints ->
    Forall (fun k => (-32768 <= k <= 32767)%Z) ints.
Proof.
  induction n as [| n IH]; intros b ints Hlen H.
  - destruct b; [| simpl in Hlen; lia]. injection H as <-. constructor.
  - destruct b as [| lo [| hi rest]].
    + injection H as <-. constructor.
    + discriminate.
    + rewrite np_frombuffer_int16_step in H.
      destruct (np_frombuffer_int16 rest) as [a |] eqn:E; [| discriminate].
      injection H as <-. constructor.
      * apply int16_of_bytes_range.
      * apply (IH rest); [simpl in Hlen; lia | exact E].
Qed.

Lemma pcm16_to_float_range (ints : list Z) :
  Forall (fun k => (-32768 <= k <= 32767)%Z) ints ->
  Forall (fun v => -1 <= v < 1) (pcm16_to_float ints).
Proof.
  unfold pcm16_to_float. induction 1 as [| k ints Hk _ IH]; cbn [map];
    constructor; [| exact IH].
  assert (IZR (-32768) <= IZR k) by (apply IZR_le; lia).
  assert (IZR k <= IZR 32767) by (apply IZR_le; lia).
  lra.
Qed.

Lemma Forall_repeat {A : Type} (P : A -> Prop) (c : A) (n : nat) :
  P c -> Forall P (repeat c n).
Proof. intros H. induction n; cbn; constructor; assumption. Qed.

(** One frame through the module, when nothing fails: the call is logged
    with the PCM16 image of the frame, and the frame handed back has at least
    [frame_size] samples, each an int16 value over 32768 or a padding zero. *)
Lemma ns_frame_result {St : Type} (apm : APM St) (st : St) (frame_size : nat)
    (frame : list R) (log0 : Log) (out_frame : list R) (st' : St) (log : Log) :
  ns_frame apm st frame_size frame log0 = (Ok (out_frame, st'), log) ->
  log = log0 ++ [(CallProcessStream (int16_tobytes (_float_to_pcm16 frame)),
                  None)]
  /\ Forall (fun v => -1 <= v < 1) out_frame
  /\ (frame_size <= length out_frame)%nat.
Proof.
  unfold ns_frame, bind, call.
  destruct (process_stream apm st _) as [[out_payload st1] | e];
    [| discriminate].
  assert (Hpure : forall l,
             snd (match out_payload with
                  | PBytes b => ret b
                  | PStr s => lift (encode_latin1 s)
                  end l) = l).
  { intros l. destruct out_payload; reflexivity. }
  match goal with
  | |- context [match ?m ?l with _ => _ end] =>
      pose proof (Hpure l) as Hl; destruct (m l) as [[out_bytes | e] l2]
  end; [| discriminate].
  cbn [snd] in Hl. subst l2.
  unfold lift, ret.
  destruct (np_frombuffer_int16 out_bytes) as [ints | e] eqn:Eb;
    [| discriminate].
  intros H. injection H as <- _ <-.
  pose proof (pcm16_to_float_range ints
                (np_frombuffer_int16_range _ _ _ (le_n _) Eb)) as Hr.
  split; [reflexivity |].
  destruct (_ <? _)%nat eqn:E.
  - apply Nat.ltb_lt in E. unfold np_pad_right. split.
    + apply Forall_app. split; [exact Hr | apply Forall_repeat; lra].
    + rewrite length_app, repeat_length. lia.
  - apply Nat.ltb_ge in E. split; assumption.
Qed.

Lemma firstn_Forall {A : Type} (P : A -> Prop) (n : nat) (l : list A) :
  Forall P l -> Forall P (firstn n l).
Proof.
  intros H. rewrite <- (firstn_skipn n l) in H.
  apply Forall_app in H. exact (proj1 H).
Qed.


Lemma ns_loop_run {St : Type} (apm : APM St) (frame_size : nat)
    (chunks : list (list R)) :
  (forall c, In c chunks -> (length c <= frame_size)%nat) ->
  forall (st : St) (processed : list R) (n : Z) (log0 : Log)
         (out : list R) (n' : Z) (log : Log),
    ns_loop apm st frame_size chunks processed n log0 = (Ok (out, n'), log) ->
    log = log0 ++ map (fun c => (CallProcessStream (ns_payload frame_size c),
                                 @None PyExc)) chunks
    /\ n' = (n + Z.of_nat (length chunks))%Z
    /\ (Forall (fun v => -1 <= v < 1) processed ->
        Forall (fun v => -1 <= v < 1) out).
Proof.
  induction chunks as [| chunk rest IH];
    intros Hb st processed n log0 out n' log; cbn [ns_loop].
  - unfold ret. intros H. injection H as <- <- <-. cbn [map length].
    rewrite app_nil_r. repeat split; [lia | tauto].
  - unfold bind at 1.
    destruct (ns_frame _ _ _ _ _) as [[[out_frame st'] | e] log1] eqn:Ef;
      [| discriminate].
    intros H. apply IH in H; [| intros c Hc; apply Hb; now right].
    destruct H as [Hlog [Hn Hrange]].
    apply ns_frame_result in Ef. destruct Ef as [Hlog1 [Hr1 _]].
    pose proof (Hb chunk (or_introl eq_refl)) as Hc.
    assert (Hpay : (if (length chunk <? frame_size)%nat
                    then np_pad_right chunk (frame_size - length chunk)
                    else chunk)
                   = chunk ++ repeat 0 (frame_size - length chunk)).
    { destruct (_ <? _)%nat eqn:E; [reflexivity |].
      apply Nat.ltb_ge in E.
      replace (frame_size - length chunk)%nat with 0%nat by lia.
      cbn [repeat]. now rewrite app_nil_r. }
    rewrite Hpay in Hlog1. subst log1. split; [| split].
    + rewrite Hlog. cbn [map]. rewrite <- app_assoc. reflexivity.
    + rewrite Hn. cbn [length]. lia.
    + intros Hp. apply Hrange. apply Forall_app. split; [exact Hp |].
      apply firstn_Forall. exact Hr1.
Qed.




(** The number of slices [range(0, size, n)] walks through. *)
Lemma frames_fuel_count {A : Type} (n : nat) :
  (0 < n)%nat ->
  forall (fuel : nat) (a : list A),
    (length a <= fuel)%nat ->
    Z.of_nat (length (frames_fuel fuel n a))
    = ((Z.of_nat (length a) + Z.of_nat n - 1) / Z.of_nat n)%Z.
Proof.
  intros Hn. induction fuel as [| fuel IH]; intros a Hlen.
  - destruct a; [| simpl in Hlen; lia]. cbn [frames_fuel length].
    symmetry. apply Z.div_small. lia.
  - destruct a as [| x a].
    + cbn [frames_fuel length]. symmetry. apply Z.div_small. lia.
    + remember (x :: a) as l eqn:El.
      assert (Hl : (1 <= length l)%nat) by (subst l; simpl; lia).
      assert (Hstep : frames_fuel (S fuel) n l
                      = firstn n l :: frames_fuel fuel n (skipn n l)).
      { subst l. reflexivity. }
      rewrite Hstep. clear Hstep El.
      change (length (firstn n l :: frames_fuel fuel n (skipn n l)))
        with (S (length (frames_fuel fuel n (skipn n l)))).
      rewrite Nat2Z.inj_succ.
      rewrite IH by (rewrite length_skipn; lia).
      rewrite length_skipn.
      destruct (le_lt_dec (length l) n) as [Hle | Hgt].
      * replace (length l - n)%nat with 0%nat by lia.
        rewrite (Z.div_small (Z.of_nat 0 + Z.of_nat n - 1)) by lia.
        apply Z.div_unique with (r := (Z.of_nat (length l) - 1)%Z); lia.
      * replace (Z.of_nat (length l) + Z.of_nat n - 1)%Z
          with ((Z.of_nat (length l - n) + Z.of_nat n - 1) + 1 * Z.of_nat n)%Z
          by lia.
        rewrite Z.div_add by lia. lia.
Qed.

Lemma frames_count {A : Type} (n : nat) (a : list A) :
  (0 < n)%nat ->
  Z.of_nat (length (frames n a))
  = ((Z.of_nat (length a) + Z.of_nat n - 1) / Z.of_nat n)%Z.
Proof. intros Hn. unfold frames. now apply frames_fuel_count. Qed.

Lemma ns_frame_size_pos (sample_rate : Z) : (1 <= ns_frame_size sample_rate)%Z.
Proof. unfold ns_frame_size. lia. Qed.





End NoiseSuppressionPaths.

(* ================================================================== *)
(** * PCM16 round trips *)
(* ================================================================== *)

Section PcmRoundTrip.

Lemma clip_unit_range (x : R) : -1 <= Rmin (Rmax x (-1)) 1 <= 1.
Proof.
  unfold Rmin, Rmax. destruct (Rle_dec x (-1)); destruct (Rle_dec _ 1); lra.
Qed.

Lemma clip_unit_opp (x : R) :
  Rmin (Rmax (- x) (-1)) 1 = - Rmin (Rmax x (-1)) 1.
Proof.
  unfold Rmin, Rmax.
  destruct (Rle_dec (- x) (-1)); destruct (Rle_dec x (-1));
    repeat match goal with
           | |- context [Rle_dec ?a ?b] => destruct (Rle_dec a b)
           end; lra.
Qed.


(** The integer [_float_to_pcm16] gives one sample: the rounded product,
    which the cast to int16 leaves alone. *)
Lemma float_to_pcm16_sample (x : R) :
  let n := round_half_even (Rmin (Rmax x (-1)) 1 * 32767) in
  (-32767 <= n <= 32767)%Z /\ astype_int16 n = n.
Proof.
  intros n. pose proof (clip_unit_range x) as Hy.
  assert (Hr : (-32767 <= n <= 32767)%Z).
  { assert (Hlo : IZR (-32767) <= Rmin (Rmax x (-1)) 1 * 32767) by lra.
    assert (Hhi : Rmin (Rmax x (-1)) 1 * 32767 <= IZR 32767) by lra.
    apply round_half_even_monotone in Hlo, Hhi.
    rewrite round_half_even_IZR in Hlo, Hhi. subst n. lia. }
  split; [exact Hr | apply astype_int16_id; lia].
Qed.

Lemma float_to_pcm16_map (frame : list R) :
  _float_to_pcm16 frame
  = map (fun x => round_half_even (Rmin (Rmax x (-1)) 1 * 32767)) frame.
Proof.
  unfold _float_to_pcm16, np_clip. rewrite map_map.
  apply map_ext. intros x. apply (float_to_pcm16_sample x).
Qed.


Lemma pcm16_quantise_map (frame : list R) :
  pcm16_to_float (_float_to_pcm16 frame) = map pcm16_quantise frame.
Proof.
  rewrite float_to_pcm16_map. unfold pcm16_to_float. rewrite map_map.
  reflexivity.
Qed.

Lemma pcm16_quantise_error (x : R) :
  Rabs (pcm16_quantise x - Rmin (Rmax x (-1)) 1) <= 3 / 65536.
Proof.
  unfold pcm16_quantise.
  pose proof (clip_unit_range x) as Hy.
  set (y := Rmin (Rmax x (-1)) 1) in *.
  pose proof (round_half_even_near (y * 32767)) as Hn.
  set (k := IZR (round_half_even (y * 32767))) in *.
  apply Rabs_le_bounds in Hn. apply Rabs_le. lra.
Qed.

(** X10.  Float -> PCM16 -> float.  Encoding a frame with [_float_to_pcm16]
    and decoding it as the noise-suppression stage does (int16 over 32768)
    moves every sample by less than two steps of 1 / 32768 from its clipped
    value; the encoder is odd-symmetric (negating the frame negates the
    codes), and the code -32768 is never produced. *)
Theorem pcm16_round_trip_error :
  forall (frame : list R),
    Forall2 (fun x y => Rabs (y - Rmin (Rmax x (-1)) 1) < 2 / 32768)
            frame (pcm16_to_float (_float_to_pcm16 frame))
    /\ _float_to_pcm16 (map Ropp frame) = map Z.opp (_float_to_pcm16 frame)
    /\ Forall (fun k => (-32767 <= k <= 32767)%Z) (_float_to_pcm16 frame).
Proof.
  intros frame. split; [| split].
  - rewrite pcm16_quantise_map.
    induction frame as [| x frame IH]; cbn [map]; constructor;
      [pose proof (pcm16_quantise_error x); lra | exact IH].
  - rewrite !float_to_pcm16_map, !map_map. apply map_ext. intros x.
    rewrite clip_unit_opp.
    replace (- Rmin (Rmax x (-1)) 1 * 32767)
      with (- (Rmin (Rmax x (-1)) 1 * 32767)) by lra.
    apply round_half_even_opp.
  - rewrite float_to_pcm16_map. apply Forall_forall. intros k Hk.
    apply in_map_iff in Hk. destruct Hk as [x [<- _]].
    apply (float_to_pcm16_sample x).
Qed.

Lemma int16_reencode_checked :
  forallb (fun k =>
             match F32._float_to_pcm16 (F32.pcm16_to_float k) with
             | Some r => (r =? reencoded k)%Z
             | None => false
             end) F32.int16_values
  = true.
Proof. vm_compute. reflexivity. Qed.

(** X11.  PCM16 -> float32 -> PCM16.  Decoding an int16 value
    ([k / 32768], exact in float32) and encoding it again (the float32
    product with 32767, rounded half to even) is not the identity: it gives
    [k] back only up to magnitude 16368, moves every value above 16416 one
    step towards zero, and in between returns the even one of the two
    candidates, the float32 product landing exactly on a tie.  Checked on all
    65536 values. *)
Theorem pcm16_reencode :
  forall (k : Z),
    (-32768 <= k <= 32767)%Z ->
    F32._float_to_pcm16 (F32.pcm16_to_float k) = Some (reencoded k).
Proof.
  intros k Hk.
  pose proof int16_reencode_checked as Hall.
  rewrite forallb_forall in Hall.
  specialize (Hall k).
  assert (Hin : In k F32.int16_values).
  { unfold F32.int16_values. apply z_range_In. lia. }
  specialize (Hall Hin).
  destruct (F32._float_to_pcm16 (F32.pcm16_to_float k)) as [r |];
    [| discriminate].
  apply Z.eqb_eq in Hall. now subst r.
Qed.

Lemma pcm16_reencode_example :
  F32._float_to_pcm16 (F32.pcm16_to_float 32767) = Some 32766%Z
  /\ F32._float_to_pcm16 (F32.pcm16_to_float (-32768)) = Some (-32767)%Z
  /\ F32._float_to_pcm16 (F32.pcm16_to_float 16386) = Some 16386%Z
  /\ F32._float_to_pcm16 (F32.pcm16_to_float 16383) = Some 16382%Z.
Proof.
  split; [| split; [| split]].
  - apply (pcm16_reencode 32767). lia.
  - apply (pcm16_reencode (-32768)). lia.
  - apply (pcm16_reencode 16386). lia.
  - apply (pcm16_reencode 16383). lia.
Defined.

End PcmRoundTrip.

(* ================================================================== *)
(** * Noise suppression with a transparent module *)
(* ================================================================== *)

Section TransparentBackend.







End TransparentBackend.

(* ================================================================== *)
(** * Noise suppression is all or nothing *)
(* ================================================================== *)

Section AllOrNothing.

(** X13.  The noise-suppression stage is all or nothing.  Whatever the
    module does, including handing back bytes that do not decode (an odd
    number of bytes, a [str] with a character outside latin-1), the stage
    returns either its input untouched or, under [ns_backend = webrtc_apm], a
    signal every frame of which went through the module, with
    [ns_frames_processed = ceil(len / frame_size)] and every sample in
    [-1, 1): a partly processed signal never comes back. *)
Theorem ns_all_or_nothing :
  forall {St : Type} (apm : option (APM St)) (rn df sp : bool)
         (config : EnhancementV2Config) (signal : list R) (sample_rate : Z)
         (out : list R) (st : dict) (log : Log),
    run (_apply_noise_suppression apm rn df sp config signal sample_rate)
      = (Ok (out, st), log) ->
    let fs := ns_frame_size sample_rate in
    out = signal
    \/ (dict_get st "ns_backend" = Some (VStr "webrtc_apm")
        /\ dict_get st "ns_frames_processed"
           = Some (VInt ((Z.of_nat (length signal) + fs - 1) / fs))
        /\ length out = length signal
        /\ Forall (fun v => -1 <= v < 1) out).
Proof.
  intros St apm rn df sp config signal sample_rate out st log.
  unfold run, _apply_noise_suppression.
  destruct (ns_engine config =? "off")%string;
    [unfold ret; intros H; injection H as <- _ _; now left |].
  destruct (plugin_fallback _ _ rn _) as [req1 | tag];
    [| unfold ret; intros H; injection H as <- _ _; now left].
  destruct (plugin_fallback _ _ df _) as [req2 | tag];
    [| unfold ret; intros H; injection H as <- _ _; now left].
  destruct (plugin_fallback _ _ sp _) as [req3 | tag];
    [| unfold ret; intros H; injection H as <- _ _; now left].
  destruct (negb (req3 =? "webrtc")%string);
    [unfold ret; intros H; injection H as <- _ _; now left |].
  destruct apm as [apm |];
    [| unfold ret; intros H; injection H as <- _ _; now left].
  fold (ns_frame_size sample_rate).
  destruct (_ <? _)%Z eqn:Esize;
    [unfold ret; intros H; injection H as <- _ _; now left |].
  apply Z.ltb_ge in Esize.
  pose proof (ns_frame_size_pos sample_rate) as Hfs.
  destruct _map_agc_params as [agc_target agc_level].
  unfold bind at 1. unfold try_except at 1. unfold bind at 1.
  destruct (apm_init _ _ _ _ _ _) as [[st0 | e] log1].
  - unfold ret at 1. unfold try_except. unfold bind at 1.
    destruct (ns_loop _ _ _ _ _ _ _) as [[[processed n] | e] log2] eqn:Eloop.
    + unfold ret. intros H. injection H as <- <- _. cbv zeta.
      assert (Hb : forall c,
                 In c (frames (Z.to_nat (ns_frame_size sample_rate)) signal) ->
                 (length c <= Z.to_nat (ns_frame_size sample_rate))%nat).
      { intros c Hc. unfold frames in Hc. now apply frames_fuel_bound in Hc. }
      pose proof (ns_loop_length _ _ _ Hb _ _ _ _ _ _ _ Eloop) as Hout.
      destruct (ns_loop_run _ _ _ Hb _ _ _ _ _ _ _ Eloop) as [_ [Hn Hr]].
      rewrite frames_concat in Hout by lia.
      assert (Hcount : n = ((Z.of_nat (length signal)
                             + ns_frame_size sample_rate - 1)
                            / ns_frame_size sample_rate)%Z).
      { rewrite Hn, frames_count by lia. rewrite Z2Nat.id by lia. reflexivity. }
      right. cbn [dict_get String.eqb Ascii.eqb Bool.eqb]. rewrite Hcount.
      split; [reflexivity |]. split; [reflexivity |].
      split; [exact Hout | apply Hr; constructor].
    + unfold ret. intros H. injection H as <- _ _. now left.
  - unfold ret. intros H. injection H as <- _ _. now left.
Qed.

(** A run at frame size 1 (100 Hz) in which the module returns three bytes
    for a frame of two. *)
Lemma garbling_run :
  exists log,
    run (_apply_noise_suppression (Some garbling_apm) false false false
           default_config [1 / 2; 1 / 4] 100)
    = (Ok ([1 / 2; 1 / 4],
           [("ns_backend", VStr "error");
            ("ns_error",
             VStr ("process_failed: "
                   ++ "buffer size must be a multiple of element size"))]),
       log).
Proof.
  unfold run, _apply_noise_suppression.
  cbn [ns_engine default_config String.eqb Ascii.eqb Bool.eqb plugin_fallback
       negb].
  fold (ns_frame_size 100). rewrite ns_frame_size_100.
  eexists. reflexivity.
Qed.

Lemma ns_all_or_nothing_example :
  exists out st log,
    run (_apply_noise_suppression (Some garbling_apm) false false false
           default_config [1 / 2; 1 / 4] 100) = (Ok (out, st), log)
    /\ dict_get st "ns_backend" = Some (VStr "error")
    /\ (out = [1 / 2; 1 / 4]
        \/ (dict_get st "ns_backend" = Some (VStr "webrtc_apm")
            /\ dict_get st "ns_frames_processed"
               = Some (VInt ((Z.of_nat 2 + ns_frame_size 100 - 1)
                             / ns_frame_size 100))
            /\ length out = 2%nat
            /\ Forall (fun v => -1 <= v < 1) out)).
Proof.
  destruct garbling_run as [log E].
  do 2 eexists. exists log. split; [exact E |].
  split; [reflexivity |].
  exact (ns_all_or_nothing (Some garbling_apm) false false false default_config
           [1 / 2; 1 / 4] 100 _ _ log E).
Defined.

End AllOrNothing.

(* ================================================================== *)
(** * The limiter and the compressor at their edges *)
(* ================================================================== *)

Section LimiterAndDynamics.

Lemma py_round_zero (ndigits : nat) : py_round 0 ndigits = 0.
Proof.
  unfold py_round. rewrite Rmult_0_l.
  change 0 with (IZR 0) at 1. rewrite round_half_even_IZR.
  unfold Rdiv. apply Rmult_0_l.
Qed.

Lemma log10_1 : log10 1 = 0.
Proof. unfold log10. rewrite ln_1. unfold Rdiv. apply Rmult_0_l. Qed.

Lemma zero_db (g : R) : g = 1 -> 20 * log10 (Rmax g 1e-7) = 0.
Proof.
  intros ->. rewrite Rmax_left by lra. rewrite log10_1. lra.
Qed.

Lemma fold_left_Rmin_ones (t : list R) :
  Forall (fun g => g = 1) t -> fold_left Rmin t 1 = 1.
Proof.
  induction 1 as [| g t -> _ IH]; cbn [fold_left]; [reflexivity |].
  rewrite Rmin_left by lra. exact IH.
Qed.

Lemma fold_left_Rmax_ones (t : list R) :
  Forall (fun g => g = 1) t -> fold_left Rmax t 1 = 1.
Proof.
  induction 1 as [| g t -> _ IH]; cbn [fold_left]; [reflexivity |].
  rewrite Rmax_left by lra. exact IH.
Qed.

(** Below the threshold the gain never leaves 1. *)
Lemma limiter_loop_below (a r thr : R) (x : list R) :
  Forall (fun v => Rabs v <= thr) x ->
  limiter_loop a r thr 1 x = map (fun v => (v, 1)) x.
Proof.
  induction 1 as [| v x Hv _ IH]; [reflexivity |].
  cbn [limiter_loop map].
  replace (Rleb (Rabs v) thr) with true by (symmetry; now apply Rleb_true).
  replace (Rltb 1 1) with false by (symmetry; apply Rltb_false; lra).
  replace (r * 1 + (1 - r) * 1) with 1 by ring.
  rewrite Rmult_1_r, IH. reflexivity.
Qed.

(** X14.  The limiter is transparent below its threshold.  When it runs on
    a non-empty signal none of whose samples exceeds the (clamped) threshold
    in magnitude, the gain stays at 1: the output is the input, sample for
    sample, and the reported reduction is 0 dB. *)
Theorem limiter_transparent_below_threshold :
  forall (config : EnhancementV2Config) (x : list R) (force : bool)
         (override : option R),
    force || enabled (limiter config) = true ->
    x <> [] ->
    Forall (fun v => Rabs v <= limiter_threshold config override) x ->
    exists st,
      _apply_limiter config x force override = Ok (x, st)
      /\ dict_get st "limiter_enabled" = Some (VBool true)
      /\ dict_get st "limiter_reduction_db" = Some (VFloat 0).
Proof.
  intros config x force override Hen Hne Hbelow.
  pose proof (limiter_threshold_range config override) as Hthr.
  unfold _apply_limiter. rewrite Hen. cbn [negb]. cbv zeta.
  rewrite (limiter_loop_below _ _ _ x Hbelow). rewrite !map_map.
  cbn [fst snd]. rewrite map_id.
  assert (Hclip : np_clip x (-1) 1 = x).
  { apply np_clip_id. eapply Forall_impl; [| exact Hbelow].
    intros v Hv. cbv beta in Hv. apply Rabs_le_bounds in Hv. lra. }
  rewrite Hclip.
  assert (Hmin : np_min (map (fun _ : R => 1) x) = Ok 1).
  { destruct x as [| v x]; [congruence |]. cbn [map np_min]. f_equal.
    apply fold_left_Rmin_ones. apply Forall_forall. intros g Hg.
    apply in_map_iff in Hg. destruct Hg as [? [<- _]]. reflexivity. }
  rewrite Hmin. eexists. split; [reflexivity |].
  split; [reflexivity |].
  cbn [dict_get String.eqb Ascii.eqb Bool.eqb]. do 2 f_equal.
  replace (-20 * log10 (Rmax 1 1e-7)) with 0.
  - apply py_round_zero.
  - pose proof (zero_db 1 eq_refl). lra.
Qed.

Lemma limiter_transparent_example :
  exists st,
    _apply_limiter default_config [1 / 2; - 1 / 4] false None
    = Ok ([1 / 2; - 1 / 4], st)
    /\ dict_get st "limiter_enabled" = Some (VBool true)
    /\ dict_get st "limiter_reduction_db" = Some (VFloat 0).
Proof.
  apply (limiter_transparent_below_threshold default_config [1 / 2; - 1 / 4]
           false None).
  - reflexivity.
  - discriminate.
  - pose proof (limiter_threshold_range default_config None) as H.
    constructor; [apply Rabs_le; lra |].
    constructor; [apply Rabs_le; lra | constructor].
Defined.

Lemma limiter_target_unit (thr v : R) :
  0.6 <= thr <= 0.999 -> 0 <= limiter_target thr v <= 1.
Proof.
  intros Hthr.
  pose proof (limiter_target_range thr (Rabs v) v Hthr (Rle_refl _)) as H.
  assert (0 < thr / Rmax (Rabs v) thr).
  { apply Rdiv_lt_0_compat; [lra |].
    pose proof (Rmax_r (Rabs v) thr). lra. }
  lra.
Qed.

Lemma clip_unit_shrinks (w : R) :
  Rabs (Rmin (Rmax w (-1)) 1) <= Rabs w
  /\ (0 <= w -> 0 <= Rmin (Rmax w (-1)) 1)
  /\ (w <= 0 -> Rmin (Rmax w (-1)) 1 <= 0).
Proof.
  unfold Rmin, Rmax, Rabs.
  destruct (Rle_dec w (-1)); destruct (Rle_dec _ 1);
    repeat match goal with
           | |- context [Rcase_abs ?a] => destruct (Rcase_abs a)
           end; repeat split; intros; lra.
Qed.

(** X15.  The limiter only attenuates.  Whatever the configuration, every
    output sample has the sign of the input sample and at most its
    magnitude: the gain never exceeds 1, and the final clip only shrinks. *)
Theorem limiter_only_attenuates :
  forall (config : EnhancementV2Config) (x : list R) (force : bool)
         (override : option R) (out : list R) (st : dict),
    _apply_limiter config x force override = Ok (out, st) ->
    Forall2 (fun v w => Rabs w <= Rabs v /\ 0 <= v * w) x out.
Proof.
  intros config x force override out st H.
  destruct (force || enabled (limiter config)) eqn:Hen.
  - pose proof (apply_limiter_enabled config x force override Hen) as Hout.
    rewrite H in Hout. subst out.
    pose proof (limiter_threshold_range config override) as Hthr.
    pose proof (limiter_attack_range config) as Ha.
    pose proof (limiter_release_range config) as Hr.
    assert (Hg : Forall2 (fun v og => fst og = v * snd og /\ 0 <= snd og <= 1)
                   x (limiter_loop (limiter_attack config)
                        (limiter_release config)
                        (limiter_threshold config override) 1 x)).
    { apply limiter_loop_gains; [lra | lra | lra |].
      apply Forall_forall. intros v _. now apply limiter_target_unit. }
    unfold np_clip. rewrite map_map. clear H.
    induction Hg as [| v og x' run' [Hout Hgain] _ IH]; cbn [map];
      [constructor |].
    constructor; [| exact IH].
    rewrite Hout.
    pose proof (clip_unit_shrinks (v * snd og)) as [Hs [Hp Hn]].
    assert (Hle : Rabs (v * snd og) <= Rabs v).
    { rewrite Rabs_mult, (Rabs_right (snd og)) by lra.
      pose proof (Rabs_pos v). nra. }
    split; [lra |].
    destruct (Rle_dec 0 v) as [Hv | Hv].
    + assert (Hpos : 0 <= v * snd og) by nra. specialize (Hp Hpos). nra.
    + assert (Hneg : v * snd og <= 0) by nra. specialize (Hn Hneg). nra.
  - unfold _apply_limiter in H. rewrite Hen in H. cbn [negb] in H.
    injection H as <- _.
    clear. induction x as [| v x IH]; constructor; [| exact IH].
    split; [lra | nra].
Qed.

Lemma limiter_only_attenuates_example :
  match _apply_limiter default_config [2; - 3 / 2] false None with
  | Ok (out, _) =>
      Forall2 (fun v w => Rabs w <= Rabs v /\ 0 <= v * w) [2; - 3 / 2] out
  | Raise _ => False
  end.
Proof.
  destruct (_apply_limiter default_config [2; - 3 / 2] false None)
    as [[out st] | e] eqn:E.
  - exact (limiter_only_attenuates default_config [2; - 3 / 2] false None
             out st E).
  - destruct (apply_limiter_ok default_config [2; - 3 / 2] false None eq_refl
                ltac:(discriminate)) as [st' E'].
    rewrite E' in E. discriminate E.
Defined.

(** X16.  The dynamics stages on an empty array.  Called on an empty
    array, the compressor fails on [np.max] of its empty gain trace and the
    running limiter on [np.min]: both raise [ValueError], and so does the
    dynamics stage unless dynamics is off; the disabled limiter and the
    disabled stage return the empty array. *)
Theorem dynamics_on_empty_signal :
  forall (config : EnhancementV2Config) (force : bool) (override : option R),
    (exists msg, _apply_upward_compressor config []
                 = Raise (Exc "ValueError" msg))
    /\ (force || enabled (limiter config) = true ->
        exists msg, _apply_limiter config [] force override
                    = Raise (Exc "ValueError" msg))
    /\ (force || enabled (limiter config) = false ->
        _apply_limiter config [] force override
        = Ok ([], [("limiter_enabled", VBool false);
                   ("limiter_reduction_db", VFloat 0)]))
    /\ (dynamics config <> "off" ->
        exists msg, _apply_dynamics_stage config []
                    = Raise (Exc "ValueError" msg))
    /\ (dynamics config = "off" ->
        _apply_dynamics_stage config []
        = Ok ([], [("dynamics_backend", VStr "off")])).
Proof.
  intros config force override.
  split; [eexists; reflexivity |].
  split.
  { intros Hen. unfold _apply_limiter. rewrite Hen. eexists. reflexivity. }
  split.
  { intros Hen. unfold _apply_limiter. rewrite Hen. reflexivity. }
  split.
  - intros Hoff. unfold _apply_dynamics_stage.
    replace (dynamics config =? "off")%string with false
      by (symmetry; now apply String.eqb_neq).
    eexists. reflexivity.
  - intros Hoff. unfold _apply_dynamics_stage. rewrite Hoff. reflexivity.
Qed.

(** The compressor with no head-room: the ceiling of the gain is at most 1,
    and the lower bound of the clamp wins. *)
Lemma compressor_loop_unit (attack release thr ratio max_gain : R) :
  max_gain <= 1 ->
  forall (x : list R) (env : R),
    compressor_loop attack release thr ratio max_gain env x
    = map (fun v => (v, 1)) x.
Proof.
  intros Hmax x. induction x as [| v x IH]; intros env; [reflexivity |].
  cbn [compressor_loop map]. rewrite IH.
  assert (Hc : forall g, _clamp g 1 max_gain = 1).
  { intros g. unfold _clamp. apply Rmax_left.
    pose proof (Rmin_l max_gain g). lra. }
  rewrite !Hc, Rmult_1_r. reflexivity.
Qed.

(** X17.  The upward compressor with no head-room.  With [max_gain_db] at or
    below zero the gain ceiling [10 ** (max_gain_db / 20)] is at most 1, the
    clamp [_clamp(gain, 1.0, max_gain)] returns its lower bound, and the
    compressor hands back its input unchanged, reporting 0 dB for the average
    and the peak gain. *)
Theorem upward_compressor_without_headroom :
  forall (config : EnhancementV2Config) (x : list R),
    max_gain_db (targets config) <= 0 ->
    x <> [] ->
    exists st,
      _apply_upward_compressor config x = Ok (x, st)
      /\ dict_get st "upward_comp_avg_gain_db" = Some (VFloat 0)
      /\ dict_get st "upward_comp_peak_gain_db" = Some (VFloat 0).
Proof.
  intros config x Hmax Hne.
  assert (Hceil : Rpower 10 (Rmin (max_gain_db (targets config)) 18 / 20) <= 1).
  { rewrite <- (Rpower_O 10) by lra.
    apply Rle_Rpower; [lra |].
    pose proof (Rmin_l (max_gain_db (targets config)) 18). lra. }
  unfold _apply_upward_compressor, upward_compressor_run. cbv zeta.
  rewrite (compressor_loop_unit _ _ _ _ _ Hceil). rewrite !map_map.
  cbn [fst snd]. rewrite map_id.
  assert (Hones : Forall (fun g => g = 1) (map (fun _ : R => 1) x)).
  { apply Forall_forall. intros g Hg. apply in_map_iff in Hg.
    destruct Hg as [? [<- _]]. reflexivity. }
  assert (Hmaxg : np_max (map (fun _ : R => 1) x) = Ok 1).
  { destruct x as [| v x]; [congruence |]. cbn [map np_max]. f_equal.
    apply fold_left_Rmax_ones. inversion Hones; assumption. }
  assert (Hmean : np_mean (map (fun _ : R => 1) x) = 1).
  { apply Rle_antisym.
    - apply (np_mean_bounds _ 1 1).
      + destruct x; [congruence | discriminate].
      + eapply Forall_impl; [| exact Hones]. intros g ->. lra.
    - apply (np_mean_bounds _ 1 1).
      + destruct x; [congruence | discriminate].
      + eapply Forall_impl; [| exact Hones]. intros g ->. lra. }
  rewrite Hmaxg, Hmean. eexists. split; [reflexivity |].
  cbn [dict_get String.eqb Ascii.eqb Bool.eqb].
  rewrite (zero_db 1 eq_refl), py_round_zero. split; reflexivity.
Qed.

Lemma upward_compressor_without_headroom_example :
  exists st,
    _apply_upward_compressor unlimited_config [1 / 100; - 1 / 2]
    = Ok ([1 / 100; - 1 / 2], st)
    /\ dict_get st "upward_comp_avg_gain_db" = Some (VFloat 0)
    /\ dict_get st "upward_comp_peak_gain_db" = Some (VFloat 0).
Proof.
  apply (upward_compressor_without_headroom unlimited_config
           [1 / 100; - 1 / 2]); [simpl; lra | discriminate].
Defined.

End LimiterAndDynamics.

(* ================================================================== *)
(** * Gains of the dynaudnorm-like strategy *)
(* ================================================================== *)

Section DynaudnormGain.













End DynaudnormGain.

(* ================================================================== *)
(** * LUFS normalisation and the dynamics stage *)
(* ================================================================== *)

Section LufsNormalization.

(** X20.  LUFS normalisation falls back to the RMS strategy instead of
    failing: when pyloudnorm is not installed, when the measured region (the
    speech samples, or the whole signal) is shorter than
    [max(256, sample_rate // 10)] samples, and when the meter raises.  The
    result is then exactly that of [_apply_rms_target], with one more report
    entry, [lufs_backend], naming the reason. *)
Theorem lufs_falls_back_to_rms :
  forall (pyln : option Pyln) (config : EnhancementV2Config) (signal : list R)
         (sample_rate : Z) (speech_mask : option (list bool)),
    let r := _apply_lufs_normalization pyln config signal sample_rate
                                       speech_mask in
    let measure := lufs_measure signal speech_mask in
    (pyln = None -> r = lufs_fallback config signal "fallback_rms")
    /\ (forall meter,
           pyln = Some meter ->
           (Z.of_nat (length measure) < Z.max 256 (sample_rate / 10))%Z ->
           r = lufs_fallback config signal "fallback_rms_short_input")
    /\ (forall meter e,
           pyln = Some meter ->
           (Z.max 256 (sample_rate / 10) <= Z.of_nat (length measure))%Z ->
           integrated_loudness meter sample_rate measure = Raise e ->
           r = lufs_fallback config signal "fallback_rms_error").
Proof.
  intros pyln config signal sample_rate speech_mask r measure.
  subst r measure. split; [| split].
  - intros ->. reflexivity.
  - intros meter -> Hshort. unfold _apply_lufs_normalization.
    fold (lufs_measure signal speech_mask).
    apply Z.ltb_lt in Hshort. rewrite Hshort. reflexivity.
  - intros meter e -> Hlong Hraise. unfold _apply_lufs_normalization.
    fold (lufs_measure signal speech_mask).
    apply Z.ltb_ge in Hlong. rewrite Hlong, Hraise. reflexivity.
Qed.



End LufsNormalization.

Section DynamicsStage.




End DynamicsStage.

(* ================================================================== *)
(** * The report of [process] *)
(* ================================================================== *)

Section ProcessReport.







End ProcessReport.

(* ================================================================== *)
(** * Silence *)
(* ================================================================== *)

Section Silence.



















End Silence.

(* ================================================================== *)
(** * WAV loading *)
(* ================================================================== *)

Section WavLoading.

Import audio_io.

Variable resolve : string -> result string.
Variable exists_ : string -> bool.
Variable wave_open : string -> result Wave_read.

(** A successful load, step by step. *)
Lemma load_wav_ok (path : string) (waveform : list R) :
  load_wav_pcm16_mono resolve exists_ wave_open path = Ok waveform ->
  exists wav_path wf raw ints,
    resolve path = Ok wav_path
    /\ exists_ wav_path = true
    /\ wave_open wav_path = Ok wf
    /\ getnchannels wf = 1%Z
    /\ getsampwidth wf = 2%Z
    /\ getframerate wf = 16000%Z
    /\ readframes wf (getnframes wf) = Ok raw
    /\ np_frombuffer_int16 raw = Ok ints
    /\ waveform = map (fun k => IZR k / 32768) ints
    /\ Forall (fun k => (-32768 <= k <= 32767)%Z) ints
    /\ Forall (fun v => -1 <= v < 1) waveform.
Proof.
  unfold load_wav_pcm16_mono, _read_wav_bytes.
  destruct (resolve path) as [wav_path | e] eqn:Eres; [| discriminate].
  destruct (exists_ wav_path) eqn:Eex; cbn [negb]; [| discriminate].
  destruct (wave_open wav_path) as [wf | e] eqn:Eopen; [| discriminate].
  destruct (readframes wf (getnframes wf)) as [raw | e] eqn:Eraw;
    [| discriminate].
  cbn [channels sample_width sample_rate].
  destruct (getnchannels wf =? 1)%Z eqn:Ec; cbn [negb]; [| discriminate].
  destruct (getsampwidth wf =? 2)%Z eqn:Ew; cbn [negb]; [| discriminate].
  destruct (getframerate wf =? 16000)%Z eqn:Er; cbn [negb]; [| discriminate].
  destruct (np_frombuffer_int16 _) as [ints | e] eqn:Eb; [| discriminate].
  intros H. injection H as <-.
  pose proof (np_frombuffer_int16_range _ _ _ (le_n _) Eb) as Hints.
  pose proof (pcm16_to_float_range ints Hints) as Hr.
  assert (Hclip : np_clip (pcm16_to_float ints) (-1) 1 = pcm16_to_float ints).
  { apply np_clip_id. eapply Forall_impl; [| exact Hr].
    intros v Hv. cbv beta in Hv. lra. }
  rewrite Hclip.
  exists wav_path, wf, raw, ints.
  apply Z.eqb_eq in Ec, Ew, Er.
  repeat split; try assumption; reflexivity.
Qed.

(** X25.  What [load_wav_pcm16_mono] hands back.  A successful load means
    the file exists and opened as a WAV file with exactly 1 channel, 2-byte
    samples and a 16000 Hz frame rate; the waveform has one sample per two
    bytes read, sample [i] being the little-endian int16 at bytes
    [2i, 2i+1] divided by 32768, so every sample lies in [-1, 1) and the
    closing [np.clip] changes nothing. *)
Theorem load_wav_result :
  forall (path : string) (waveform : list R),
    load_wav_pcm16_mono resolve exists_ wave_open path = Ok waveform ->
    exists wav_path wf raw ints,
      resolve path = Ok wav_path
      /\ exists_ wav_path = true
      /\ wave_open wav_path = Ok wf
      /\ getnchannels wf = 1%Z
      /\ getsampwidth wf = 2%Z
      /\ getframerate wf = 16000%Z
      /\ readframes wf (getnframes wf) = Ok raw
    /\ np_frombuffer_int16 raw = Ok ints
      /\ waveform = map (fun k => IZR k / 32768) ints
      /\ Forall (fun k => (-32768 <= k <= 32767)%Z) ints
      /\ Forall (fun v => -1 <= v < 1) waveform.
Proof. exact load_wav_ok. Qed.

(** X26.  What [load_wav_pcm16_mono] refuses.  A missing file raises
    [FileNotFoundError] before anything is opened.  A file that opens has
    its frames read first, and a failure of that read is passed on; then
    the channel count, the sample width and the frame rate are checked in
    this order, and the first mismatch raises [WavFormatError] naming the
    offending value; with all three right and whole samples the load
    succeeds.  [read_wav_metadata] reads no frames and applies none of the
    three checks: it reports the header of any file that opens. *)
Theorem load_wav_checks :
  forall (path wav_path : string),
    resolve path = Ok wav_path ->
    let load := load_wav_pcm16_mono resolve exists_ wave_open in
    (exists_ wav_path = false ->
     load path = Raise (Exc "FileNotFoundError"
                            ("Audio file not found: " ++ wav_path)))
    /\ (forall wf,
           exists_ wav_path = true -> wave_open wav_path = Ok wf ->
           let c := getnchannels wf in
           let w := getsampwidth wf in
           let r := getframerate wf in
           (forall e,
               readframes wf (getnframes wf) = Raise e ->
               load path = Raise e)
           /\ (forall raw,
                  readframes wf (getnframes wf) = Ok raw ->
                  (c <> 1%Z ->
                   load path
                   = Raise (Exc "WavFormatError"
                                ("Unsupported WAV channel count: "
                                 ++ str_of_int c ++ ". Expected mono (1).")))
                  /\ (c = 1%Z -> w <> 2%Z ->
                      load path
                      = Raise (Exc "WavFormatError"
                                   ("Unsupported WAV sample width: "
                                    ++ str_of_int w
                                    ++ ". Expected 16-bit PCM (2 bytes).")))
                  /\ (c = 1%Z -> w = 2%Z -> r <> 16000%Z ->
                      load path
                      = Raise (Exc "WavFormatError"
                                   ("Unsupported WAV sample rate: "
                                    ++ str_of_int r
                                    ++ ". Expected 16000 Hz.")))
                  /\ (c = 1%Z -> w = 2%Z -> r = 16000%Z ->
                      forall ints,
                        raw = int16_tobytes ints ->
                        Forall (fun k => (-32768 <= k <= 32767)%Z) ints ->
                        load path = Ok (map (fun k => IZR k / 32768) ints)))
           /\ read_wav_metadata resolve exists_ wave_open path
              = Ok {| channels := c; sample_width := w; sample_rate := r;
                      frame_count := getnframes wf |}).
Proof.
  intros path wav_path Hres load. subst load.
  unfold read_wav_metadata, load_wav_pcm16_mono, _read_wav_bytes.
  rewrite Hres. split.
  - intros ->. reflexivity.
  - intros wf -> ->. cbn [negb]. cbv zeta.
    split; [| split].
    + intros e ->. reflexivity.
    + intros raw ->. cbn [channels sample_width sample_rate].
      split; [| split; [| split]].
      * intros Hc. apply Z.eqb_neq in Hc. rewrite Hc. reflexivity.
      * intros -> Hw. apply Z.eqb_neq in Hw. rewrite Hw. reflexivity.
      * intros -> -> Hr. apply Z.eqb_neq in Hr. rewrite Hr. reflexivity.
      * intros -> -> -> ints -> Hints. cbn [Z.eqb Pos.eqb negb].
        rewrite (int16_bytes_roundtrip ints Hints).
        pose proof (pcm16_to_float_range ints Hints) as Hr.
        f_equal. apply np_clip_id. eapply Forall_impl; [| exact Hr].
        intros v Hv. cbv beta in Hv. lra.
    + reflexivity.
Qed.

End WavLoading.

Section WavLoadingExamples.

Import audio_io.

(** A two-sample file: the bytes [00 40 00 80] are 16384 and -32768, that
    is 0.5 and -1.0. *)
Lemma load_wav_result_example :
  exists ints,
    np_frombuffer_int16 [x00; x40; x00; x80] = Ok ints
    /\ load_wav_pcm16_mono one_file_resolve one_file_exists
         (one_file_open mono16k) "/tmp/a.wav"
       = Ok (map (fun k => IZR k / 32768) ints).
Proof.
  assert (E : load_wav_pcm16_mono one_file_resolve one_file_exists
                (one_file_open mono16k) "/tmp/a.wav"
              = Ok (np_clip (pcm16_to_float [16384; -32768]%Z) (-1) 1))
    by reflexivity.
  destruct (load_wav_result one_file_resolve one_file_exists
              (one_file_open mono16k) "/tmp/a.wav" _ E)
    as [wav_path [wf [raw [ints
         [_ [_ [Hopen [_ [_ [_ [Hr [Hb [Hw _]]]]]]]]]]]]].
  injection Hopen as <-. injection Hr as <-. exists ints. split; [exact Hb |].
  rewrite E. f_equal. exact Hw.
Defined.

(** The same bytes declared stereo at 8 kHz are refused for the channel
    count; a path that does not exist is refused before that. *)
Lemma load_wav_checks_example :
  load_wav_pcm16_mono one_file_resolve one_file_exists
    (one_file_open stereo8k) "/tmp/a.wav"
  = Raise (Exc "WavFormatError"
               "Unsupported WAV channel count: 2. Expected mono (1).")
  /\ load_wav_pcm16_mono one_file_resolve one_file_exists
       (one_file_open stereo8k) "/tmp/b.wav"
     = Raise (Exc "FileNotFoundError" "Audio file not found: /tmp/b.wav").
Proof.
  split.
  - destruct (load_wav_checks one_file_resolve one_file_exists
                (one_file_open stereo8k) "/tmp/a.wav" "/tmp/a.wav" eq_refl)
      as [_ H].
    destruct (H stereo8k eq_refl eq_refl) as [_ [Hraw _]].
    destruct (Hraw _ eq_refl) as [Hc _].
    apply Hc. discriminate.
  - destruct (load_wav_checks one_file_resolve one_file_exists
                (one_file_open stereo8k) "/tmp/b.wav" "/tmp/b.wav" eq_refl)
      as [H _].
    apply H. reflexivity.
Defined.

End WavLoadingExamples.

(* ================================================================== *)
(** * Native messaging host *)
(* ================================================================== *)

Section NativeMessaging.

Import chromium_native_host.

Variable json_loads : list byte -> result Json.
Variable json_dumps : Json -> result (list byte).
Variable strip : string -> string.
Variable lower : string -> string.
Variable hostname : string -> result (option string).

Lemma byte_digits (n : Z) :
  (0 <= n < 4294967296)%Z ->
  (n mod 256 + 256 * ((n / 256) mod 256) + 65536 * ((n / 65536) mod 256)
   + 16777216 * ((n / 16777216) mod 256) = n)%Z.
Proof.
  intros Hn.
  pose proof (Z.div_mod n 256 ltac:(lia)) as H0.
  pose proof (Z.div_mod (n / 256) 256 ltac:(lia)) as H1.
  pose proof (Z.div_mod (n / 65536) 256 ltac:(lia)) as H2.
  assert (E1 : (n / 65536 = n / 256 / 256)%Z)
    by (rewrite Z.div_div by lia; reflexivity).
  assert (E2 : (n / 16777216 = n / 65536 / 256)%Z)
    by (rewrite Z.div_div by lia; reflexivity).
  assert (H3 : (0 <= n / 16777216 < 256)%Z).
  { split; [apply Z.div_pos; lia | apply Z.div_lt_upper_bound; lia]. }
  rewrite (Z.mod_small (n / 16777216)) by lia.
  rewrite E1 in *. rewrite E2 in *. lia.
Qed.

Lemma struct_unpack_pack (n : Z) (header : list byte) :
  struct_pack_I n = Ok header ->
  length header = 4%nat /\ struct_unpack_I header = n.
Proof.
  unfold struct_pack_I.
  destruct ((0 <=? n)%Z && (n <? 4294967296)%Z) eqn:E; [| discriminate].
  apply andb_true_iff in E. destruct E as [H0 H1].
  apply Z.leb_le in H0. apply Z.ltb_lt in H1.
  intros H. injection H as <-. split; [reflexivity |].
  unfold struct_unpack_I. rewrite !Z_of_byte_of_Z.
  apply byte_digits. lia.
Qed.

(** X27.  Framing round trip.  For a message that encodes to fewer than
    4 GiB, [_send_message] appends to standard output one frame: the length
    of the encoded message as four little-endian bytes, then the message.
    [_read_message], given a stream that starts with such a frame, consumes
    exactly that frame and hands its payload to the JSON decoder: it returns
    the decoded object, or [None] if the payload does not decode to an
    object. *)
Theorem native_message_framing :
  forall (message : Json) (data stdout : list byte),
    json_dumps message = Ok data ->
    (Z.of_nat (length data) < 4294967296)%Z ->
    _send_message json_dumps message stdout = Ok (stdout ++ frame data)
    /\ struct_unpack_I (firstn 4 (frame data)) = Z.of_nat (length data)
    /\ skipn 4 (frame data) = data
    /\ forall (rest : list byte),
         _read_message json_loads (frame data ++ rest)
         = (match json_loads data with
            | Ok (JObject payload) => Some payload
            | _ => None
            end, rest).
Proof.
  intros message data stdout Hdump Hlen.
  unfold _send_message, frame. rewrite Hdump.
  destruct (struct_pack_I (Z.of_nat (length data))) as [header | e] eqn:Ep.
  2:{ unfold struct_pack_I in Ep.
      replace ((0 <=? Z.of_nat (length data))%Z) with true in Ep
        by (symmetry; apply Z.leb_le; lia).
      replace ((Z.of_nat (length data) <? 4294967296)%Z) with true in Ep
        by (symmetry; apply Z.ltb_lt; lia).
      discriminate Ep. }
  destruct (struct_unpack_pack _ _ Ep) as [Hh Hu].
  split; [reflexivity |].
  split; [rewrite firstn_app, firstn_all2, Hh by lia; cbn [Nat.sub firstn];
          now rewrite app_nil_r |].
  split; [rewrite skipn_app, skipn_all2, Hh by lia; reflexivity |].
  intros rest. unfold _read_message, read.
  change (Z.to_nat 4) with 4%nat.
  rewrite <- app_assoc.
  rewrite firstn_app, firstn_all2 by lia.
  rewrite skipn_app, skipn_all2 by lia.
  rewrite Hh. cbn [Nat.sub firstn skipn app]. rewrite app_nil_r.
  destruct header as [| b0 [| b1 [| b2 [| b3 [| b4 header]]]]];
    try discriminate Hh.
  cbn [length Nat.eqb negb]. rewrite Hu, Nat2Z.id.
  rewrite firstn_app, firstn_all, Nat.sub_diag. cbn [firstn].
  rewrite app_nil_r.
  rewrite skipn_app, skipn_all, Nat.sub_diag. cbn [skipn app].
  rewrite Z.eqb_refl. cbn [negb].
  destruct (json_loads data) as [[] | e]; reflexivity.
Qed.

(** X28.  [_read_message] on a short stream.  An empty stream, a stream
    that ends inside the four length bytes, and a stream that ends before the
    announced payload is complete all give [None]; in each case the bytes
    that were there have been consumed. *)
Theorem read_message_truncated :
  forall (stdin : list byte),
    ((length stdin < 4)%nat ->
     _read_message json_loads stdin = (None, []))
    /\ (forall (header payload : list byte),
           length header = 4%nat ->
           stdin = header ++ payload ->
           (Z.of_nat (length payload) < struct_unpack_I header)%Z ->
           _read_message json_loads stdin = (None, [])).
Proof.
  intros stdin. split.
  - intros Hshort. unfold _read_message, read.
    change (Z.to_nat 4) with 4%nat.
    rewrite firstn_all2, skipn_all2 by lia.
    destruct stdin as [| b0 stdin]; [reflexivity |].
    replace (length (b0 :: stdin) =? 4)%nat with false
      by (symmetry; apply Nat.eqb_neq; lia).
    reflexivity.
  - intros header payload Hh -> Hlt.
    unfold _read_message, read.
    change (Z.to_nat 4) with 4%nat.
    rewrite firstn_app, firstn_all2 by lia.
    rewrite skipn_app, skipn_all2 by lia.
    rewrite Hh. cbn [Nat.sub firstn skipn app]. rewrite app_nil_r.
    destruct header as [| b0 [| b1 [| b2 [| b3 [| b4 header]]]]];
      try discriminate Hh.
    cbn [length Nat.eqb negb].
    set (n := struct_unpack_I [b0; b1; b2; b3]) in *.
    rewrite firstn_all2, skipn_all2 by lia.
    replace (Z.of_nat (length payload) =? n)%Z with false
      by (symmetry; apply Z.eqb_neq; lia).
    reflexivity.
Qed.

Lemma extract_domain_nonempty (value d : string) :
  _extract_domain strip lower hostname value = Ok (Some d) -> d <> "".
Proof.
  unfold _extract_domain.
  destruct (strip value =? "")%string; [discriminate |].
  destruct (hostname (strip value)) as [parsed | e]; [| discriminate].
  destruct (host_of strip lower parsed =? "")%string eqn:E1; cbn [negb].
  - destruct (negb _); [| discriminate].
    destruct (hostname _) as [parsed2 | e]; [| discriminate].
    destruct (host_of strip lower parsed2 =? "")%string eqn:E2; cbn [negb];
      [discriminate |].
    intros H. injection H as <-. now apply String.eqb_neq.
  - intros H. injection H as <-. now apply String.eqb_neq.
Qed.

Lemma domain_from_nonempty (message : list (string * Json)) (key : string)
    (domain : option string) (d : string) :
  (forall d0, domain = Some d0 -> d0 <> "") ->
  domain_from strip lower hostname message key domain = Ok (Some d) ->
  d <> "".
Proof.
  intros Hprev. unfold domain_from.
  destruct domain as [d0 |].
  - intros H. injection H as <-. now apply Hprev.
  - destruct (get message key) as [[] |]; try discriminate.
    apply extract_domain_nonempty.
Qed.

(** X29.  What [_normalize_payload] returns.  When a pair is returned
    neither part is empty.  A [domain] entry that holds a string with a host
    in it decides the domain, whatever [active_domain], [url] and
    [active_url] hold.  A non-blank [bundleId] entry is returned stripped,
    whatever [bundle_id] and [browser] say. *)
Theorem normalize_payload_result :
  forall (message : list (string * Json)),
    (forall (bundle_id domain : string),
        _normalize_payload strip lower hostname message
        = Ok (Some (bundle_id, domain)) ->
        bundle_id <> "" /\ domain <> "")
    /\ (forall (s d : string),
           get message "domain" = Some (JString s) ->
           _extract_domain strip lower hostname s = Ok (Some d) ->
           exists bundle_id,
             _normalize_payload strip lower hostname message
             = Ok (Some (bundle_id, d)))
    /\ (forall (bundle_id domain value : string),
           _normalize_payload strip lower hostname message
           = Ok (Some (bundle_id, domain)) ->
           get message "bundleId" = Some (JString value) ->
           strip value <> "" ->
           bundle_id = strip value).
Proof.
  intros message. split; [| split].
  - intros bundle_id domain. unfold _normalize_payload.
    destruct (domain_from _ _ _ message "domain" None)
      as [d1 | e] eqn:E1; [| discriminate].
    destruct (domain_from _ _ _ message "active_domain" d1)
      as [d2 | e] eqn:E2; [| discriminate].
    destruct (domain_from _ _ _ message "url" d2)
      as [d3 | e] eqn:E3; [| discriminate].
    destruct (domain_from _ _ _ message "active_url" d3)
      as [[d4 |] | e] eqn:E4; try discriminate.
    assert (H1 : forall d0, d1 = Some d0 -> d0 <> "").
    { intros d0 ->. eapply domain_from_nonempty; [| exact E1]. discriminate. }
    assert (H2 : forall d0, d2 = Some d0 -> d0 <> "").
    { intros d0 ->. eapply domain_from_nonempty; [exact H1 | exact E2]. }
    assert (H3 : forall d0, d3 = Some d0 -> d0 <> "").
    { intros d0 ->. eapply domain_from_nonempty; [exact H2 | exact E3]. }
    assert (H4 : d4 <> "").
    { eapply domain_from_nonempty; [exact H3 | exact E4]. }
    cbv zeta. intros H. injection H as Hb Hd. subst domain.
    split; [| exact H4]. rewrite <- Hb. clear Hb.
    match goal with
    | |- (if (?X =? "")%string then _ else _) <> _ =>
        destruct (X =? "")%string eqn:Eb1
    end.
    + intros E. vm_compute in E. discriminate E.
    + now apply String.eqb_neq.
  - intros s d Hget Hdom.
    assert (E1 : domain_from strip lower hostname message "domain" None
                 = Ok (Some d)).
    { unfold domain_from. rewrite Hget. exact Hdom. }
    unfold _normalize_payload. rewrite E1.
    cbn [domain_from]. eexists. reflexivity.
  - intros bundle_id domain value. unfold _normalize_payload.
    destruct (domain_from _ _ _ message "domain" None)
      as [d1 | e]; [| discriminate].
    destruct (domain_from _ _ _ message "active_domain" d1)
      as [d2 | e]; [| discriminate].
    destruct (domain_from _ _ _ message "url" d2)
      as [d3 | e]; [| discriminate].
    destruct (domain_from _ _ _ message "active_url" d3)
      as [[d4 |] | e]; try discriminate.
    intros H Hget Hv. revert H. apply String.eqb_neq in Hv.
    assert (Hb : bundle_from strip message "bundleId" = Some (strip value)).
    { unfold bundle_from. now rewrite Hget, Hv. }
    cbv zeta. rewrite !Hb, !Hv.
    intros H. injection H as <- _. reflexivity.
Qed.

End NativeMessaging.

Section NativeMessagingExamples.

Import chromium_native_host.

(** The two-byte message [{}]: written as six bytes, and read back from a
    stream that goes on after it. *)
Lemma native_message_framing_example :
  _send_message sample_dumps (JObject []) []
  = Ok [x02; x00; x00; x00; x7b; x7d]
  /\ _read_message sample_loads [x02; x00; x00; x00; x7b; x7d; x01]
     = (Some [], [x01]).
Proof.
  destruct (native_message_framing sample_loads sample_dumps (JObject [])
              sample_payload [] eq_refl ltac:(simpl; lia))
    as [Hs [_ [_ Hr]]].
  split; [exact Hs | exact (Hr [x01])].
Defined.

(** A stream of three bytes, and one that announces two bytes and holds
    one. *)
Lemma read_message_truncated_example :
  _read_message sample_loads [x02; x00; x00] = (None, [])
  /\ _read_message sample_loads [x02; x00; x00; x00; x7b] = (None, []).
Proof.
  split.
  - apply (read_message_truncated sample_loads [x02; x00; x00]).
    simpl. lia.
  - apply (proj2 (read_message_truncated sample_loads
                    [x02; x00; x00; x00; x7b])
             [x02; x00; x00; x00] [x7b]);
      [reflexivity | reflexivity | vm_compute; reflexivity].
Defined.

(** A message whose [url] comes first but whose [domain] is usable. *)
Lemma normalize_payload_example :
  exists bundle_id,
    _normalize_payload (fun s => s) (fun s => s) sample_hostname
      [("url", JString "https://b.example"); ("domain", JString "a.example")]
    = Ok (Some (bundle_id, "a.example")).
Proof.
  apply (proj1 (proj2 (normalize_payload_result (fun s => s) (fun s => s)
                         sample_hostname
                         [("url", JString "https://b.example");
                          ("domain", JString "a.example")]))
           "a.example" "a.example"); reflexivity.
Defined.

End NativeMessagingExamples.

(* ================================================================== *)
(** * Choosing the ASR input *)
(* ================================================================== *)

Section TranscribeInput.

Import audio_io inference_pipeline.

Variable resolve : string -> result string.
Variable exists_ : string -> bool.
Variable wave_open : string -> result Wave_read.
Variable ffmpeg_path : option string.
Variable suffix_lower : string -> string.
Variable supports_ndarray : bool.

(** X30.  The input chosen for the recogniser.  [_prepare_transcribe_input]
    hands the decoded waveform on only for a [.wav] file that
    [load_wav_pcm16_mono] accepted (so every sample lies in [-1, 1)) when
    [transcribe] takes arrays, and then asks for no ffmpeg; it hands the path
    on, asking for ffmpeg, only if ffmpeg was found.  It raises
    [RuntimeError] only when ffmpeg is missing; any other exception is one
    the loader raised and that is not a [WavFormatError] (a missing file, an
    unreadable WAV header). *)
Theorem prepare_transcribe_input_outcomes :
  forall (audio_path : string),
    match _prepare_transcribe_input resolve exists_ wave_open
            ffmpeg_path suffix_lower supports_ndarray audio_path with
    | Ok (InputWaveform waveform, requires_ffmpeg) =>
        requires_ffmpeg = false
        /\ suffix_lower audio_path = ".wav"
        /\ supports_ndarray = true
        /\ load_wav_pcm16_mono resolve exists_ wave_open audio_path
           = Ok waveform
        /\ Forall (fun v => -1 <= v < 1) waveform
    | Ok (InputPath p, requires_ffmpeg) =>
        requires_ffmpeg = true /\ p = audio_path
        /\ truthy ffmpeg_path = true
    | Raise exc =>
        (exists msg, exc = Exc "RuntimeError" msg
                     /\ truthy ffmpeg_path = false)
        \/ (suffix_lower audio_path = ".wav"
            /\ load_wav_pcm16_mono resolve exists_ wave_open audio_path
               = Raise exc
            /\ is_WavFormatError exc = false)
    end.
Proof.
  intros audio_path. unfold _prepare_transcribe_input. cbv zeta.
  destruct (suffix_lower audio_path =? ".wav")%string eqn:Ew.
  - apply String.eqb_eq in Ew.
    destruct (load_wav_pcm16_mono resolve exists_ wave_open audio_path)
      as [waveform | exc] eqn:El.
    + destruct supports_ndarray.
      * destruct (load_wav_ok _ _ _ _ _ El)
          as [? [? [? [? [_ [_ [_ [_ [_ [_ [_ [_ [_ [_ Hr]]]]]]]]]]]]]].
        repeat split; [exact Ew | exact Hr].
      * destruct (truthy ffmpeg_path) eqn:Ef.
        -- repeat split.
        -- left. eexists. split; reflexivity.
    + destruct (is_WavFormatError exc) eqn:Ec.
      * destruct (truthy ffmpeg_path) eqn:Ef.
        -- repeat split.
        -- left. eexists. split; reflexivity.
      * right. split; [exact Ew | split; [reflexivity | exact Ec]].
  - destruct (truthy ffmpeg_path) eqn:Ef.
    + repeat split.
    + left. eexists. split; reflexivity.
Qed.

End TranscribeInput.
